(** * Visual parking: a shallow embedding of the detection-and-dispatch core

    The development follows the Python sources module by module:

    - [PyText]         the [str] and [re] primitives the sources call;
    - [Anpr]           [app/cv/anpr.py] (plate cleaning and validation);
    - [SlotDetector]   [app/cv/slot_detector.py] (layout, occupancy score);
    - [SlotDetector64] [app/cv/slot_detector.py] (the occupancy score in
                       binary64);
    - [CvService]      [app/cv/cv_service.py] (rate limiter, dispatch);
    - [PlateOCR]       [src/models/plate_ocr.py] (multi-attempt OCR);
    - [EntryPipeline]  [src/pipelines/entry_pipeline.py] (duplicate gate);
    - [CameraManager]  [app/cv/camera_manager.py] (worker loop);
    - [SlotTracking]   [app/cv/slot_detector.py] (a pass over a camera, the
                       change log, the layout file);
    - [AnprDetect]     [app/cv/anpr.py] (the recognizer);
    - [PlateDetector]  [src/models/plate_detector.py] (plates in a vehicle box);
    - [Detector]       [app/cv/detector.py] (classes, boxes and centres);
    - [CameraDispatch] [app/cv/camera_manager.py] (a frame of a camera, up
                       to the handlers of the service);
    - [CameraLifecycle] [app/cv/camera_manager.py] (cameras, captures,
                       threads and stop flags);
    - [IndoorPipeline] [src/pipelines/indoor_pipeline.py] (parking spots).

    Conventions.  Text is a list of 8-bit code points (Latin-1), classified
    as CPython classifies them.  A [datetime] is its number of microseconds
    since the epoch, a [timedelta] a number of microseconds, both in [Z].
    A Python [float] is modelled by the rational it denotes ([Q]); rounding
    is not modelled there.  The occupancy score, whose comparison with the
    threshold rounding can decide, is modelled a second time in
    [SlotDetector64], over the binary64 numbers of [PrimFloat] with the
    operations of IEEE 754; what is stated of the score as a number is
    stated of that model.  Calls into OpenCV, EasyOCR, NumPy's variance and
    the clock are inputs of the functions that make them. *)

From Stdlib Require Import ZArith QArith Qminmax Qround Lia Lqa List Bool Ascii
  String.
From Stdlib Require Import DecimalString.
From Stdlib Require Floats Uint63.
From stdpp Require Import gmap strings.
Import ListNotations.

Local Open Scope Z_scope.

(** ** Python text primitives *)

Module PyText.

(** A [str] restricted to the code points 0..255. *)
Definition text := list ascii.

Definition code (c : ascii) : N := N_of_ascii c.

Definition in_range (lo hi : N) (c : ascii) : bool :=
  ((lo <=? code c) && (code c <=? hi))%N.

Definition is_code (n : N) (c : ascii) : bool := (code c =? n)%N.

(** The regex classes [[A-Z]], [[a-z]] and [[0-9]]. *)
Definition upper_AZ : ascii -> bool := in_range 65 90.
Definition lower_az : ascii -> bool := in_range 97 122.
Definition digit_09 : ascii -> bool := in_range 48 57.

(** [str.isspace], which is also what [\s] matches in a [str] pattern and
    what [str.strip()] removes: TAB..CR, FS..US, space, NEL and NBSP. *)
Definition isspace (c : ascii) : bool :=
  in_range 9 13 c || in_range 28 32 c || is_code 133 c || is_code 160 c.

(** [\d] in a [str] pattern: the decimal digits. *)
Definition re_digit : ascii -> bool := digit_09.

(** [str.isalpha]: the letters of Latin-1. *)
Definition isalpha (c : ascii) : bool :=
  upper_AZ c || lower_az c || is_code 170 c || is_code 181 c || is_code 186 c
  || in_range 192 214 c || in_range 216 246 c || in_range 248 255 c.

(** [str.isdigit]: the decimal digits and the superscripts 1, 2, 3. *)
Definition isdigit (c : ascii) : bool :=
  digit_09 c || is_code 178 c || is_code 179 c || is_code 185 c.

(** [str.upper] on one character.  In Latin-1 the small letters a..z and
    the accented ones (224..254 without the division sign 247) have their
    capital 32 places below; the sharp s (223) becomes the two letters SS.
    The capitals of the micro sign (181) and of y with diaeresis (255) lie
    outside Latin-1: the two stand for themselves here, and no class that
    the sources test afterwards contains either them or their capitals. *)
Definition upper_char (c : ascii) : text :=
  if lower_az c || (in_range 224 254 c && negb (is_code 247 c))
  then [ascii_of_N (code c - 32)]
  else if is_code 223 c then [ascii_of_N 83; ascii_of_N 83]
  else [c].

Definition upper (s : text) : text := flat_map upper_char s.

(** [not s] for a [str]. *)
Definition is_empty (s : text) : bool :=
  match s with [] => true | _ :: _ => false end.

Definition space : ascii := ascii_of_N 32.
Definition newline : ascii := ascii_of_N 10.

(** [str.lstrip()], [str.rstrip()] and [str.strip()]. *)
Fixpoint lstrip (s : text) : text :=
  match s with
  | c :: s' => if isspace c then lstrip s' else s
  | [] => []
  end.

Fixpoint rstrip (s : text) : text :=
  match s with
  | [] => []
  | c :: s' =>
      match rstrip s' with
      | [] => if isspace c then [] else [c]
      | r => c :: r
      end
  end.

Definition strip (s : text) : text := rstrip (lstrip s).

(** [any(p(c) for c in s)]. *)
Definition any (p : ascii -> bool) (s : text) : bool := existsb p s.

(** [re.sub(r'[^...]', '', s)] for a negated class: the characters of the
    class complement are deleted, the others kept in order. *)
Definition re_sub_delete_not (keep : ascii -> bool) (s : text) : text :=
  List.filter keep s.

(** [re.sub(r'\s+', ' ', s)]: every maximal run of whitespace becomes one
    space.  [in_run] tells that the previous character was whitespace. *)
Fixpoint re_sub_ws_runs (in_run : bool) (s : text) : text :=
  match s with
  | [] => []
  | c :: s' =>
      if isspace c
      then (if in_run then re_sub_ws_runs true s'
            else space :: re_sub_ws_runs true s')
      else c :: re_sub_ws_runs false s'
  end.

(** *** Anchored patterns

    The patterns of the sources are sequences of bounded repetitions of
    a character class, between [^] and [$]. *)
Record re_item := Rep { cls : ascii -> bool; lo : nat; hi : nat }.

Definition pattern := list re_item.

(** [$] without [re.MULTILINE]: at the end, or before a final newline. *)
Definition at_dollar (s : text) : bool :=
  match s with
  | [] => true
  | [c] => is_code 10 c
  | _ => false
  end.

(** [c{lo,hi}] followed by the continuation [k], longest first. *)
Fixpoint match_rep (c : ascii -> bool) (lo hi : nat)
         (k : text -> bool) (s : text) : bool :=
  match hi with
  | O => match lo with O => k s | S _ => false end
  | S hi' =>
      match s with
      | a :: s' => c a && match_rep c (Nat.pred lo) hi' k s'
      | [] => false
      end
      || match lo with O => k s | S _ => false end
  end.

Fixpoint match_items (p : pattern) (s : text) : bool :=
  match p with
  | [] => at_dollar s
  | i :: p' => match_rep (cls i) (lo i) (hi i) (match_items p') s
  end.

(** [bool(re.match(p, s))] for an anchored pattern [p]. *)
Definition re_match (p : pattern) (s : text) : bool := match_items p s.

(** A text literal. *)
Definition txt (s : string) : text := list_ascii_of_string s.

End PyText.

(** ** app/cv/anpr.py *)

Module Anpr.
Import PyText.

(** [LicensePlateRecognizer.plate_patterns]:
    [^[A-Z]{1,3}\s?\d{1,4}\s?[A-Z]{0,3}$],
    [^\d{1,2}\s?[A-Z]{1,3}\s?\d{1,4}$],
    [^[A-Z]{2}\s?\d{2}\s?[A-Z]{1,3}\s?\d{1,4}$]. *)
Definition plate_patterns : list pattern :=
  [ [ Rep upper_AZ 1 3; Rep isspace 0 1; Rep re_digit 1 4;
      Rep isspace 0 1; Rep upper_AZ 0 3 ];
    [ Rep re_digit 1 2; Rep isspace 0 1; Rep upper_AZ 1 3;
      Rep isspace 0 1; Rep re_digit 1 4 ];
    [ Rep upper_AZ 2 2; Rep isspace 0 1; Rep re_digit 2 2;
      Rep isspace 0 1; Rep upper_AZ 1 3; Rep isspace 0 1;
      Rep re_digit 1 4 ] ].

(** The class [[A-Za-z0-9\s]] whose complement the cleaner deletes. *)
Definition plate_char (c : ascii) : bool :=
  upper_AZ c || lower_az c || digit_09 c || isspace c.

Definition _clean_plate_text (t : text) : text :=
  let cleaned := re_sub_delete_not plate_char t in
  let cleaned := upper cleaned in
  re_sub_ws_runs false (strip cleaned).

Definition _validate_plate_text (t : text) : bool :=
  if is_empty t || (length t <? 4)%nat then false
  else if existsb (fun p => re_match p t) plate_patterns then true
  else
    let has_letter := any isalpha t in
    let has_number := any isdigit t in
    has_letter && has_number.

End Anpr.

(** ** Python built-ins shared by the modules below *)

Module Py.

(** [range(a, b)]. *)
Definition range (a b : Z) : list Z :=
  map (fun k => a + Z.of_nat k) (seq 0 (Z.to_nat (b - a))).

(** [enumerate(l)]. *)
Definition enumerate {A} (l : list A) : list (Z * A) :=
  combine (map Z.of_nat (seq 0 (length l))) l.

(** [max(l, key=key)]: the first element whose key no later element
    exceeds; [None] stands for the [ValueError] on an empty list. *)
Definition max_by {A K} (ltb : K -> K -> bool) (key : A -> K)
           (l : list A) : option A :=
  match l with
  | [] => None
  | x :: l' =>
      Some (fold_left (fun best y => if ltb (key best) (key y) then y else best)
                      l' x)
  end.

(** [not l] for a list. *)
Definition is_empty_list {A} (l : list A) : bool :=
  match l with [] => true | _ :: _ => false end.

(** [min(a, b)] on floats: [b] when [b < a], else [a]. *)
Definition min (a b : Q) : Q :=
  match (b ?= a)%Q with Lt => b | _ => a end.

Definition Qltb (a b : Q) : bool :=
  match (a ?= b)%Q with Lt => true | _ => false end.

(** The index a slice bound denotes in a sequence of length [n]. *)
Definition slice_index (n i : Z) : Z :=
  if i <? 0 then Z.max (i + n) 0 else Z.min i n.

(** [l[start:stop]]. *)
Definition slice {A} (start stop : Z) (l : list A) : list A :=
  let n := Z.of_nat (length l) in
  let a := slice_index n start in
  let b := slice_index n stop in
  firstn (Z.to_nat (b - a)) (skipn (Z.to_nat a) l).

(** [f"{n:02d}"]. *)
Definition fmt_02d (n : Z) : string :=
  let digits := NilZero.string_of_uint (N.to_uint (Z.to_N (Z.abs n))) in
  if n <? 0 then String "-" digits
  else if (String.length digits <? 2)%nat then String "0" digits
  else digits.

End Py.

(** ** app/cv/slot_detector.py *)

Module SlotDetector.

Record SlotROI := {
  slot_id : Z;
  slot_code : string;
  coordinates : Z * Z * Z * Z;      (* (x, y, width, height) *)
  vehicle_type : string;            (* CAR or BIKE *)
  camera_id : Z }.

Record SlotStatus := {
  status_slot_id : Z;
  is_occupied : bool;
  confidence : Q;
  license_plate : option string;
  status_vehicle_type : option string;
  last_updated : option Z }.

(** A colour frame: rows of pixels, a pixel being its channel values.
    A mask or a grey image: rows of values. *)
Definition image := list (list (list Z)).
Definition gray := list (list Z).

Definition _calculate_slot_id (floor vehicle_type : string) (slot_num : Z) : Z :=
  let floor_offset := if String.eqb floor "A" then 0 else 1000 in
  let type_offset := if String.eqb vehicle_type "CAR" then 0 else 100 in
  floor_offset + type_offset + slot_num.

Definition _generate_car_slot_rois (camera_id : Z) (floor : string)
           (cam_num : Z) : list SlotROI :=
  let start_slot := (cam_num - 1) * 4 + 1 in
  let end_slot := start_slot + 4 in
  let slot_width := 120 in
  let slot_height := 200 in
  let start_x := 50 in
  let start_y := 100 in
  let spacing := 130 in
  map (fun '(i, slot_num) =>
         let slot_code := (floor ++ "-C-" ++ Py.fmt_02d slot_num)%string in
         let x := start_x + i * spacing in
         let y := start_y in
         {| slot_id := _calculate_slot_id floor "CAR" slot_num;
            slot_code := slot_code;
            coordinates := (x, y, slot_width, slot_height);
            vehicle_type := "CAR";
            camera_id := camera_id |})
      (Py.enumerate (Py.range start_slot end_slot)).

Definition _generate_bike_slot_rois (camera_id : Z) (floor : string)
           (cam_num : Z) : list SlotROI :=
  let start_slot := (cam_num - 1) * 8 + 1 in
  let end_slot := start_slot + 8 in
  let slot_width := 60 in
  let slot_height := 120 in
  let start_x := 30 in
  let start_y := 80 in
  let spacing := 70 in
  map (fun '(i, slot_num) =>
         let slot_code := (floor ++ "-B-" ++ Py.fmt_02d slot_num)%string in
         let row := i / 4 in
         let col := i mod 4 in
         let x := start_x + col * spacing in
         let y := start_y + row * (slot_height + 20) in
         {| slot_id := _calculate_slot_id floor "BIKE" slot_num;
            slot_code := slot_code;
            coordinates := (x, y, slot_width, slot_height);
            vehicle_type := "BIKE";
            camera_id := camera_id |})
      (Py.enumerate (Py.range start_slot end_slot)).

(** The detector object.  A background subtractor is an OpenCV object;
    [bg_subtractors] keeps the camera ids that own one. *)
Record SlotOccupancyDetector := {
  motion_threshold : Q;
  occupancy_threshold : Q;
  camera_rois : gmap Z (list SlotROI);
  bg_subtractors : gset Z;
  previous_statuses : gmap Z SlotStatus }.

Definition set_camera (gen : Z -> string -> Z -> list SlotROI) (floor : string)
           (acc : Z * SlotOccupancyDetector) (cam_num : Z)
  : Z * SlotOccupancyDetector :=
  let '(camera_id, d) := acc in
  (camera_id + 1,
   {| motion_threshold := motion_threshold d;
      occupancy_threshold := occupancy_threshold d;
      camera_rois := <[camera_id := gen camera_id floor cam_num]> (camera_rois d);
      bg_subtractors := {[camera_id]} ∪ bg_subtractors d;
      previous_statuses := previous_statuses d |}).

Definition _initialize_slot_layout (d : SlotOccupancyDetector)
  : SlotOccupancyDetector :=
  let camera_id := 1 in
  snd (fold_left
         (fun acc floor =>
            let acc := fold_left (set_camera _generate_car_slot_rois floor)
                                 (Py.range 1 6) acc in
            fold_left (set_camera _generate_bike_slot_rois floor)
                      (Py.range 1 3) acc)
         ["A"; "B"]%string (camera_id, d)).

(** [SlotOccupancyDetector(motion_threshold, occupancy_threshold)]. *)
Definition init (motion_threshold occupancy_threshold : Q)
  : SlotOccupancyDetector :=
  _initialize_slot_layout
    {| motion_threshold := motion_threshold;
       occupancy_threshold := occupancy_threshold;
       camera_rois := ∅;
       bg_subtractors := ∅;
       previous_statuses := ∅ |}.

(** The defaults of the constructor: 0.3 and 0.4. *)
Definition default_detector : SlotOccupancyDetector := init (3 # 10) (4 # 10).

(** Every region of the layout, camera by camera. *)
Definition all_rois (d : SlotOccupancyDetector) : list SlotROI :=
  concat (map snd (map_to_list (camera_rois d))).

(** *** Occupancy *)

(** [a.size] and [a.flatten()] of an array. *)
Definition flatten2 (m : gray) : list Z := concat m.
Definition flatten3 (a : image) : list Z := concat (concat a).
Definition size2 (m : gray) : Z := Z.of_nat (length (flatten2 m)).
Definition size3 (a : image) : Z := Z.of_nat (length (flatten3 a)).

(** [np.sum(m > 0)]. *)
Definition count_positive (m : gray) : Z :=
  Z.of_nat (length (List.filter (fun v => 0 <? v) (flatten2 m))).

Definition Qsum (l : list Q) : Q := fold_right Qplus 0%Q l.

(** [np.var(a)]: the mean of the squared deviations from the mean, over
    all the values of the array. *)
Definition np_var (xs : list Z) : Q :=
  let n := inject_Z (Z.of_nat (length xs)) in
  let mean := (Qsum (map inject_Z xs) / n)%Q in
  (Qsum (map (fun x => (inject_Z x - mean) * (inject_Z x - mean)) xs) / n)%Q.

(** [a[y:y+h, x:x+w]]. *)
Definition crop {A} (x y w h : Z) (a : list (list A)) : list (list A) :=
  map (Py.slice x (x + w)) (Py.slice y (y + h) a).

Section Occupancy.
(** [cv2.cvtColor(., cv2.COLOR_BGR2GRAY)] and [cv2.Canny]. *)
Variable cvtColor_BGR2GRAY : image -> gray.
Variable Canny : gray -> Z -> Z -> gray.

Definition _calculate_occupancy_score (slot_region : image)
           (mask_region : gray) : Q :=
  if size3 slot_region =? 0 then 0%Q
  else
    let motion_pixels := count_positive mask_region in
    let total_pixels := size2 mask_region in
    let motion_score :=
      if total_pixels >? 0
      then (inject_Z motion_pixels / inject_Z total_pixels)%Q else 0%Q in
    let gray_slot := cvtColor_BGR2GRAY slot_region in
    let edges := Canny gray_slot 50 150 in
    let edge_score :=
      if size2 edges >? 0
      then (inject_Z (count_positive edges) / inject_Z (size2 edges))%Q
      else 0%Q in
    let color_variance := np_var (flatten3 slot_region) in
    let normalized_variance := Py.min (color_variance / 1000) 1 in
    let occupancy_score :=
      ((4 # 10) * motion_score + (3 # 10) * edge_score
       + (3 # 10) * normalized_variance)%Q in
    Py.min occupancy_score 1.

Definition _check_slot_occupancy (d : SlotOccupancyDetector) (now : Z)
           (frame : image) (bg_mask : gray) (slot_roi : SlotROI)
  : SlotStatus :=
  let '(x, y, w, h) := coordinates slot_roi in
  let slot_region := crop x y w h frame in
  let mask_region := crop x y w h bg_mask in
  let occupancy_score := _calculate_occupancy_score slot_region mask_region in
  let is_occupied := Py.Qltb (occupancy_threshold d) occupancy_score in
  {| status_slot_id := slot_id slot_roi;
     is_occupied := is_occupied;
     confidence := occupancy_score;
     license_plate := None;
     status_vehicle_type := None;
     last_updated := Some now |}.
End Occupancy.

End SlotDetector.

(** ** The occupancy score in binary64

    [_calculate_occupancy_score] and [_check_slot_occupancy] once more,
    with the arithmetic of the interpreter: the two pixel counts are
    converted to [float64] and divided, products and sums are rounded one
    by one in the order Python evaluates them, and [min] and [>] compare
    floats.  [np.var] is an input: NumPy computes it in [float64]. *)

Module SlotDetector64.
Import Floats SlotDetector.
#[local] Set Warnings "-inexact-float".

(** An integer count as a [float64]: exact below 2^53, rounded to the
    nearest above; the counts of an array stay below 2^63. *)
Definition of_count (n : Z) : float := PrimFloat.of_uint63 (Uint63.of_Z n).

(** [min(a, b)] of Python on floats: [b] when [b < a], else [a]. *)
Definition py_min (a b : float) : float := if (b <? a)%float then b else a.

(** [SlotStatus], its confidence a [float64]. *)
Record SlotStatus := {
  status_slot_id : Z;
  is_occupied : bool;
  confidence : float;
  license_plate : option string;
  status_vehicle_type : option string;
  last_updated : option Z }.

Section Occupancy.
Variable cvtColor_BGR2GRAY : image -> gray.
Variable Canny : gray -> Z -> Z -> gray.
Variable np_var : image -> float.

Definition _calculate_occupancy_score (slot_region : image)
           (mask_region : gray) : float :=
  if size3 slot_region =? 0 then 0%float
  else
    let motion_pixels := count_positive mask_region in
    let total_pixels := size2 mask_region in
    let motion_score :=
      if total_pixels >? 0
      then (of_count motion_pixels / of_count total_pixels)%float else 0%float in
    let gray_slot := cvtColor_BGR2GRAY slot_region in
    let edges := Canny gray_slot 50 150 in
    let edge_score :=
      if size2 edges >? 0
      then (of_count (count_positive edges) / of_count (size2 edges))%float
      else 0%float in
    let color_variance := np_var slot_region in
    let normalized_variance := py_min (color_variance / 1000) 1 in
    let occupancy_score :=
      (0.4 * motion_score + 0.3 * edge_score + 0.3 * normalized_variance)%float in
    py_min occupancy_score 1.

Definition _check_slot_occupancy (occupancy_threshold : float) (now : Z)
           (frame : image) (bg_mask : gray) (slot_roi : SlotROI) : SlotStatus :=
  let '(x, y, w, h) := coordinates slot_roi in
  let slot_region := crop x y w h frame in
  let mask_region := crop x y w h bg_mask in
  let occupancy_score := _calculate_occupancy_score slot_region mask_region in
  let is_occupied := (occupancy_threshold <? occupancy_score)%float in
  {| status_slot_id := slot_id slot_roi;
     is_occupied := is_occupied;
     confidence := occupancy_score;
     license_plate := None;
     status_vehicle_type := None;
     last_updated := Some now |}.
End Occupancy.

End SlotDetector64.

(** ** app/cv/cv_service.py *)

Module CvService.

Record CVSystemConfig := {
  api_base_url : string;
  yolo_model_path : string;
  confidence_threshold : Q;
  plate_confidence_threshold : Q;
  processing_fps : Z;
  enable_gpu : bool }.

Definition default_config (api_base_url : string) : CVSystemConfig :=
  {| api_base_url := api_base_url;
     yolo_model_path := "yolov8n.pt";
     confidence_threshold := 6 # 10;
     plate_confidence_threshold := 7 # 10;
     processing_fps := 5;
     enable_gpu := false |}.

(** The dict a camera callback hands over.  [license_plate] is [None] when
    the camera read no plate; [plate_confidence] is [None] when the key is
    absent, which [.get('plate_confidence', 0.0)] reads as 0.0. *)
Record detection_data := {
  camera_id : option Z;
  vehicle_type : string;
  confidence : Q;
  license_plate : option string;
  plate_confidence : option Q;
  timestamp : Z }.

Record detection_stats := {
  total_detections : Z;
  successful_entries : Z;
  successful_exits : Z;
  failed_detections : Z;
  last_reset : Z }.

(** A coroutine handed to [asyncio.create_task]: one backend call. *)
Inductive api_task :=
| call_entry_api (d : detection_data)
| call_exit_api (d : detection_data).

(** The service object; [tasks] lists the backend calls scheduled so far,
    oldest first. *)
Record CVParkingService := {
  config : CVSystemConfig;
  is_running : bool;
  last_api_call : gmap string Z;
  stats : detection_stats;
  api_cooldown : Z;
  tasks : list api_task }.

Definition fresh_stats (now : Z) : detection_stats :=
  {| total_detections := 0; successful_entries := 0; successful_exits := 0;
     failed_detections := 0; last_reset := now |}.

(** [CVParkingService(config)], built at time [now]. *)
Definition init (config : CVSystemConfig) (now : Z) : CVParkingService :=
  {| config := config;
     is_running := false;
     last_api_call := ∅;
     stats := fresh_stats now;
     api_cooldown := 5 * 1000000;
     tasks := [] |}.

Definition set_last_api_call (key : string) (t : Z) (s : CVParkingService) :=
  {| config := config s; is_running := is_running s;
     last_api_call := <[key := t]> (last_api_call s);
     stats := stats s; api_cooldown := api_cooldown s; tasks := tasks s |}.

Definition set_stats (st : detection_stats) (s : CVParkingService) :=
  {| config := config s; is_running := is_running s;
     last_api_call := last_api_call s;
     stats := st; api_cooldown := api_cooldown s; tasks := tasks s |}.

(** [asyncio.create_task(coro)] schedules the coroutine when the calling
    thread runs an event loop, and raises [RuntimeError] when it runs none;
    the handlers catch the exception and log it.  [loop_running] tells
    which of the two the call meets. *)
Definition create_task (loop_running : bool) (t : api_task)
           (s : CVParkingService) : CVParkingService :=
  if loop_running
  then {| config := config s; is_running := is_running s;
          last_api_call := last_api_call s;
          stats := stats s; api_cooldown := api_cooldown s;
          tasks := tasks s ++ [t] |}
  else s.

Definition count_failed (st : detection_stats) : detection_stats :=
  {| total_detections := total_detections st;
     successful_entries := successful_entries st;
     successful_exits := successful_exits st;
     failed_detections := failed_detections st + 1;
     last_reset := last_reset st |}.

Definition count_entry (st : detection_stats) : detection_stats :=
  {| total_detections := total_detections st;
     successful_entries := successful_entries st + 1;
     successful_exits := successful_exits st;
     failed_detections := failed_detections st;
     last_reset := last_reset st |}.

Definition count_exit (st : detection_stats) : detection_stats :=
  {| total_detections := total_detections st;
     successful_entries := successful_entries st;
     successful_exits := successful_exits st + 1;
     failed_detections := failed_detections st;
     last_reset := last_reset st |}.

(** The key [f"{detection_type}_{license_plate}"]. *)
Definition rate_key (detection_type license_plate : string) : string :=
  (detection_type ++ "_" ++ license_plate)%string.

(** [_is_rate_limited] reads the clock twice: [t_check] is the reading
    compared with the last call, [t_store] the one stored.  The result is
    the answer and the service afterwards. *)
Definition _is_rate_limited (t_check t_store : Z)
           (detection_type license_plate : string) (s : CVParkingService)
  : bool * CVParkingService :=
  let key := rate_key detection_type license_plate in
  let last_call := last_api_call s !! key in
  match last_call with
  | Some last =>
      if t_check - last <? api_cooldown s then (true, s)
      else (false, set_last_api_call key t_store s)
  | None => (false, set_last_api_call key t_store s)
  end.

(** [not license_plate]: the plate is [None] or the empty string. *)
Definition no_plate (p : option string) : bool :=
  match p with
  | None => true
  | Some p => String.eqb p ""
  end.

Definition plate_of (d : detection_data) : string :=
  match license_plate d with Some p => p | None => "" end.

Definition _handle_entry_detection (loop_running : bool) (t_check t_store : Z)
           (d : detection_data) (s : CVParkingService) : CVParkingService :=
  if no_plate (license_plate d) then s
  else
    let '(limited, s) := _is_rate_limited t_check t_store "entry" (plate_of d) s in
    if limited then s
    else
      let plate_confidence :=
        match plate_confidence d with Some c => c | None => 0%Q end in
      if Py.Qltb plate_confidence (plate_confidence_threshold (config s))
      then set_stats (count_failed (stats s)) s
      else create_task loop_running (call_entry_api d) s.

Definition _handle_exit_detection (loop_running : bool) (t_check t_store : Z)
           (d : detection_data) (s : CVParkingService) : CVParkingService :=
  if no_plate (license_plate d) then s
  else
    let '(limited, s) := _is_rate_limited t_check t_store "exit" (plate_of d) s in
    if limited then s
    else create_task loop_running (call_exit_api d) s.

Definition _handle_occupancy_detection (d : detection_data)
           (s : CVParkingService) : CVParkingService := s.

(** The completion of a backend call: [Some status] is the HTTP status of
    the response, [None] an exception of the client. *)
Definition _call_entry_api (response : option Z) (s : CVParkingService) :=
  match response with
  | Some status =>
      if status =? 201 then set_stats (count_entry (stats s)) s
      else set_stats (count_failed (stats s)) s
  | None => set_stats (count_failed (stats s)) s
  end.

Definition _call_exit_api (response : option Z) (s : CVParkingService) :=
  match response with
  | Some status =>
      if status =? 200 then set_stats (count_exit (stats s)) s
      else set_stats (count_failed (stats s)) s
  | None => set_stats (count_failed (stats s)) s
  end.

Definition reset_statistics (now : Z) (s : CVParkingService) :=
  set_stats (fresh_stats now) s.

(** The two gate kinds, for statements that hold of both handlers. *)
Inductive gate := ENTRY | EXIT.

Definition detection_type (g : gate) : string :=
  match g with ENTRY => "entry" | EXIT => "exit" end.

Definition handle (g : gate) :=
  match g with
  | ENTRY => _handle_entry_detection
  | EXIT => _handle_exit_detection
  end.

Definition task_of (g : gate) (d : detection_data) : api_task :=
  match g with ENTRY => call_entry_api d | EXIT => call_exit_api d end.

End CvService.

(** ** parking-cv-service: src/models/plate_ocr.py *)

Module PlateOCR.
Import PyText.

(** One EasyOCR detection: its polygon, its text and its confidence. *)
Definition polygon := list (Z * Z).
Definition ocr_result : Type := polygon * text * Q.

Definition clean_plate_text (t : text) : text :=
  re_sub_delete_not (fun c => upper_AZ c || digit_09 c) (upper t).

(** [bool(x)] of an [Optional[str]]. *)
Definition truthy (r : option text) : bool :=
  match r with
  | Some (_ :: _) => true
  | _ => false
  end.

Definition validate_plate_format (t : text) (pattern : option pattern) : bool :=
  if is_empty t then false
  else if negb ((4 <=? length t)%nat && (length t <=? 8)%nat) then false
  else
    match pattern with
    | Some p => re_match p t
    | None =>
        let has_digit := any isdigit t in
        let has_letter := any isalpha t in
        has_digit && has_letter
    end.

Section Reader.
(** The image type and the calls that leave the repository:
    [reader.readtext] (EasyOCR), the OpenCV pipeline of
    [preprocess_plate], and [cv2.convertScaleAbs].  [None] stands for an
    exception, which [read_text] catches.  The reader is loaded: the
    constructor raises when it cannot load one. *)
Variable image : Type.
Variable readtext : image -> option (list ocr_result).
Variable preprocess_plate : image -> option image.
Variable convertScaleAbs : image -> Q -> Z -> image.

(** [self.confidence_threshold]. *)
Variable confidence_threshold : Q.

Definition read_text (plate_image : image) (preprocess : bool) : option text :=
  let processed_image :=
    if preprocess then preprocess_plate plate_image else Some plate_image in
  match processed_image with
  | None => None
  | Some processed_image =>
      match readtext processed_image with
      | None => None
      | Some results =>
          match results with
          | [] => None
          | _ :: _ =>
              let valid_results :=
                map (fun '(bbox, t, conf) => (t, conf))
                    (List.filter (fun '(bbox, t, conf) =>
                               negb (Py.Qltb conf confidence_threshold))
                            results) in
              match Py.max_by Py.Qltb snd valid_results with
              | None => None
              | Some (best_text, best_conf) =>
                  Some (clean_plate_text best_text)
              end
          end
      end
  end.

(** The list [attempts] just before the selection. *)
Definition collect_attempts (plate_image : image) : list text :=
  let attempts := [] in
  let result1 := read_text plate_image true in
  let attempts :=
    if truthy result1 then attempts ++ [default [] result1] else attempts in
  let result2 := read_text plate_image false in
  let attempts :=
    if truthy result2 then attempts ++ [default [] result2] else attempts in
  let enhanced := convertScaleAbs plate_image (3 # 2) 0 in
  let result3 := read_text enhanced true in
  let attempts :=
    if truthy result3 then attempts ++ [default [] result3] else attempts in
  attempts.

Definition read_with_multiple_attempts (plate_image : image) : option text :=
  let attempts := collect_attempts plate_image in
  if Py.is_empty_list attempts then None
  else Py.max_by Nat.ltb (@length ascii) attempts.
End Reader.

End PlateOCR.

(** ** parking-cv-service: src/pipelines/entry_pipeline.py *)

Module EntryPipeline.
Import PyText.

Definition bbox : Type := Z * Z * Z * Z.       (* [x1, y1, x2, y2] *)

(** A detection of [VehicleDetector.detect] and one of
    [PlateDetector.detect]. *)
Record vehicle := {
  vehicle_bbox : bbox;
  vehicle_confidence : Q;
  class_id : Z;
  class_name : string }.

Record plate := {
  plate_bbox : bbox;
  plate_confidence : Q }.

(** [VehicleDetector._bbox_area] and [get_largest_vehicle],
    [PlateDetector.get_best_plate]. *)
Definition _bbox_area (b : bbox) : Z :=
  let '(x1, y1, x2, y2) := b in (x2 - x1) * (y2 - y1).

Definition get_largest_vehicle (detections : list vehicle) : option vehicle :=
  Py.max_by Z.ltb (fun d => _bbox_area (vehicle_bbox d)) detections.

Definition get_best_plate (detections : list plate) : option plate :=
  Py.max_by Py.Qltb plate_confidence detections.

(** The fields of [Config] the pipeline reads while it runs. *)
Record Config := {
  OCR_CONFIDENCE_THRESHOLD : Q;
  FRAME_SKIP : Z }.

(** What [BackendClient.register_entry] did: it returned the response, or
    it raised. *)
Inductive backend_outcome :=
| responded (data : string)
| failed (error : string).

(** [timedelta.seconds]: the seconds field of the normalised
    (days, seconds, microseconds) triple, between 0 and 86399. *)
Definition timedelta_seconds (delta : Z) : Z :=
  (delta mod (86400 * 1000000)) / 1000000.

Section Pipeline.
Variable image : Type.
(** The models and OpenCV, as in [PlateOCR]. *)
Variable detect_vehicles : image -> list vehicle.
Variable detect_in_roi : image -> bbox -> list plate.
Variable crop_plate : image -> bbox -> image.
Variable readtext : image -> option (list PlateOCR.ocr_result).
Variable preprocess_plate : image -> option image.
Variable convertScaleAbs : image -> Q -> Z -> image.

Record result := {
  plate_number : text;
  vehicle_type : string;
  result_vehicle_confidence : Q;
  result_plate_confidence : Q;
  timestamp : Z;
  frame : image;
  result_vehicle_bbox : bbox;
  result_plate_bbox : bbox;
  plate_image : image;
  backend : backend_outcome }.

Record EntryPipeline := {
  config : Config;
  frame_count : Z;
  last_processed_plate : option text;
  last_processed_time : option Z }.

Definition init (config : Config) : EntryPipeline :=
  {| config := config; frame_count := 0;
     last_processed_plate := None; last_processed_time := None |}.

(** [process_frame] returns a result, returns [None], or raises (the
    [ZeroDivisionError] of [% FRAME_SKIP]). *)
Inductive outcome :=
| Returned (r : option result)
| Raised.

(** Steps 1 to 3 and the format check (lines 66 to 99): the vehicle,
    the plate, the plate crop and the validated text of a frame. *)
Definition read_frame (p : EntryPipeline) (frame : image)
  : option (vehicle * plate * image * text) :=
  match get_largest_vehicle (detect_vehicles frame) with
  | None => None
  | Some vehicle =>
      match get_best_plate (detect_in_roi frame (vehicle_bbox vehicle)) with
      | None => None
      | Some plate =>
          let plate_image := crop_plate frame (plate_bbox plate) in
          let plate_text :=
            PlateOCR.read_with_multiple_attempts
              image readtext preprocess_plate convertScaleAbs
              (OCR_CONFIDENCE_THRESHOLD (config p)) plate_image in
          if PlateOCR.truthy plate_text
             && PlateOCR.validate_plate_format (default [] plate_text) None
          then Some (vehicle, plate, plate_image, default [] plate_text)
          else None
      end
  end.

(** The duplicate test of lines 103 to 105. *)
Definition is_duplicate (p : EntryPipeline) (plate_text : text)
           (current_time : Z) : bool :=
  bool_decide (last_processed_plate p = Some plate_text)
  && match last_processed_time p with
     | Some last => timedelta_seconds (current_time - last) <? 10
     | None => false
     end.

Definition count_frame (p : EntryPipeline) : EntryPipeline :=
  {| config := config p; frame_count := frame_count p + 1;
     last_processed_plate := last_processed_plate p;
     last_processed_time := last_processed_time p |}.

Definition remember (plate_text : text) (current_time : Z)
           (p : EntryPipeline) : EntryPipeline :=
  {| config := config p; frame_count := frame_count p;
     last_processed_plate := Some plate_text;
     last_processed_time := Some current_time |}.

(** [current_time] is the reading of [datetime.now()] and [response]
    what the backend call does, should the frame get that far. *)
Definition process_frame (current_time : Z) (response : backend_outcome)
           (frame : image) (p : EntryPipeline) : outcome * EntryPipeline :=
  let p := count_frame p in
  if FRAME_SKIP (config p) =? 0 then (Raised, p)
  else if negb (frame_count p mod FRAME_SKIP (config p) =? 0)
  then (Returned None, p)
  else
    match read_frame p frame with
    | None => (Returned None, p)
    | Some (vehicle, plate, plate_image, plate_text) =>
        if is_duplicate p plate_text current_time
        then (Returned None, p)
        else
          let p := remember plate_text current_time p in
          (Returned (Some
             {| plate_number := plate_text;
                vehicle_type := class_name vehicle;
                result_vehicle_confidence := vehicle_confidence vehicle;
                result_plate_confidence := plate_confidence plate;
                timestamp := current_time;
                frame := frame;
                result_vehicle_bbox := vehicle_bbox vehicle;
                result_plate_bbox := plate_bbox plate;
                plate_image := plate_image;
                backend := response |}), p)
    end.
End Pipeline.

End EntryPipeline.

(** ** app/cv/camera_manager.py *)

Module CameraManager.

Record CameraStream := {
  camera_id : Z;
  camera_code : string;
  rtsp_url : string;
  role : string;                 (* ENTRY, EXIT, INDOOR *)
  floor_id : option Z;
  is_active : bool;
  fps : Z }.

Section Worker.
Variable frame : Type.

(** What [cap.read()] does: a frame, [ret] false, or an exception. *)
Inductive read_outcome :=
| read_frame (f : frame)
| read_failed
| read_raised.

(** What one pass of the loop meets: the stop flag, the clock, the
    capture and whether [_process_frame] raises on the frame.  The
    camera is taken to be registered, so [frame_counts] has its key. *)
Record pass := {
  stop_set : bool;
  current_time : Q;
  read : read_outcome;
  processing_raises : bool }.

(** What the worker does, in order. *)
Inductive action :=
| sleep (seconds : Q)
| log_warning
| log_error
| process (f : frame).

Record worker := {
  last_frame_time : Q;
  frames_counted : Z;
  passes : nat;
  trace : list action }.

Definition emit (acts : list action) (w : worker) : worker :=
  {| last_frame_time := last_frame_time w;
     frames_counted := frames_counted w;
     passes := passes w;
     trace := trace w ++ acts |}.

Definition take_frame (now : Q) (w : worker) : worker :=
  {| last_frame_time := now;
     frames_counted := frames_counted w + 1;
     passes := passes w;
     trace := trace w |}.

Definition count_pass (w : worker) : worker :=
  {| last_frame_time := last_frame_time w;
     frames_counted := frames_counted w;
     passes := S (passes w);
     trace := trace w |}.

(** The body of the [while] loop: the [try] block and its handler. *)
Definition loop_body (frame_interval : Q) (e : pass) (w : worker) : worker :=
  let w := count_pass w in
  if Py.Qltb (current_time e - last_frame_time w) frame_interval
  then emit [sleep (1 # 1000)] w
  else
    match read e with
    | read_raised => emit [log_error; sleep 1] w
    | read_failed => emit [log_warning] w
    | read_frame f =>
        let w := take_frame (current_time e) w in
        if processing_raises e
        then emit [log_error; sleep 1] w
        else emit [process f; sleep (1 # 100)] w
    end.

(** The loop over the passes the environment offers: [true] when the
    loop has left (the stop flag was set), [false] when it is still
    running after the last pass. *)
Fixpoint loop (frame_interval : Q) (es : list pass) (w : worker)
  : bool * worker :=
  match es with
  | [] => (false, w)
  | e :: es' =>
      if stop_set e then (true, w)
      else loop frame_interval es' (loop_body frame_interval e w)
  end.

Definition start : worker :=
  {| last_frame_time := 0; frames_counted := 0; passes := 0; trace := [] |}.

(** [_process_camera_stream]; [None] is the [ZeroDivisionError] of
    [1.0 / target_fps], raised before the loop. *)
Definition _process_camera_stream (camera_stream : CameraStream)
           (es : list pass) : option (bool * worker) :=
  let target_fps := fps camera_stream in
  if target_fps =? 0 then None
  else
    let frame_interval := (1 / inject_Z target_fps)%Q in
    Some (loop frame_interval es start).
End Worker.

End CameraManager.

(** ** app/cv/slot_detector.py: tracking and the layout file *)

Module SlotTracking.
Import SlotDetector.

(** A line [_track_status_change] writes to the log. *)
Record status_change := {
  changed_slot : Z;
  was_occupied : bool;
  now_occupied : bool;
  logged_confidence : Q }.

Definition set_previous (status : SlotStatus) (d : SlotOccupancyDetector)
  : SlotOccupancyDetector :=
  {| motion_threshold := motion_threshold d;
     occupancy_threshold := occupancy_threshold d;
     camera_rois := camera_rois d;
     bg_subtractors := bg_subtractors d;
     previous_statuses := <[status_slot_id status := status]> (previous_statuses d) |}.

Definition _track_status_change (status : SlotStatus)
           (acc : SlotOccupancyDetector * list status_change)
  : SlotOccupancyDetector * list status_change :=
  let '(d, log) := acc in
  let slot_id := status_slot_id status in
  let log :=
    match previous_statuses d !! slot_id with
    | Some prev_status =>
        if negb (Bool.eqb (is_occupied prev_status) (is_occupied status))
        then log ++ [{| changed_slot := slot_id;
                        was_occupied := is_occupied prev_status;
                        now_occupied := is_occupied status;
                        logged_confidence := confidence status |}]
        else log
    | None => log
    end in
  (set_previous status d, log).

(** [np.zeros(frame.shape[:2])]. *)
Definition zeros (frame : image) : gray := map (map (fun _ => 0)) frame.

(** [subtracted] is what the subtractor of the camera and the two
    [morphologyEx] calls make of the frame in this call.  The subtractor
    learns from every frame it is applied to: its background model is
    state of the OpenCV object, outside the detector record, and what it
    answers is an input here, call by call. *)
Definition _apply_background_subtraction (subtracted : gray) (camera_id : Z)
           (frame : image) (d : SlotOccupancyDetector) : gray :=
  if bool_decide (camera_id ∈ bg_subtractors d) then subtracted else zeros frame.

Section Detect.
Variable cvtColor_BGR2GRAY : image -> gray.
Variable Canny : gray -> Z -> Z -> gray.

(** The body of the loop over the regions of the camera; [clock i] is
    the reading of [datetime.now()] at the region of index [i]. *)
Definition check_and_track (clock : Z -> Z) (frame : image) (bg_mask : gray)
           (acc : list SlotStatus * SlotOccupancyDetector * list status_change)
           (entry : Z * SlotROI)
  : list SlotStatus * SlotOccupancyDetector * list status_change :=
  let '(slot_statuses, d, log) := acc in
  let '(i, slot_roi) := entry in
  let status :=
    _check_slot_occupancy cvtColor_BGR2GRAY Canny d (clock i) frame bg_mask slot_roi in
  let slot_statuses := slot_statuses ++ [status] in
  let '(d, log) := _track_status_change status (d, log) in
  (slot_statuses, d, log).

(** [detect_slot_occupancy]: the statuses returned, the detector
    afterwards and the lines logged. *)
Definition detect_slot_occupancy (clock : Z -> Z) (subtracted : gray)
           (camera_id : Z) (frame : image) (d : SlotOccupancyDetector)
  : list SlotStatus * SlotOccupancyDetector * list status_change :=
  match camera_rois d !! camera_id with
  | None => ([], d, [])
  | Some rois =>
      let bg_mask := _apply_background_subtraction subtracted camera_id frame d in
      fold_left (check_and_track clock frame bg_mask) (Py.enumerate rois) ([], d, [])
  end.
End Detect.

(** *** The layout file *)

(** What [json.load] hands over, as far as [load_roi_config] reads it.  A
    slot or camera entry that lacks a key, or is no object, makes the
    loader raise where it reads it. *)
Record slot_data := {
  data_slot_id : Z;
  data_slot_code : string;
  data_coordinates : Z * Z * Z * Z;
  data_vehicle_type : string }.

Inductive slot_json :=
| slot_object (s : slot_data)
| slot_malformed.

Inductive camera_json :=
| camera_object (camera_id : Z) (slots : list slot_json)
| camera_malformed.

(** The file: [None] when opening or parsing it raises, else the value of
    its key [cameras], [None] when the key is missing. *)
Definition roi_file : Type := option (option (list camera_json)).

Definition set_camera_rois (rois : gmap Z (list SlotROI))
           (d : SlotOccupancyDetector) : SlotOccupancyDetector :=
  {| motion_threshold := motion_threshold d;
     occupancy_threshold := occupancy_threshold d;
     camera_rois := rois;
     bg_subtractors := bg_subtractors d;
     previous_statuses := previous_statuses d |}.

(** The inner loop; [None] is the exception of a malformed entry. *)
Fixpoint load_slots (camera_id : Z) (slots : list slot_json)
  : option (list SlotROI) :=
  match slots with
  | [] => Some []
  | slot_malformed :: _ => None
  | slot_object s :: slots' =>
      match load_slots camera_id slots' with
      | None => None
      | Some rois =>
          Some ({| slot_id := data_slot_id s;
                   slot_code := data_slot_code s;
                   coordinates := data_coordinates s;
                   vehicle_type := data_vehicle_type s;
                   camera_id := camera_id |} :: rois)
      end
  end.

(** The outer loop, which the first exception leaves. *)
Fixpoint load_cameras (cameras : list camera_json)
         (rois : gmap Z (list SlotROI)) : gmap Z (list SlotROI) :=
  match cameras with
  | [] => rois
  | camera_malformed :: _ => rois
  | camera_object camera_id slots :: cameras' =>
      match load_slots camera_id slots with
      | None => rois
      | Some l => load_cameras cameras' (<[camera_id := l]> rois)
      end
  end.

Definition load_roi_config (file : roi_file) (d : SlotOccupancyDetector)
  : SlotOccupancyDetector :=
  match file with
  | None => d
  | Some config =>
      let d := set_camera_rois ∅ d in
      match config with
      | None => d
      | Some cameras => set_camera_rois (load_cameras cameras ∅) d
      end
  end.

(** [save_roi_config], when the file can be written: the value dumped
    under [cameras].  The cameras come in the order of the dict. *)
Definition save_roi_config (d : SlotOccupancyDetector) : list camera_json :=
  map (fun '(camera_id, rois) =>
         camera_object camera_id
           (map (fun roi =>
                   slot_object {| data_slot_id := slot_id roi;
                                  data_slot_code := slot_code roi;
                                  data_coordinates := coordinates roi;
                                  data_vehicle_type := vehicle_type roi |})
                rois))
      (map_to_list (camera_rois d)).

End SlotTracking.

(** ** app/cv/anpr.py: the recognizer *)

Module AnprDetect.
Import PyText Anpr.

Definition rect : Type := Z * Z * Z * Z.          (* (x, y, width, height) *)

(** A candidate of [_find_best_plate]: (text, confidence, bbox). *)
Definition candidate : Type := text * Q * rect.

(** [min(l)] and [max(l)]; [None] is the [ValueError] on an empty list. *)
Definition min_list (l : list Z) : option Z :=
  match l with
  | [] => None
  | x :: l' => Some (fold_left Z.min l' x)
  end.

Definition max_list (l : list Z) : option Z :=
  match l with
  | [] => None
  | x :: l' => Some (fold_left Z.max l' x)
  end.

(** The conversion of a polygon to (x, y, w, h). *)
Definition bbox_of (bbox : PlateOCR.polygon) : option rect :=
  let x_coords := map fst bbox in
  let y_coords := map snd bbox in
  match min_list x_coords, min_list y_coords,
        max_list x_coords, max_list y_coords with
  | Some min_x, Some min_y, Some max_x, Some max_y =>
      Some (min_x, min_y, max_x - min_x, max_y - min_y)
  | _, _, _, _ => None
  end.

(** The loop that collects the candidates; [None] when it raises. *)
Fixpoint collect (ocr_results : list PlateOCR.ocr_result)
         (candidates : list candidate) : option (list candidate) :=
  match ocr_results with
  | [] => Some candidates
  | (bbox, text, confidence) :: rest =>
      if Py.Qltb (1 # 2) confidence
      then match bbox_of bbox with
           | Some b => collect rest (candidates ++ [(text, confidence, b)])
           | None => None
           end
      else collect rest candidates
  end.

(** [candidates.sort(key=lambda x: x[1], reverse=True)]: a stable sort,
    candidates of equal confidence keep their order. *)
Fixpoint insert_desc (c : candidate) (l : list candidate) : list candidate :=
  match l with
  | [] => [c]
  | d :: l' =>
      if Py.Qltb (snd (fst c)) (snd (fst d)) then d :: insert_desc c l'
      else c :: l
  end.

Definition sort_desc (l : list candidate) : list candidate :=
  fold_right insert_desc [] l.

(** [_find_best_plate]: [None] when it raises, [Some None] when it
    returns [None]. *)
Definition _find_best_plate (ocr_results : list PlateOCR.ocr_result)
  : option (option candidate) :=
  if Py.is_empty_list ocr_results then Some None
  else
    match collect ocr_results [] with
    | None => None
    | Some candidates =>
        if Py.is_empty_list candidates then Some None
        else Some (hd_error (sort_desc candidates))
    end.

Record PlateDetection := {
  plate_text : text;
  confidence : Q;
  bbox : rect;
  preprocessed_text : text;
  timestamp : Z }.

(** [frame.shape[0]] and [frame.shape[1]] of a frame that has rows. *)
Definition shape0 (frame : SlotDetector.image) : Z := Z.of_nat (length frame).
Definition shape1 (frame : SlotDetector.image) : Z :=
  Z.of_nat (length (hd [] frame)).

(** The region [extract_plate_from_vehicle] cuts out of the frame. *)
Definition vehicle_region (frame : SlotDetector.image) (vehicle_bbox : rect)
  : SlotDetector.image :=
  let '(x, y, w, h) := vehicle_bbox in
  let padding := 20 in
  let x1 := Z.max 0 (x - padding) in
  let y1 := Z.max 0 (y - padding) in
  let x2 := Z.min (shape1 frame) (x + w + padding) in
  let y2 := Z.min (shape0 frame) (y + h + padding) in
  map (Py.slice x1 x2) (Py.slice y1 y2 frame).

Section Recognizer.
(** The OpenCV pipeline of [_preprocess_image] and [reader.readtext];
    [None] is an exception, which [detect_plate] catches and logs. *)
Variable _preprocess_image : SlotDetector.image -> option SlotDetector.gray.
Variable readtext : SlotDetector.gray -> option (list PlateOCR.ocr_result).

Definition detect_plate (reader_loaded : bool) (now : Z)
           (vehicle_roi : SlotDetector.image) : option PlateDetection :=
  if negb reader_loaded then None
  else
    match _preprocess_image vehicle_roi with
    | None => None
    | Some processed_roi =>
        match readtext processed_roi with
        | None => None
        | Some results =>
            match _find_best_plate results with
            | None => None
            | Some None => None
            | Some (Some (plate_text, confidence, bbox)) =>
                let cleaned_text := _clean_plate_text plate_text in
                if _validate_plate_text cleaned_text
                then Some {| plate_text := plate_text;
                             confidence := confidence;
                             bbox := bbox;
                             preprocessed_text := cleaned_text;
                             timestamp := now |}
                else None
            end
        end
    end.

Definition extract_plate_from_vehicle (reader_loaded : bool) (now : Z)
           (frame : SlotDetector.image) (vehicle_bbox : rect)
  : option PlateDetection :=
  let vehicle_roi := vehicle_region frame vehicle_bbox in
  if SlotDetector.size3 vehicle_roi =? 0 then None
  else detect_plate reader_loaded now vehicle_roi.
End Recognizer.

End AnprDetect.

(** ** parking-cv-service: src/models/plate_detector.py *)

Module PlateDetector.
Import EntryPipeline.

(** [image[y1:y2, x1:x2]]. *)
Definition region (y1 y2 x1 x2 : Z) (image : SlotDetector.image)
  : SlotDetector.image :=
  map (Py.slice x1 x2) (Py.slice y1 y2 image).

(** [image.shape[:2]]. *)
Definition shape (image : SlotDetector.image) : Z * Z :=
  (Z.of_nat (length image), Z.of_nat (length (hd [] image))).

Section Detector.
(** [detect]: the model's boxes, in the coordinates of the image it is
    given; the empty list when the model raises. *)
Variable detect : SlotDetector.image -> list plate.

Definition detect_in_roi (image : SlotDetector.image) (roi_bbox : bbox)
  : list plate :=
  let '(x1, y1, x2, y2) := roi_bbox in
  let roi := region y1 y2 x1 x2 image in
  let detections := detect roi in
  map (fun det =>
         let '(a, b, c, d) := plate_bbox det in
         {| plate_bbox := (a + x1, b + y1, c + x1, d + y1);
            plate_confidence := plate_confidence det |})
      detections.
End Detector.

Definition crop_plate (image : SlotDetector.image) (bbox : bbox) (padding : Z)
  : SlotDetector.image :=
  let '(h, w) := shape image in
  let '(x1, y1, x2, y2) := bbox in
  let x1 := Z.max 0 (x1 - padding) in
  let y1 := Z.max 0 (y1 - padding) in
  let x2 := Z.min w (x2 + padding) in
  let y2 := Z.min h (y2 + padding) in
  region y1 y2 x1 x2 image.

End PlateDetector.

(** ** app/cv/detector.py *)

Module Detector.
Import PyText.

(** [str.lower] on one character of Latin-1: the capitals A..Z and the
    accented ones (192..222 without the multiplication sign 215) have
    their small letter 32 places above. *)
Definition lower_char (c : ascii) : ascii :=
  if upper_AZ c || (in_range 192 222 c && negb (is_code 215 c))
  then ascii_of_N (code c + 32)
  else c.

Definition lower (s : text) : text := map lower_char s.

(** [needle in haystack] for two [str]. *)
Fixpoint starts_with (needle haystack : text) : bool :=
  match needle, haystack with
  | [], _ => true
  | _ :: _, [] => false
  | a :: needle', b :: haystack' => Ascii.eqb a b && starts_with needle' haystack'
  end.

Fixpoint contains (needle haystack : text) : bool :=
  starts_with needle haystack
  || match haystack with
     | [] => false
     | _ :: haystack' => contains needle haystack'
     end.

(** [self.vehicle_classes], in the order of the dict. *)
Definition vehicle_classes : list (string * list text) :=
  [ ("car"%string, [txt "car"; txt "truck"; txt "van"; txt "suv"]);
    ("bike"%string, [txt "motorcycle"; txt "bicycle"; txt "scooter"]) ].

Definition _classify_vehicle_type (yolo_class : text) : option string :=
  let yolo_class := lower yolo_class in
  match find (fun entry => existsb (fun cls => contains cls yolo_class) (snd entry))
             vehicle_classes with
  | Some (vehicle_type, _) =>
      Some (if String.eqb vehicle_type "car" then "CAR" else "BIKE")%string
  | None => None
  end.

Record Detection := {
  class_name : string;
  confidence : Q;
  bbox : Z * Z * Z * Z;              (* (x, y, width, height) *)
  center_point : Z * Z;
  timestamp : Z }.

(** A box of the model: the name of its class, its confidence and its
    corners (x1, y1, x2, y2). *)
Record yolo_box := {
  box_class : text;
  box_conf : Q;
  box_xyxy : Q * Q * Q * Q }.

(** [int(x)] of a float: the integer part, towards zero. *)
Definition py_int (q : Q) : Z := if Qle_bool 0 q then Qfloor q else Qceiling q.

(** The body of the loop over the boxes: the detection a box gives, if
    its class is one of a vehicle. *)
Definition detection_of (now : Z) (box : yolo_box) : option Detection :=
  let '(x1, y1, x2, y2) := box_xyxy box in
  match _classify_vehicle_type (box_class box) with
  | Some vehicle_type =>
      let bbox := (py_int x1, py_int y1, py_int (x2 - x1), py_int (y2 - y1)) in
      let center := (py_int ((x1 + x2) / 2), py_int ((y1 + y2) / 2)) in
      Some {| class_name := vehicle_type;
              confidence := box_conf box;
              bbox := bbox;
              center_point := center;
              timestamp := now |}
  | None => None
  end.

Section Model.
(** The inference of the model on a frame; [None] when it raises. *)
Variable image : Type.
Variable infer : image -> option (list yolo_box).

(** [clock i] is the reading of [datetime.now()] at the box of index [i]. *)
Definition detect_vehicles (model_loaded : bool) (clock : Z -> Z) (frame : image)
  : list Detection :=
  if negb model_loaded then []
  else
    match infer frame with
    | None => []
    | Some boxes =>
        flat_map (fun '(i, box) =>
                    match detection_of (clock i) box with
                    | Some detection => [detection]
                    | None => []
                    end)
                 (Py.enumerate boxes)
    end.
End Model.

Definition is_vehicle_in_zone (detection : Detection) (zone_coords : Z * Z * Z * Z)
  : bool :=
  let '(zone_x, zone_y, zone_w, zone_h) := zone_coords in
  let '(vehicle_center_x, vehicle_center_y) := center_point detection in
  (zone_x <=? vehicle_center_x) && (vehicle_center_x <=? zone_x + zone_w)
  && (zone_y <=? vehicle_center_y) && (vehicle_center_y <=? zone_y + zone_h).

End Detector.

(** ** app/cv/camera_manager.py and app/cv/cv_service.py: a frame of a
    camera, from the worker to the handlers *)

Module CameraDispatch.
Import PyText Detector AnprDetect.

(** The dict a handler of the manager hands to its callback. *)
Definition detection_data_of (camera_id : Z) (vehicle : Detection)
           (plate : option PlateDetection) : CvService.detection_data :=
  {| CvService.camera_id := Some camera_id;
     CvService.vehicle_type := Detector.class_name vehicle;
     CvService.confidence := Detector.confidence vehicle;
     CvService.license_plate :=
       match plate with
       | Some p => Some (string_of_list_ascii (preprocessed_text p))
       | None => None
       end;
     CvService.plate_confidence :=
       Some (match plate with
             | Some p => AnprDetect.confidence p
             | None => 0%Q
             end);
     CvService.timestamp := Detector.timestamp vehicle |}.

(** One reading of each clock a detection meets on its way. *)
Record clocks := {
  plate_clock : Z;                   (* [datetime.now()] in [detect_plate] *)
  check_clock : Z;                   (* the two of [_is_rate_limited] *)
  store_clock : Z }.

Section Dispatch.
Variable infer : SlotDetector.image -> option (list yolo_box).
Variable _preprocess_image : SlotDetector.image -> option SlotDetector.gray.
Variable readtext : SlotDetector.gray -> option (list PlateOCR.ocr_result).

(** [CameraManager._process_frame] with the callbacks
    [CVParkingService._setup_callbacks] installs.  It runs on the worker
    thread of the camera, which runs no event loop: the handlers meet
    [asyncio.create_task] with no loop running. *)
Definition _process_frame (camera_stream : CameraManager.CameraStream)
           (model_loaded reader_loaded : bool)
           (clock : Z -> Z) (at_detection : Z -> clocks)
           (frame : SlotDetector.image) (s : CvService.CVParkingService)
  : CvService.CVParkingService :=
  let detections := detect_vehicles SlotDetector.image infer model_loaded clock frame in
  fold_left
    (fun s '(i, detection) =>
       let c := at_detection i in
       let plate_detection :=
         extract_plate_from_vehicle _preprocess_image readtext reader_loaded
                                    (plate_clock c) frame (Detector.bbox detection) in
       let d := detection_data_of (CameraManager.camera_id camera_stream)
                                  detection plate_detection in
       if String.eqb (CameraManager.role camera_stream) "ENTRY"
       then CvService._handle_entry_detection false (check_clock c) (store_clock c) d s
       else if String.eqb (CameraManager.role camera_stream) "EXIT"
       then CvService._handle_exit_detection false (check_clock c) (store_clock c) d s
       else if String.eqb (CameraManager.role camera_stream) "INDOOR"
       then CvService._handle_occupancy_detection d s
       else s)
    (Py.enumerate detections) s.
End Dispatch.

End CameraDispatch.

(** ** app/cv/camera_manager.py: cameras, captures, threads and stop flags *)

Module CameraLifecycle.
Import CameraManager.

(** A worker thread, with the arguments it was started with. *)
Record worker_thread := {
  thread_camera : Z;
  thread_capture : nat;
  thread_stop_flag : nat }.

(** The manager and the objects its tables point to.  A capture, a stop
    flag and a thread are objects: the tables hold their identities, the
    last four fields say which threads were started, which flags are set,
    which captures are released and which identity is the next. *)
Record manager := {
  cameras : gmap Z CameraStream;
  capture_objects : gmap Z nat;
  processing_threads : gmap Z nat;
  stop_flags : gmap Z nat;
  detection_queues : gset Z;
  frame_counts : gmap Z Z;
  is_running : bool;
  threads : gmap nat worker_thread;
  flags_set : gset nat;
  released : gset nat;
  next_object : nat }.

(** [CameraManager(vehicle_detector, plate_recognizer)]. *)
Definition init : manager :=
  {| cameras := ∅; capture_objects := ∅; processing_threads := ∅;
     stop_flags := ∅; detection_queues := ∅; frame_counts := ∅;
     is_running := false; threads := ∅; flags_set := ∅; released := ∅;
     next_object := 0 |}.

Definition add_camera (camera_stream : CameraStream) (m : manager) : manager :=
  let camera_id := camera_id camera_stream in
  {| cameras := <[camera_id := camera_stream]> (cameras m);
     capture_objects := capture_objects m;
     processing_threads := processing_threads m;
     stop_flags := stop_flags m;
     detection_queues := {[camera_id]} ∪ detection_queues m;
     frame_counts := <[camera_id := 0]> (frame_counts m);
     is_running := is_running m;
     threads := threads m; flags_set := flags_set m; released := released m;
     next_object := next_object m |}.

Definition stop_camera (camera_id : Z) (m : manager) : manager :=
  {| cameras := cameras m;
     capture_objects := delete camera_id (capture_objects m);
     processing_threads := delete camera_id (processing_threads m);
     stop_flags := delete camera_id (stop_flags m);
     detection_queues := detection_queues m;
     frame_counts := frame_counts m;
     is_running := is_running m;
     threads := threads m;
     flags_set :=
       match stop_flags m !! camera_id with
       | Some flag => {[flag]} ∪ flags_set m
       | None => flags_set m
       end;
     released :=
       match capture_objects m !! camera_id with
       | Some cap => {[cap]} ∪ released m
       | None => released m
       end;
     next_object := next_object m |}.

(** [remove_camera]; [None] is the [KeyError] of
    [del self.detection_queues[camera_id]]. *)
Definition remove_camera (camera_id : Z) (m : manager) : option manager :=
  match cameras m !! camera_id with
  | None => Some m
  | Some _ =>
      let m := stop_camera camera_id m in
      if bool_decide (camera_id ∈ detection_queues m)
      then Some {| cameras := delete camera_id (cameras m);
                   capture_objects := capture_objects m;
                   processing_threads := processing_threads m;
                   stop_flags := stop_flags m;
                   detection_queues := detection_queues m ∖ {[camera_id]};
                   frame_counts := delete camera_id (frame_counts m);
                   is_running := is_running m;
                   threads := threads m; flags_set := flags_set m;
                   released := released m; next_object := next_object m |}
      else None
  end.

(** What starting a camera comes to: [cv2.VideoCapture(...)] gives a
    capture that is open and the thread starts; the capture is not open;
    opening raises (in [int(rtsp_url)], say); or the capture is open and
    [thread.start()] raises, after the capture and the stop flag were
    put into the tables.  [start_camera] logs the exceptions. *)
Inductive open_outcome := opened | not_opened | open_raised | start_raised.

Definition start_camera (outcome : open_outcome) (camera_id : Z) (m : manager)
  : manager :=
  match cameras m !! camera_id with
  | None => m
  | Some camera_stream =>
      match outcome with
      | open_raised => m
      | not_opened => m
      | opened =>
          let cap := next_object m in
          let stop_flag := S (next_object m) in
          let thread := S (S (next_object m)) in
          {| cameras := cameras m;
             capture_objects := <[camera_id := cap]> (capture_objects m);
             processing_threads := <[camera_id := thread]> (processing_threads m);
             stop_flags := <[camera_id := stop_flag]> (stop_flags m);
             detection_queues := detection_queues m;
             frame_counts := frame_counts m;
             is_running := is_running m;
             threads := <[thread := {| thread_camera := camera_id;
                                       thread_capture := cap;
                                       thread_stop_flag := stop_flag |}]> (threads m);
             flags_set := flags_set m;
             released := released m;
             next_object := S (S (S (next_object m))) |}
      | start_raised =>
          let cap := next_object m in
          let stop_flag := S (next_object m) in
          {| cameras := cameras m;
             capture_objects := <[camera_id := cap]> (capture_objects m);
             processing_threads := processing_threads m;
             stop_flags := <[camera_id := stop_flag]> (stop_flags m);
             detection_queues := detection_queues m;
             frame_counts := frame_counts m;
             is_running := is_running m;
             threads := threads m;
             flags_set := flags_set m;
             released := released m;
             next_object := S (S (S (next_object m))) |}
      end
  end.

Definition set_running (b : bool) (m : manager) : manager :=
  {| cameras := cameras m; capture_objects := capture_objects m;
     processing_threads := processing_threads m; stop_flags := stop_flags m;
     detection_queues := detection_queues m; frame_counts := frame_counts m;
     is_running := b;
     threads := threads m; flags_set := flags_set m; released := released m;
     next_object := next_object m |}.

(** [start_all_cameras]; [outcomes] says what opening each camera comes
    to. *)
Definition start_all_cameras (outcomes : Z -> open_outcome) (m : manager)
  : manager :=
  let m := set_running true m in
  fold_left (fun m '(camera_id, camera_stream) =>
               if is_active camera_stream
               then start_camera (outcomes camera_id) camera_id m
               else m)
            (map_to_list (cameras m)) m.

Definition stop_all_cameras (m : manager) : manager :=
  let m := set_running false m in
  let camera_ids := map fst (map_to_list (cameras m)) in
  fold_left (fun m camera_id => stop_camera camera_id m) camera_ids m.

(** [self.frame_counts[camera_id] += 1] on a worker thread, whose
    [KeyError] the loop of the worker logs. *)
Definition count_frame (camera_id : Z) (m : manager) : manager :=
  match frame_counts m !! camera_id with
  | None => m
  | Some n =>
      {| cameras := cameras m; capture_objects := capture_objects m;
         processing_threads := processing_threads m; stop_flags := stop_flags m;
         detection_queues := detection_queues m;
         frame_counts := <[camera_id := n + 1]> (frame_counts m);
         is_running := is_running m;
         threads := threads m; flags_set := flags_set m; released := released m;
         next_object := next_object m |}
  end.

(** What can happen to a manager. *)
Inductive operation :=
| Add (camera_stream : CameraStream)
| Remove (camera_id : Z)
| Start (outcome : open_outcome) (camera_id : Z)
| Stop (camera_id : Z)
| StartAll (outcomes : Z -> open_outcome)
| StopAll
| Counted (camera_id : Z).

Definition step (m : manager) (o : operation) : option manager :=
  match o with
  | Add camera_stream => Some (add_camera camera_stream m)
  | Remove camera_id => remove_camera camera_id m
  | Start outcome camera_id => Some (start_camera outcome camera_id m)
  | Stop camera_id => Some (stop_camera camera_id m)
  | StartAll outcomes => Some (start_all_cameras outcomes m)
  | StopAll => Some (stop_all_cameras m)
  | Counted camera_id => Some (count_frame camera_id m)
  end.

Fixpoint run (ops : list operation) (m : manager) : option manager :=
  match ops with
  | [] => Some m
  | o :: ops' =>
      match step m o with
      | Some m' => run ops' m'
      | None => None
      end
  end.

End CameraLifecycle.

(** ** parking-cv-service: src/pipelines/indoor_pipeline.py *)

Module IndoorPipeline.
Import EntryPipeline.

(** A parking spot, [{'id': ..., 'bbox': [x1, y1, x2, y2]}]. *)
Record spot := {
  spot_id : string;
  spot_bbox : bbox }.

Record occupancy_change := {
  change_spot_id : string;
  occupied : bool;
  change_timestamp : Z }.

Record IndoorPipeline := {
  config : Config;
  parking_spots : list spot;
  spot_states : gmap string bool;
  frame_count : Z }.

(** [IndoorPipeline(config, parking_spots)]; [None] is the default. *)
Definition init (config : Config) (parking_spots : option (list spot))
  : IndoorPipeline :=
  {| config := config;
     parking_spots := match parking_spots with Some l => l | None => [] end;
     spot_states := ∅;
     frame_count := 0 |}.

Definition set_parking_spots (spots : list spot) (p : IndoorPipeline)
  : IndoorPipeline :=
  {| config := config p;
     parking_spots := spots;
     spot_states :=
       fold_left (fun m spot => <[spot_id spot := false]> m) spots ∅;
     frame_count := frame_count p |}.

Record result := {
  timestamp : Z;
  total_spots : Z;
  occupied_spots : Z;
  available_spots : Z;
  result_spot_states : gmap string bool;
  occupancy_changes : list occupancy_change;
  frame : SlotDetector.image;
  backend : option backend_outcome }.

Inductive outcome :=
| Returned (r : option result)
| Raised.

Section Pipeline.
(** [VehicleDetector.detect] of the cv service: the boxes of the model
    on the image it is given, the empty list when the model raises. *)
Variable detect : SlotDetector.image -> list vehicle.

Definition is_spot_occupied (frame : SlotDetector.image) (spot_bbox : bbox) : bool :=
  let '(x1, y1, x2, y2) := spot_bbox in
  let spot_roi := map (Py.slice x1 x2) (Py.slice y1 y2 frame) in
  let detections := detect spot_roi in
  existsb (fun det =>
             let det_area := _bbox_area (vehicle_bbox det) in
             let spot_area := (x2 - x1) * (y2 - y1) in
             Py.Qltb (inject_Z spot_area * (3 # 10)) (inject_Z det_area))
          detections.

(** The body of the loop over the spots: the changes so far, the states
    of this frame and the states the pipeline keeps.  [clock i] is the
    reading of [datetime.now()] at the spot of index [i]. *)
Definition check_spot (clock : Z -> Z) (frame : SlotDetector.image)
           (acc : list occupancy_change * gmap string bool * gmap string bool)
           (entry : Z * spot)
  : list occupancy_change * gmap string bool * gmap string bool :=
  let '(occupancy_changes, current_states, spot_states) := acc in
  let '(i, spot) := entry in
  let is_occupied := is_spot_occupied frame (spot_bbox spot) in
  let current_states := <[spot_id spot := is_occupied]> current_states in
  let previous_state := default false (spot_states !! spot_id spot) in
  if negb (Bool.eqb is_occupied previous_state)
  then (occupancy_changes ++ [{| change_spot_id := spot_id spot;
                                 occupied := is_occupied;
                                 change_timestamp := clock i |}],
        current_states,
        <[spot_id spot := is_occupied]> spot_states)
  else (occupancy_changes, current_states, spot_states).

(** [sum(current_states.values())]. *)
Definition count_true (m : gmap string bool) : Z :=
  map_fold (fun _ (b : bool) n => n + (if b then 1 else 0)) 0 m.

Definition count_frame (p : IndoorPipeline) : IndoorPipeline :=
  {| config := config p; parking_spots := parking_spots p;
     spot_states := spot_states p; frame_count := frame_count p + 1 |}.

Definition set_spot_states (m : gmap string bool) (p : IndoorPipeline)
  : IndoorPipeline :=
  {| config := config p; parking_spots := parking_spots p;
     spot_states := m; frame_count := frame_count p |}.

(** [now] is the clock reading the result carries and [response] what
    the backend call does, should there be one. *)
Definition process_frame (clock : Z -> Z) (now : Z) (response : backend_outcome)
           (frame : SlotDetector.image) (p : IndoorPipeline)
  : outcome * IndoorPipeline :=
  let p := count_frame p in
  if FRAME_SKIP (config p) =? 0 then (Raised, p)
  else if negb (frame_count p mod FRAME_SKIP (config p) =? 0)
  then (Returned None, p)
  else if Py.is_empty_list (parking_spots p) then (Returned None, p)
  else
    let '(occupancy_changes, current_states, spot_states) :=
      fold_left (check_spot clock frame) (Py.enumerate (parking_spots p))
                ([], ∅, spot_states p) in
    let p := set_spot_states spot_states p in
    let total := Z.of_nat (length (parking_spots p)) in
    (Returned (Some
       {| timestamp := now;
          total_spots := total;
          occupied_spots := count_true current_states;
          available_spots := total - count_true current_states;
          result_spot_states := current_states;
          occupancy_changes := occupancy_changes;
          frame := frame;
          backend :=
            if Py.is_empty_list occupancy_changes then None else Some response |}),
     p).
End Pipeline.

End IndoorPipeline.

(** * Properties *)

(** ** Anchored patterns *)

Module PyTextFacts.
Import PyText.

(** What it is for a text to match an anchored pattern: it splits into one
    segment for each item, of a length within the item's bounds and of
    characters of the item's class, followed by what [$] accepts. *)
Inductive matches : pattern -> text -> Prop :=
| matches_end (s : text) :
    at_dollar s = true -> matches [] s
| matches_item (i : re_item) (p : pattern) (w s : text) :
    Forall (fun c => cls i c = true) w ->
    (lo i <= length w <= hi i)%nat ->
    matches p s ->
    matches (i :: p) (w ++ s).

Lemma match_rep_spec (c : ascii -> bool) (k : text -> bool) (hi : nat) :
  forall (lo : nat) (s : text),
    match_rep c lo hi k s = true <->
    exists w s', s = w ++ s'
                 /\ Forall (fun a => c a = true) w
                 /\ (lo <= length w <= hi)%nat
                 /\ k s' = true.
Proof.
  induction hi as [|hi IH]; intros lo s; simpl.
  - split.
    + destruct lo; [|discriminate]. intros H.
      exists [], s. repeat split; auto.
    + intros (w & s' & -> & _ & [Hlo Hhi] & Hk).
      destruct w; [|simpl in Hhi; lia]. simpl in Hlo.
      destruct lo; [exact Hk | lia].
  - rewrite orb_true_iff. split.
    + intros [H | H].
      * destruct s as [|a s]; [discriminate|].
        apply andb_prop in H as [Ha H]. apply IH in H.
        destruct H as (w & s' & -> & Hw & [Hlo Hhi] & Hk).
        exists (a :: w), s'. simpl. repeat split; auto; lia.
      * destruct lo; [|discriminate].
        exists [], s. repeat split; auto; simpl; lia.
    + intros (w & s' & -> & Hw & [Hlo Hhi] & Hk).
      destruct w as [|a w].
      * right. simpl in Hlo. destruct lo; [exact Hk | lia].
      * left. simpl. inversion Hw as [|? ? Ha Hw']; subst.
        rewrite Ha. simpl. apply IH.
        exists w, s'. simpl in Hlo, Hhi. repeat split; auto; lia.
Qed.

(** The matcher decides [matches]. *)
Theorem re_match_spec (p : pattern) : forall s : text,
  re_match p s = true <-> matches p s.
Proof.
  unfold re_match. induction p as [|i p IH]; intros s; simpl.
  - split; [apply matches_end | inversion 1; assumption].
  - rewrite match_rep_spec. split.
    + intros (w & s' & -> & Hw & Hb & Hk).
      apply matches_item; [exact Hw | exact Hb | apply IH, Hk].
    + inversion 1 as [|? ? w s' Hw Hb Hm]; subst.
      exists w, s'. repeat split; try tauto. apply IH, Hm.
Qed.

End PyTextFacts.

(** ** Plate cleaning and validation *)

Module AnprFacts.
Import PyText Anpr.

(** The characters of a cleaned text: capitals, digits, the space. *)
Definition word_char (c : ascii) : bool := upper_AZ c || digit_09 c.

(** A text in the cleaner's normal form: words of [word_char]s separated
    by single spaces.  [gap] holds at the start and after a space, where
    a word has to follow. *)
Fixpoint tidy (gap : bool) (s : text) : bool :=
  match s with
  | [] => negb gap
  | c :: s' =>
      if word_char c then tidy false s'
      else is_code 32 c && negb gap && tidy true s'
  end.

(** A boolean property of characters holds of all of them once it is
    checked on the 256 code points. *)
Lemma for_all_chars (P : ascii -> bool) :
  forallb P (map ascii_of_nat (seq 0 256)) = true -> forall c, P c = true.
Proof.
  intros H c. rewrite forallb_forall in H. apply H.
  rewrite <- (ascii_nat_embedding c). apply in_map, in_seq.
  pose proof (nat_ascii_bounded c). lia.
Qed.

Lemma plate_char_upper c :
  plate_char c = true ->
  exists u, upper_char c = [u]
            /\ (word_char u = true \/ (isspace u = true /\ word_char u = false)).
Proof.
  pose proof (for_all_chars
    (fun c => implb (plate_char c)
                match upper_char c with
                | [u] => word_char u || (isspace u && negb (word_char u))
                | _ => false
                end)) as H.
  specialize (H ltac:(vm_compute; reflexivity) c). cbv beta in H.
  intros E. rewrite E in H. simpl in H.
  destruct (upper_char c) as [|u [|? ?]]; try discriminate.
  exists u. split; [reflexivity|].
  destruct (word_char u); [left; reflexivity | right].
  simpl in H. rewrite andb_true_r in H. split; [exact H | reflexivity].
Qed.

Lemma word_char_fixed c :
  word_char c = true ->
  plate_char c = true /\ upper_char c = [c] /\ isspace c = false.
Proof.
  pose proof (for_all_chars
    (fun c => implb (word_char c)
                (plate_char c
                 && match upper_char c with
                    | [u] => Ascii.eqb u c
                    | _ => false
                    end
                 && negb (isspace c)))) as H.
  specialize (H ltac:(vm_compute; reflexivity) c). cbv beta in H.
  intros E. rewrite E in H. simpl in H.
  apply andb_prop in H as [H H3]. apply andb_prop in H as [H1 H2].
  destruct (upper_char c) as [|u [|? ?]]; try discriminate.
  apply Ascii.eqb_eq in H2 as ->.
  destruct (isspace c); [discriminate | auto].
Qed.

Lemma is_space_code c : is_code 32 c = true -> c = space.
Proof.
  pose proof (for_all_chars
    (fun c => implb (is_code 32 c) (Ascii.eqb c space))) as H.
  specialize (H ltac:(vm_compute; reflexivity) c). cbv beta in H.
  intros E. rewrite E in H. apply Ascii.eqb_eq, H.
Qed.

Lemma space_facts :
  plate_char space = true /\ upper_char space = [space]
  /\ isspace space = true /\ word_char space = false.
Proof. vm_compute. auto. Qed.

Definition canon (c : ascii) : Prop :=
  word_char c = true \/ (isspace c = true /\ word_char c = false).

Lemma upper_filter_canon t :
  Forall canon (upper (re_sub_delete_not plate_char t)).
Proof.
  unfold upper, re_sub_delete_not.
  induction t as [|c t IH]; simpl; [constructor|].
  destruct (plate_char c) eqn:E; [|exact IH].
  simpl. destruct (plate_char_upper c E) as (u & -> & Hu).
  simpl. constructor; assumption.
Qed.

Lemma lstrip_canon s : Forall canon s -> Forall canon (lstrip s).
Proof.
  induction 1 as [|c s Hc Hs IH]; simpl; [constructor|].
  destruct (isspace c); [exact IH | constructor; assumption].
Qed.

Lemma rstrip_canon s : Forall canon s -> Forall canon (rstrip s).
Proof.
  induction 1 as [|c s Hc Hs IH]; simpl; [constructor|].
  destruct (rstrip s) as [|r rs].
  - destruct (isspace c); constructor; auto.
  - constructor; assumption.
Qed.

(** What [rstrip s = s] says of a non-empty [s]. *)
Lemma rstrip_fixed_cons c s :
  rstrip (c :: s) = c :: s ->
  rstrip s = s /\ (isspace c = true -> s <> []).
Proof.
  simpl. destruct (rstrip s) as [|r rs] eqn:E.
  - destruct (isspace c); [discriminate|].
    intros H. injection H as <-. split; [reflexivity | discriminate].
  - intros H. injection H as <-. split; [reflexivity | discriminate].
Qed.

Lemma rstrip_idem s : rstrip (rstrip s) = rstrip s.
Proof.
  induction s as [|c s IH]; simpl; [reflexivity|].
  destruct (rstrip s) as [|r rs] eqn:E.
  - destruct (isspace c) eqn:Ec; simpl; [reflexivity|]. rewrite Ec. reflexivity.
  - change (rstrip (c :: r :: rs)) with
      (match rstrip (r :: rs) with
       | [] => if isspace c then [] else [c]
       | x => c :: x
       end).
    rewrite IH. reflexivity.
Qed.

Lemma ws_runs_tidy s : forall b,
  Forall canon s -> rstrip s = s -> (s <> [] \/ b = false) ->
  tidy b (re_sub_ws_runs b s) = true.
Proof.
  induction s as [|c s IH]; intros b Hc Hr Hne.
  - destruct Hne as [Hne | ->]; [congruence | reflexivity].
  - inversion Hc as [|? ? Hcc Hcs]; subst.
    apply rstrip_fixed_cons in Hr as [Hr Hsp].
    simpl. destruct Hcc as [Hw | [Hs Hw]].
    + destruct (word_char_fixed c Hw) as (_ & _ & Hns). rewrite Hns.
      simpl. rewrite Hw. apply IH; auto.
    + rewrite Hs. destruct b.
      * apply IH; auto.
      * simpl. apply IH; auto.
Qed.

(** The cleaner's output is empty or tidy. *)
Lemma clean_tidy t :
  _clean_plate_text t = [] \/ tidy true (_clean_plate_text t) = true.
Proof.
  unfold _clean_plate_text, strip.
  set (u := upper (re_sub_delete_not plate_char t)).
  assert (Hu : Forall canon (lstrip u)) by (apply lstrip_canon, upper_filter_canon).
  assert (Hh : match lstrip u with [] => True | c :: _ => isspace c = false end).
  { clear Hu. induction u as [|c u IH]; simpl; [exact I|].
    destruct (isspace c) eqn:E; [exact IH | exact E]. }
  destruct (lstrip u) as [|c v]; [left; reflexivity | right].
  inversion Hu as [|? ? Hc Hv]; subst.
  assert (Hw : word_char c = true) by (destruct Hc as [|[? _]]; congruence).
  assert (E : rstrip (c :: v) = c :: rstrip v).
  { simpl. rewrite Hh. destruct (rstrip v); reflexivity. }
  rewrite E. simpl. rewrite Hh. simpl. rewrite Hw.
  apply ws_runs_tidy; [apply rstrip_canon, Hv | apply rstrip_idem | auto].
Qed.

Lemma tidy_filter s b : tidy b s = true -> re_sub_delete_not plate_char s = s.
Proof.
  unfold re_sub_delete_not. revert b.
  induction s as [|c s IH]; intros b; simpl; [reflexivity|].
  destruct (word_char c) eqn:Hw.
  - intros H. destruct (word_char_fixed c Hw) as (-> & _). f_equal. eauto.
  - intros H. apply andb_prop in H as [H H2]. apply andb_prop in H as [H _].
    apply is_space_code in H as ->.
    destruct space_facts as (-> & _). f_equal. eauto.
Qed.

Lemma tidy_upper s b : tidy b s = true -> upper s = s.
Proof.
  unfold upper. revert b.
  induction s as [|c s IH]; intros b; simpl; [reflexivity|].
  destruct (word_char c) eqn:Hw.
  - intros H. destruct (word_char_fixed c Hw) as (_ & -> & _).
    simpl. f_equal. eauto.
  - intros H. apply andb_prop in H as [H H2]. apply andb_prop in H as [H _].
    apply is_space_code in H as ->.
    destruct space_facts as (_ & -> & _). simpl. f_equal. eauto.
Qed.

Lemma tidy_lstrip s : tidy true s = true -> lstrip s = s.
Proof.
  destruct s as [|c s]; simpl; [reflexivity|].
  destruct (word_char c) eqn:Hw.
  - destruct (word_char_fixed c Hw) as (_ & _ & ->). reflexivity.
  - rewrite andb_false_r. discriminate.
Qed.

Lemma tidy_nonempty s : tidy true s = true -> s <> [].
Proof. destruct s; simpl; [discriminate | discriminate]. Qed.

Lemma tidy_rstrip s b : tidy b s = true -> rstrip s = s.
Proof.
  revert b. induction s as [|c s IH]; intros b; [reflexivity|].
  cbn [tidy]. destruct (word_char c) eqn:Hw.
  - intros H. destruct (word_char_fixed c Hw) as (_ & _ & Hs).
    simpl. rewrite (IH _ H), Hs. destruct s; reflexivity.
  - intros H. apply andb_prop in H as [_ H].
    simpl. rewrite (IH _ H). apply tidy_nonempty in H.
    destruct s; [congruence | reflexivity].
Qed.

Lemma tidy_ws_runs s b : tidy b s = true -> re_sub_ws_runs b s = s.
Proof.
  revert b. induction s as [|c s IH]; intros b; [reflexivity|].
  cbn [tidy]. destruct (word_char c) eqn:Hw.
  - intros H. destruct (word_char_fixed c Hw) as (_ & _ & Hs).
    simpl. rewrite Hs. f_equal. eauto.
  - intros H. apply andb_prop in H as [H H2]. apply andb_prop in H as [H Hb].
    apply is_space_code in H as ->.
    destruct b; [discriminate|].
    destruct space_facts as (_ & _ & Hs & _).
    cbn [re_sub_ws_runs]. rewrite Hs. f_equal. eauto.
Qed.

Lemma tidy_weaken s : tidy true s = true -> tidy false s = true.
Proof.
  destruct s as [|c s]; simpl; [discriminate|].
  destruct (word_char c); [auto|]. rewrite andb_false_r. discriminate.
Qed.

(** A tidy text is a fixed point of the cleaner. *)
Lemma clean_fixes_tidy s : tidy true s = true -> _clean_plate_text s = s.
Proof.
  intros H. unfold _clean_plate_text, strip.
  rewrite (tidy_filter _ _ H), (tidy_upper _ _ H), (tidy_lstrip _ H),
    (tidy_rstrip _ _ H).
  apply tidy_ws_runs, tidy_weaken, H.
Qed.

(** C9.  Plate cleaning is idempotent: cleaning a cleaned text gives the
    cleaned text back, for every input text.  The cleaner deletes the
    characters outside [[A-Za-z0-9\s]], upper-cases, trims the surrounding
    whitespace and collapses each run of whitespace to one space. *)
Theorem clean_plate_text_idempotent (x : text) :
  _clean_plate_text (_clean_plate_text x) = _clean_plate_text x.
Proof.
  destruct (clean_tidy x) as [E | H].
  - rewrite E. reflexivity.
  - apply clean_fixes_tidy, H.
Qed.

Example clean_example :
  _clean_plate_text (txt "  ka-01	ab  12.34 ") = txt "KA01 AB 1234".
Proof. vm_compute. reflexivity. Qed.

(** *** Validation *)

(** The text matches one of the configured patterns. *)
Definition matches_some_pattern (t : text) : bool :=
  existsb (fun p => re_match p t) plate_patterns.

Lemma matches_some_pattern_spec (t : text) :
  matches_some_pattern t = true <->
  Exists (fun p => PyTextFacts.matches p t) plate_patterns.
Proof.
  unfold matches_some_pattern. rewrite existsb_exists, List.Exists_exists.
  split; intros (p & Hin & Hp); exists p; split; auto;
    apply PyTextFacts.re_match_spec; exact Hp.
Qed.

Example validate_state_code : _validate_plate_text (txt "KA01AB1234") = true.
Proof. vm_compute. reflexivity. Qed.

Example validate_fallback :
  matches_some_pattern (txt "12AB34CD") = false
  /\ _validate_plate_text (txt "12AB34CD") = true.
Proof. vm_compute. split; reflexivity. Qed.

Example validate_letters_only : _validate_plate_text (txt "ABCDEFGH") = false.
Proof. vm_compute. reflexivity. Qed.

(** The length gate comes first: the cleaned text A1 matches the first
    pattern and is rejected, where the claim C6 has every text that
    matches a pattern accepted whatever its length. *)
Lemma validate_rejects_short_match :
  _clean_plate_text (txt "A1") = txt "A1"
  /\ matches_some_pattern (txt "A1") = true
  /\ _validate_plate_text (txt "A1") = false.
Proof. vm_compute. repeat split; reflexivity. Qed.

(** C6, amended.  Validation accepts a text if and only if its length is
    at least 4 and it matches one of the configured patterns or, matching
    none, contains a letter and a digit. *)
Theorem validate_plate_text_iff (t : text) :
  _validate_plate_text t = true <->
  (4 <= length t)%nat
  /\ (matches_some_pattern t = true
      \/ (matches_some_pattern t = false
          /\ any isalpha t = true /\ any isdigit t = true)).
Proof.
  unfold _validate_plate_text, matches_some_pattern.
  set (m := existsb _ plate_patterns).
  destruct (Nat.ltb_spec (length t) 4) as [Hlt | Hge].
  - rewrite orb_true_r. split; [discriminate | lia].
  - replace (is_empty t) with false by (destruct t; [simpl in Hge; lia | reflexivity]).
    cbn [orb]. destruct m.
    + split; auto.
    + rewrite andb_true_iff. split.
      * intros [? ?]. auto.
      * intros [_ [? | (_ & ? & ?)]]; [discriminate | auto].
Qed.

End AnprFacts.

(** ** Slot layout *)

Module SlotFacts.
Import SlotDetector.

(** *** Slot ids *)

(** The offsets as the specification gives them. *)
Definition floor_offsets : list (string * Z) := [("A", 0); ("B", 1000)]%string.
Definition type_offsets : list (string * string * Z * Z) :=
  [("CAR", "C", 0, 20); ("BIKE", "B", 100, 16)]%string.

(** A region numbered by the scheme: it is slot [n] of its type on its
    floor, its code says so, and its id is the sum of the two offsets
    and [n]. *)
Definition numbered (r : SlotROI) : Prop :=
  exists floor foff letter toff count n,
    In (floor, foff) floor_offsets
    /\ In (vehicle_type r, letter, toff, count) type_offsets
    /\ 1 <= n <= count
    /\ slot_code r = (floor ++ "-" ++ letter ++ "-" ++ Py.fmt_02d n)%string
    /\ slot_id r = foff + toff + n.

Definition numbered_by (r : SlotROI) (c : string * Z * (string * string * Z * Z) * Z) : bool :=
  let '(floor, foff, (ty, letter, toff, count), n) := c in
  String.eqb (vehicle_type r) ty
  && (1 <=? n) && (n <=? count)
  && String.eqb (slot_code r) (floor ++ "-" ++ letter ++ "-" ++ Py.fmt_02d n)
  && (slot_id r =? foff + toff + n).

Definition candidates : list (string * Z * (string * string * Z * Z) * Z) :=
  list_prod (list_prod floor_offsets type_offsets) (Py.range 1 21).

Definition numberedb (r : SlotROI) : bool := existsb (numbered_by r) candidates.

Lemma numberedb_sound r : numberedb r = true -> numbered r.
Proof.
  unfold numberedb. rewrite existsb_exists.
  intros ([[[floor foff] [[[ty letter] toff] count]] n] & Hin & Hb).
  unfold candidates in Hin. rewrite !in_prod_iff in Hin.
  destruct Hin as [[Hf Ht] _].
  unfold numbered_by in Hb. rewrite !andb_true_iff in Hb.
  destruct Hb as [[[[Hty H1] H2] Hc] Hid].
  apply String.eqb_eq in Hty, Hc. subst ty.
  exists floor, foff, letter, toff, count, n. repeat split; auto; lia.
Qed.

Lemma calculate_slot_id_offsets (n : Z) :
  _calculate_slot_id "A" "CAR" n = 0 + 0 + n
  /\ _calculate_slot_id "A" "BIKE" n = 0 + 100 + n
  /\ _calculate_slot_id "B" "CAR" n = 1000 + 0 + n
  /\ _calculate_slot_id "B" "BIKE" n = 1000 + 100 + n.
Proof. repeat split. Qed.

Definition count_of (floor_letter : string) (ty : string) (l : list SlotROI) : nat :=
  length (List.filter (fun r => String.prefix floor_letter (slot_code r)
                                && String.eqb (vehicle_type r) ty) l).

(** C5.  Every region of the generated layout is slot [n] of its type on
    its floor and has the id floorOffset (A = 0, B = 1000) + typeOffset
    (CAR = 0, BIKE = 100) + n; the layout has 20 car and 16 bike slots on
    each of the two floors, 72 in all, and their ids are pairwise
    distinct. *)
Theorem slot_ids_numbered_and_distinct (motion occupancy : Q) :
  let rois := all_rois (init motion occupancy) in
  Forall numbered rois
  /\ count_of "A" "CAR" rois = 20%nat /\ count_of "A" "BIKE" rois = 16%nat
  /\ count_of "B" "CAR" rois = 20%nat /\ count_of "B" "BIKE" rois = 16%nat
  /\ length rois = 72%nat
  /\ NoDup (map slot_id rois).
Proof.
  intros rois.
  assert (E : rois = all_rois default_detector) by (vm_compute; reflexivity).
  rewrite E. clear E rois.
  split; [|split; [|split; [|split; [|split; [|split]]]]]; try (vm_compute; reflexivity).
  - apply List.Forall_forall. intros r Hr. apply numberedb_sound.
    revert r Hr. apply (proj1 (List.forallb_forall numberedb _)).
    vm_compute. reflexivity.
  - apply (bool_decide_unpack _). vm_compute. exact I.
Qed.
End SlotFacts.

(** ** Occupancy score *)

Module OccupancyFacts.
Import SlotDetector.

Lemma py_min_Qmin a b : Py.min a b = Qmin a b.
Proof.
  unfold Py.min, Qmin, GenericMinMax.gmin.
  rewrite <- (Qcompare_antisym a b). destruct (a ?= b)%Q; reflexivity.
Qed.

Lemma Qltb_lt a b : Py.Qltb a b = true <-> (a < b)%Q.
Proof.
  unfold Py.Qltb. rewrite Qlt_alt. destruct (a ?= b)%Q; split; congruence.
Qed.

Lemma Qltb_ge a b : Py.Qltb a b = false <-> (b <= a)%Q.
Proof.
  rewrite <- not_true_iff_false, Qltb_lt. split.
  - apply Qnot_lt_le.
  - intros H1 H2. exact (Qlt_not_le _ _ H2 H1).
Qed.

(** The three measurements, as the specification names them. *)
Definition ratio (k n : Z) : Q := (inject_Z k / inject_Z n)%Q.

Definition foreground_pixel_ratio (mask_region : gray) : Q :=
  ratio (count_positive mask_region) (size2 mask_region).

Definition pixel_variance (slot_region : image) : Q :=
  np_var (flatten3 slot_region).

Lemma count_positive_bounds m : 0 <= count_positive m <= size2 m.
Proof.
  unfold count_positive, size2. split; [lia|].
  apply inj_le, List.filter_length_le.
Qed.

Lemma ratio_guarded k n :
  ((if n >? 0 then inject_Z k / inject_Z n else 0) == ratio k n)%Q \/ n < 0.
Proof.
  unfold ratio. destruct (Z.gtb_spec n 0) as [H | H].
  - left. reflexivity.
  - destruct (Z.eq_dec n 0) as [-> | ?]; [left | right; lia].
    unfold Qdiv, Qinv. simpl. rewrite Qmult_0_r. reflexivity.
Qed.

Lemma ratio_nonneg k n : 0 <= k -> 0 <= n -> (0 <= ratio k n)%Q.
Proof.
  intros Hk Hn. unfold ratio.
  destruct (Z.eq_dec n 0) as [-> | Hne].
  - unfold Qdiv, Qinv. simpl. rewrite Qmult_0_r. apply Qle_refl.
  - apply Qle_shift_div_l.
    + change 0%Q with (inject_Z 0). rewrite <- Zlt_Qlt. lia.
    + rewrite Qmult_0_l. change 0%Q with (inject_Z 0). rewrite <- Zle_Qle. lia.
Qed.

Lemma Qsum_nonneg l : Forall (fun q => (0 <= q)%Q) l -> (0 <= Qsum l)%Q.
Proof.
  induction 1 as [|q l Hq Hl IH]; simpl; [apply Qle_refl|].
  replace 0%Q with (0 + 0)%Q by reflexivity. apply Qplus_le_compat; assumption.
Qed.

Lemma np_var_nonneg xs : (0 <= np_var xs)%Q.
Proof.
  unfold np_var.
  set (mean := (Qsum (map inject_Z xs) / _)%Q).
  set (sq := Qsum _).
  assert (Hsq : (0 <= sq)%Q).
  { apply Qsum_nonneg, List.Forall_forall. intros q Hq.
    apply in_map_iff in Hq as (x & <- & _).
    set (d := (inject_Z x - mean)%Q).
    destruct (Qlt_le_dec d 0) as [Hd | Hd].
    - assert (E : (d * d == (- d) * (- d))%Q) by ring.
      rewrite E.
      apply Qmult_le_0_compat; apply (Qopp_le_compat d 0), Qlt_le_weak, Hd.
    - apply Qmult_le_0_compat; assumption. }
  destruct xs as [|x xs].
  - unfold Qdiv, Qinv. simpl. rewrite Qmult_0_r. apply Qle_refl.
  - apply Qle_shift_div_l.
    + change 0%Q with (inject_Z 0). rewrite <- Zlt_Qlt. simpl length. lia.
    + rewrite Qmult_0_l. exact Hsq.
Qed.

Section Score.
Variable cvtColor_BGR2GRAY : image -> gray.
Variable Canny : gray -> Z -> Z -> gray.

Local Abbreviation score := (_calculate_occupancy_score cvtColor_BGR2GRAY Canny).
Local Abbreviation check := (_check_slot_occupancy cvtColor_BGR2GRAY Canny).

Definition edge_pixel_ratio (slot_region : image) : Q :=
  let edges := Canny (cvtColor_BGR2GRAY slot_region) 50 150 in
  ratio (count_positive edges) (size2 edges).

(** The weighted sum before clamping. *)
Definition weighted (slot_region : image) (mask_region : gray) : Q :=
  ((4 # 10) * foreground_pixel_ratio mask_region
   + (3 # 10) * edge_pixel_ratio slot_region
   + (3 # 10) * Qmin (pixel_variance slot_region / 1000) 1)%Q.

Lemma weighted_nonneg slot_region mask_region :
  (0 <= weighted slot_region mask_region)%Q.
Proof.
  unfold weighted.
  assert (H4 : (0 <= 4 # 10)%Q) by discriminate.
  assert (H3 : (0 <= 3 # 10)%Q) by discriminate.
  repeat (replace 0%Q with (0 + 0)%Q by reflexivity; apply Qplus_le_compat);
    apply Qmult_le_0_compat; auto.
  - apply ratio_nonneg; [apply count_positive_bounds | unfold size2; lia].
  - apply ratio_nonneg; [apply count_positive_bounds | unfold size2; lia].
  - apply Q.min_glb; [|discriminate].
    apply Qle_shift_div_l; [reflexivity|].
    rewrite Qmult_0_l. apply np_var_nonneg.
Qed.

Lemma score_nonempty slot_region mask_region :
  size3 slot_region <> 0 ->
  (score slot_region mask_region == Qmin (weighted slot_region mask_region) 1)%Q.
Proof.
  intros Hne. unfold _calculate_occupancy_score.
  destruct (Z.eqb_spec (size3 slot_region) 0) as [E | _]; [contradiction|].
  rewrite !py_min_Qmin. unfold weighted.
  apply Q.min_compat; [|reflexivity].
  repeat apply Qplus_comp; apply Qmult_comp; try reflexivity.
  - destruct (ratio_guarded (count_positive mask_region) (size2 mask_region))
      as [H | H]; [exact H | unfold size2 in H; lia].
  - set (edges := Canny _ _ _).
    destruct (ratio_guarded (count_positive edges) (size2 edges))
      as [H | H]; [exact H | unfold size2 in H; lia].
Qed.

Lemma score_empty slot_region mask_region :
  size3 slot_region = 0 -> score slot_region mask_region = 0%Q.
Proof.
  intros E. unfold _calculate_occupancy_score. rewrite E. reflexivity.
Qed.

Lemma check_fields d now frame bg_mask r :
  let '(x, y, w, h) := coordinates r in
  let st := check d now frame bg_mask r in
  confidence st = score (crop x y w h frame) (crop x y w h bg_mask)
  /\ is_occupied st = Py.Qltb (occupancy_threshold d) (confidence st)
  /\ status_slot_id st = slot_id r.
Proof.
  unfold _check_slot_occupancy.
  destruct (coordinates r) as [[[x y] w] h]. simpl. auto.
Qed.

(** *** Regions outside the frame *)

(** The crop is empty: C10's case. *)
Lemma check_empty_crop d now frame bg_mask r x y w h :
  coordinates r = (x, y, w, h) ->
  size3 (crop x y w h frame) = 0 ->
  let st := check d now frame bg_mask r in
  confidence st = 0%Q
  /\ ((0 <= occupancy_threshold d)%Q -> is_occupied st = false).
Proof.
  intros Hc He st.
  pose proof (check_fields d now frame bg_mask r) as H.
  rewrite Hc in H. cbv zeta in H. fold st in H.
  destruct H as (Hconf & Hocc & _).
  rewrite score_empty in Hconf by exact He.
  split; [exact Hconf|].
  intros Ht. rewrite Hocc, Hconf. apply Qltb_ge, Ht.
Qed.

(** The score lies between 0 and 1, whatever the regions. *)
Lemma score_in_unit_interval slot_region mask_region :
  (0 <= score slot_region mask_region)%Q /\ (score slot_region mask_region <= 1)%Q.
Proof.
  destruct (Z.eq_dec (size3 slot_region) 0) as [E | E].
  - rewrite score_empty by exact E. split; discriminate.
  - rewrite (score_nonempty _ _ E). split.
    + apply Q.min_glb; [apply weighted_nonneg | discriminate].
    + apply Q.le_min_r.
Qed.
End Score.

(** The frame has [height] rows of [width] pixels. *)
Definition has_shape {A} (height width : nat) (a : list (list A)) : Prop :=
  length a = height /\ Forall (fun row => length row = width) a.

(** The rectangle [x, x+w) x [y, y+h) has a pixel in common with a frame
    of the given size. *)
Definition meets_frame (x y w h : Z) (height width : nat) : bool :=
  (Z.max x 0 <? Z.min (x + w) (Z.of_nat width))
  && (Z.max y 0 <? Z.min (y + h) (Z.of_nat height)).

(** The slice [a : a + len] of an axis of [n] places is not empty. *)
Definition selects (n a len : Z) : bool :=
  Py.slice_index n a <? Py.slice_index n (a + len).

(** The interval [a, a + len) has a place in common with the axis. *)
Definition meets_axis (n a len : Z) : bool :=
  Z.max a 0 <? Z.min (a + len) n.

(** The stop [a + len] is negative and, counted from the far end of the
    axis, lies beyond the start. *)
Definition stop_wraps (n a len : Z) : bool :=
  (a + len <? 0) && (Py.slice_index n a <? a + len + n).

Lemma slice_index_bounds n i : 0 <= n -> 0 <= Py.slice_index n i <= n.
Proof. unfold Py.slice_index. destruct (Z.ltb_spec i 0); lia. Qed.

Lemma slice_nil_iff {A} (a b : Z) (l : list A) :
  Py.slice a b l = [] <-> selects (Z.of_nat (length l)) a (b - a) = false.
Proof.
  unfold selects, Py.slice. replace (a + (b - a)) with b by lia.
  set (n := Z.of_nat (length l)).
  pose proof (slice_index_bounds n a ltac:(lia)) as Ha.
  pose proof (slice_index_bounds n b ltac:(lia)) as Hb.
  set (a' := Py.slice_index n a) in *. set (b' := Py.slice_index n b) in *.
  rewrite Z.ltb_ge. split.
  - intros H. apply (f_equal (@length A)) in H.
    rewrite length_firstn, length_skipn in H. simpl in H. lia.
  - intros H. replace (Z.to_nat (b' - a')) with 0%nat by lia. reflexivity.
Qed.

Lemma slice_keeps_width {A} (a b : Z) (width : nat) (rows : list (list A)) :
  Forall (fun row => length row = width) rows ->
  Forall (fun row => length row = width) (Py.slice a b rows).
Proof. intros H. unfold Py.slice. apply Forall_take, Forall_drop, H. Qed.

(** The crop of a frame has no pixel exactly when one of its two slices
    is empty. *)
Lemma crop_nil_iff {A} (x y w h : Z) (height width : nat) (a : list (list A)) :
  has_shape height width a ->
  concat (crop x y w h a) = []
  <-> selects (Z.of_nat height) y h && selects (Z.of_nat width) x w = false.
Proof.
  intros [Hh Hw]. unfold crop.
  pose proof (slice_nil_iff y (y + h) a) as Hy.
  rewrite Hh in Hy. replace (y + h - y) with h in Hy by lia.
  pose proof (slice_keeps_width y (y + h) width a Hw) as Hrows.
  destruct (Py.slice y (y + h) a) as [|row rows].
  - rewrite (proj1 Hy eq_refl). simpl. tauto.
  - assert (Ey : selects (Z.of_nat height) y h = true).
    { destruct (selects (Z.of_nat height) y h); [reflexivity|].
      discriminate (proj2 Hy eq_refl). }
    rewrite Ey. cbn [andb].
    assert (Hx : forall r : list A, length r = width ->
                 Py.slice x (x + w) r = [] <-> selects (Z.of_nat width) x w = false).
    { intros r Hr. rewrite slice_nil_iff, Hr.
      replace (x + w - x) with w by lia. reflexivity. }
    split.
    + intros H. cbn [map concat] in H. apply app_eq_nil in H as [H _].
      inversion Hrows; subst. apply (Hx row); auto.
    + intros H. clear Hy Ey.
      induction Hrows as [|r rs Hr _ IH]; [reflexivity|].
      cbn [map concat]. rewrite (proj2 (Hx r Hr) H). exact IH.
Qed.

(** On an axis the interval misses, the slice selects a place only by
    wrapping its stop. *)
Lemma selects_off_axis n a len :
  0 <= n -> meets_axis n a len = false -> selects n a len = stop_wraps n a len.
Proof.
  unfold meets_axis, selects, stop_wraps, Py.slice_index. intros Hn Hm.
  apply Z.ltb_ge in Hm. apply eq_true_iff_eq.
  rewrite andb_true_iff, !Z.ltb_lt.
  destruct (Z.ltb_spec a 0), (Z.ltb_spec (a + len) 0); lia.
Qed.

(** C10, amended.  Scoring is total: for every region of interest,
    whatever its coordinates, and every frame the status is defined,
    with a confidence between 0 and 1.  The cropped slot region has zero
    pixels exactly when one of the two slices [y : y + h] and
    [x : x + w] is empty, and then the score is 0.0 and the slot is
    reported unoccupied (the occupancy threshold being non-negative, as
    the default 0.4 is).  On an axis where the rectangle misses the
    frame the slice is empty unless its stop wraps round: the stop
    coordinate is negative and, counted from the far edge, lies beyond
    the start index.  So a rectangle that has no pixel in common with
    the frame scores 0.0 unless a stop wraps round on every axis it
    misses the frame on and the slice on the other axis is not empty; in
    that case the crop has pixels and is scored as any other. *)
Theorem roi_outside_frame_scores_zero
        (cvtColor_BGR2GRAY : image -> gray) (Canny : gray -> Z -> Z -> gray)
        d now frame bg_mask r x y w h height width :
  coordinates r = (x, y, w, h) ->
  has_shape height width frame ->
  (0 <= occupancy_threshold d)%Q ->
  let st := _check_slot_occupancy cvtColor_BGR2GRAY Canny d now frame bg_mask r in
  let selected :=
    selects (Z.of_nat height) y h && selects (Z.of_nat width) x w in
  ((0 <= confidence st)%Q /\ (confidence st <= 1)%Q
   /\ is_occupied st = Py.Qltb (occupancy_threshold d) (confidence st))
  /\ (concat (crop x y w h frame) = [] <-> selected = false)
  /\ (selected = false -> confidence st = 0%Q /\ is_occupied st = false)
  /\ (meets_axis (Z.of_nat width) x w = false ->
      selects (Z.of_nat width) x w = stop_wraps (Z.of_nat width) x w)
  /\ (meets_axis (Z.of_nat height) y h = false ->
      selects (Z.of_nat height) y h = stop_wraps (Z.of_nat height) y h).
Proof.
  intros Hc Hs Ht st selected.
  pose proof (check_fields cvtColor_BGR2GRAY Canny d now frame bg_mask r) as H.
  rewrite Hc in H. cbv zeta in H. fold st in H. destruct H as (Hconf & Hocc & _).
  pose proof (crop_nil_iff x y w h height width frame Hs) as Hnil.
  fold selected in Hnil.
  split; [|split; [exact Hnil | split; [|split]]].
  - destruct (score_in_unit_interval cvtColor_BGR2GRAY Canny
                (crop x y w h frame) (crop x y w h bg_mask)) as [H0 H1].
    rewrite <- Hconf in H0, H1. auto.
  - intros Hsel.
    destruct (check_empty_crop cvtColor_BGR2GRAY Canny d now frame bg_mask r
                x y w h Hc) as [H0 Hz].
    + unfold size3, flatten3. rewrite (proj2 Hnil Hsel). reflexivity.
    + split; [exact H0 | exact (Hz Ht)].
  - apply selects_off_axis. lia.
  - apply selects_off_axis. lia.
Qed.

(** A frame of one row of twelve pixels, all foreground, and a region
    that lies five to ten pixels left of it. *)
Definition wrap_frame : image := [repeat [0; 0; 255] 12].
Definition wrap_mask : gray := [repeat 255 12].
Definition wrap_roi : SlotROI :=
  {| slot_id := 1; slot_code := "A-C-01"; coordinates := (-10, 0, 5, 1);
     vehicle_type := "CAR"; camera_id := 1 |}.

(** The claim C10 fails where a coordinate is negative: the slice wraps
    around, the crop is the pixels 2 to 6 of the row, and the slot is
    reported occupied with a confidence of 0.7 or more, whatever the
    edge detector answers. *)
Lemma roi_left_of_frame_scores_high :
  has_shape 1 12 wrap_frame
  /\ meets_frame (-10) 0 5 1 1 12 = false
  /\ crop (-10) 0 5 1 wrap_mask = [repeat 255 5]
  /\ forall cvtColor_BGR2GRAY Canny,
      let st := _check_slot_occupancy cvtColor_BGR2GRAY Canny default_detector 0
                                      wrap_frame wrap_mask wrap_roi in
      (7 # 10 <= confidence st)%Q /\ is_occupied st = true.
Proof.
  split; [split; [reflexivity | repeat constructor] |].
  split; [reflexivity |]. split; [reflexivity |].
  intros cvt canny st.
  pose proof (check_fields cvt canny default_detector 0 wrap_frame wrap_mask wrap_roi) as H.
  cbv zeta in H. change (coordinates wrap_roi) with (-10, 0, 5, 1) in H.
  cbv iota beta in H. fold st in H. destruct H as (Hconf & Hocc & _).
  set (slot_region := crop (-10) 0 5 1 wrap_frame) in *.
  set (mask_region := crop (-10) 0 5 1 wrap_mask) in *.
  assert (Hs := score_nonempty cvt canny slot_region mask_region
                  ltac:(vm_compute; discriminate)).
  rewrite <- Hconf in Hs.
  assert (Hw : (7 # 10 <= weighted cvt canny slot_region mask_region)%Q).
  { unfold weighted.
    assert (E1 : (foreground_pixel_ratio mask_region == 1)%Q)
      by (vm_compute; reflexivity).
    assert (E2 : (Qmin (pixel_variance slot_region / 1000) 1 == 1)%Q)
      by (vm_compute; reflexivity).
    assert (E3 : (0 <= edge_pixel_ratio cvt canny slot_region)%Q).
    { apply ratio_nonneg; [apply count_positive_bounds | unfold size2; lia]. }
    rewrite E1, E2.
    setoid_replace (7 # 10)%Q with ((4 # 10) * 1 + (3 # 10) * 0 + (3 # 10) * 1)%Q
      using relation Qeq by reflexivity.
    apply Qplus_le_compat; [apply Qplus_le_compat|]; try apply Qle_refl.
    apply Qmult_le_l; [reflexivity | exact E3]. }
  assert (Hc : (7 # 10 <= confidence st)%Q).
  { rewrite Hs. apply Q.min_glb; [exact Hw | discriminate]. }
  split; [exact Hc|].
  rewrite Hocc. apply Qltb_lt.
  apply Qlt_le_trans with (7 # 10)%Q; [reflexivity | exact Hc].
Qed.
(** A two-pixel frame, its mask, and stand-ins for the two OpenCV calls:
    the first channel as the grey value, a threshold as the edge map. *)
Definition tiny_frame : image := [[[0; 0; 255]; [255; 255; 255]]].
Definition tiny_mask : gray := [[255; 0]].
Definition first_channel (a : image) : gray := map (map (hd 0)) a.
Definition threshold_edges (g : gray) (low high : Z) : gray :=
  map (map (fun v => if high <? v then 255 else 0)) g.
Definition tiny_roi (x : Z) : SlotROI :=
  {| slot_id := 1; slot_code := "A-C-01"; coordinates := (x, 0, 2, 1);
     vehicle_type := "CAR"; camera_id := 1 |}.

(** Regions that miss the two-pixel frame: one ends where the frame
    begins, one has a negative width. *)
Definition off_frame_roi (x w : Z) : SlotROI :=
  {| slot_id := 1; slot_code := "A-C-01"; coordinates := (x, 0, w, 1);
     vehicle_type := "CAR"; camera_id := 1 |}.

Lemma roi_outside_frame_scores_zero_witness :
  let st := _check_slot_occupancy first_channel threshold_edges default_detector 0
                                  tiny_frame tiny_mask (off_frame_roi (-1) 1) in
  meets_frame (-1) 0 1 1 1 2 = false
  /\ confidence st = 0%Q /\ is_occupied st = false.
Proof.
  intros st. split; [reflexivity|].
  apply (roi_outside_frame_scores_zero first_channel threshold_edges default_detector 0
           tiny_frame tiny_mask (off_frame_roi (-1) 1) (-1) 0 1 1 1 2);
    [reflexivity | split; [reflexivity | repeat constructor] | discriminate
     | reflexivity].
Defined.

(** A negative width whose stop does not wrap gives an empty crop too;
    and so does a rectangle that does meet the frame from the left,
    whose start wraps round to the far edge. *)
Example empty_crops_score_zero :
  let check := _check_slot_occupancy first_channel threshold_edges default_detector 0
                                     tiny_frame tiny_mask in
  confidence (check (off_frame_roi 1 (-1))) = 0%Q
  /\ meets_frame (-1) 0 2 1 1 2 = true
  /\ confidence (check (off_frame_roi (-1) 2)) = 0%Q.
Proof. vm_compute. repeat split. Qed.

End OccupancyFacts.

(** ** Occupancy score in binary64 *)

Module Occupancy64Facts.
Import Floats SlotDetector SlotDetector64 OccupancyFacts.
#[local] Set Warnings "-inexact-float".

(** The sign bit is clear, or the number is none. *)
Definition sf_plus (f : spec_float) : Prop :=
  match f with
  | S754_nan => True
  | S754_zero s | S754_infinity s | S754_finite s _ _ => s = false
  end.

(** The number is not below zero. *)
Definition sf_nonneg (f : spec_float) : Prop :=
  match f with
  | S754_nan | S754_zero _ => True
  | S754_infinity s | S754_finite s _ _ => s = false
  end.

Lemma sf_plus_nonneg f : sf_plus f -> sf_nonneg f.
Proof. destruct f; simpl; auto. Qed.

Lemma sf_nonneg_ltb f : SFltb f (S754_zero false) = false <-> sf_nonneg f.
Proof.
  unfold SFltb. destruct f as [s | s | | s m e]; simpl; try tauto;
    destruct s; simpl; split; congruence.
Qed.

Lemma round_aux_sign sx mx ex lx :
  match binary_round_aux prec emax sx mx ex lx with
  | S754_nan => True
  | S754_zero s | S754_infinity s | S754_finite s _ _ => s = sx
  end.
Proof.
  unfold binary_round_aux.
  destruct (shr_fexp prec emax mx ex lx) as [mrs e].
  destruct (shr_fexp prec emax _ e loc_Exact) as [mrs' e'].
  destruct (shr_m mrs'); [reflexivity | | exact I].
  destruct (Z.leb _ _); reflexivity.
Qed.

Lemma round_aux_plus mx ex lx : sf_plus (binary_round_aux prec emax false mx ex lx).
Proof.
  pose proof (round_aux_sign false mx ex lx) as H.
  destruct (binary_round_aux _ _ _ _ _ _); exact H.
Qed.

Lemma round_plus m e : sf_plus (binary_round prec emax false m e).
Proof.
  unfold binary_round. destruct (shl_align _ _ _). apply round_aux_plus.
Qed.

Lemma normalize_plus m e : 0 <= m -> sf_plus (binary_normalize prec emax m e false).
Proof.
  intros H. destruct m as [|p|p]; simpl; [reflexivity | apply round_plus | lia].
Qed.

Lemma sf_mul_nonneg x y :
  sf_nonneg x -> sf_nonneg y -> sf_nonneg (SF64mul x y).
Proof.
  unfold SF64mul, SFmul.
  destruct x as [sx | sx | | sx mx ex], y as [sy | sy | | sy my ey];
    simpl; intros Hx Hy; subst; try exact I; try reflexivity.
  apply sf_plus_nonneg, round_aux_plus.
Qed.

Lemma sf_add_nonneg x y :
  sf_nonneg x -> sf_nonneg y -> sf_nonneg (SF64add x y).
Proof.
  unfold SF64add, SFadd.
  destruct x as [sx | sx | | sx mx ex], y as [sy | sy | | sy my ey];
    simpl; intros Hx Hy; subst; try exact I; try reflexivity.
  - destruct sx, sy; exact I.
  - apply sf_plus_nonneg, round_plus.
Qed.

Lemma sf_div_nonneg x y :
  sf_nonneg x -> sf_plus y -> sf_nonneg (SF64div x y).
Proof.
  unfold SF64div, SFdiv.
  destruct x as [sx | sx | | sx mx ex], y as [sy | sy | | sy my ey];
    simpl; intros Hx Hy; subst; try exact I; try reflexivity.
  destruct (SFdiv_core_binary _ _ _ _ _ _) as [[mz ez] lz].
  apply sf_plus_nonneg, round_aux_plus.
Qed.

(** The same, of the primitive numbers. *)
Definition nonneg (x : float) : Prop := (x <? 0)%float = false.

Lemma nonneg_spec x : nonneg x <-> sf_nonneg (Prim2SF x).
Proof.
  unfold nonneg. rewrite FloatAxioms.ltb_spec.
  change (Prim2SF 0) with (S754_zero false). apply sf_nonneg_ltb.
Qed.

Lemma nonneg_mul x y : nonneg x -> nonneg y -> nonneg (x * y).
Proof.
  rewrite !nonneg_spec, FloatAxioms.mul_spec. apply sf_mul_nonneg.
Qed.

Lemma nonneg_add x y : nonneg x -> nonneg y -> nonneg (x + y).
Proof.
  rewrite !nonneg_spec, FloatAxioms.add_spec. apply sf_add_nonneg.
Qed.

Lemma of_count_plus n : sf_plus (Prim2SF (of_count n)).
Proof.
  unfold of_count. rewrite of_uint63_spec.
  apply normalize_plus. apply Uint63.to_Z_bounded.
Qed.

Lemma nonneg_quotient k n : nonneg (of_count k / of_count n).
Proof.
  rewrite nonneg_spec, FloatAxioms.div_spec.
  apply sf_div_nonneg; [apply sf_plus_nonneg|]; apply of_count_plus.
Qed.

Lemma nonneg_py_min a b : nonneg a -> nonneg b -> nonneg (py_min a b).
Proof. unfold py_min. destruct (b <? a)%float; auto. Qed.

Lemma nonneg_div x y : nonneg x -> sf_plus (Prim2SF y) -> nonneg (x / y).
Proof.
  rewrite !nonneg_spec, FloatAxioms.div_spec. apply sf_div_nonneg.
Qed.

(** The three measurements, as the specification names them, and its
    score: the weighted sum, clamped to [0, 1]. *)
Definition ratio (k n : Z) : float :=
  if n >? 0 then (of_count k / of_count n)%float else 0%float.

Definition foreground_pixel_ratio (mask_region : gray) : float :=
  ratio (count_positive mask_region) (size2 mask_region).

Definition clamp01 (s : float) : float :=
  if (s <? 0)%float then 0%float else if (1 <? s)%float then 1%float else s.

Definition spec_score (fg edge var : float) : float :=
  clamp01 (0.4 * fg + 0.3 * edge + 0.3 * py_min (var / 1000) 1)%float.

Lemma nonneg_ratio k n : nonneg (ratio k n).
Proof.
  unfold ratio. destruct (n >? 0); [apply nonneg_quotient | reflexivity].
Qed.

Lemma clamp01_nonneg s : nonneg s -> clamp01 s = py_min s 1.
Proof. unfold clamp01, py_min, nonneg. intros ->. reflexivity. Qed.

Lemma py_min_one s :
  nonneg s -> nonneg (py_min s 1) /\ (1 <? py_min s 1)%float = false.
Proof.
  unfold py_min. intros H. destruct (1 <? s)%float eqn:E.
  - split; reflexivity.
  - split; assumption.
Qed.

Section Score.
Variable cvtColor_BGR2GRAY : image -> gray.
Variable Canny : gray -> Z -> Z -> gray.
Variable np_var : image -> float.

Definition edge_pixel_ratio (slot_region : image) : float :=
  let edges := Canny (cvtColor_BGR2GRAY slot_region) 50 150 in
  ratio (count_positive edges) (size2 edges).

Lemma weighted_sum_nonneg fg edge var :
  nonneg fg -> nonneg edge -> nonneg var ->
  nonneg (0.4 * fg + 0.3 * edge + 0.3 * py_min (var / 1000) 1).
Proof.
  intros Hf He Hv.
  repeat apply nonneg_add; apply nonneg_mul; try reflexivity; try assumption.
  apply nonneg_py_min; [|reflexivity].
  apply nonneg_div; [exact Hv | reflexivity].
Qed.

(** C3.  For a slot region that has pixels, the score the code computes
    in binary64 is the score of the specification,
    0.4 x foregroundPixelRatio + 0.3 x edgePixelRatio
    + 0.3 x min(pixelVariance / 1000, 1.0) clamped to [0,1], each
    operation rounded as IEEE 754 rounds it; the score is neither below 0
    nor above 1; and the slot is classified occupied if and only if the
    score is strictly greater than the occupancy threshold.  The variance
    is what [np.var] answers, a number that is not negative. *)
Theorem occupancy_score_formula threshold now frame bg_mask r x y w h :
  coordinates r = (x, y, w, h) ->
  let slot_region := crop x y w h frame in
  let mask_region := crop x y w h bg_mask in
  size3 slot_region <> 0 ->
  (np_var slot_region <? 0)%float = false ->
  let st := _check_slot_occupancy cvtColor_BGR2GRAY Canny np_var
                                  threshold now frame bg_mask r in
  confidence st
  = spec_score (foreground_pixel_ratio mask_region)
               (edge_pixel_ratio slot_region) (np_var slot_region)
  /\ ((confidence st <? 0)%float = false /\ (1 <? confidence st)%float = false)
  /\ is_occupied st = (threshold <? confidence st)%float.
Proof.
  intros Hc slot_region mask_region Hne Hv st.
  unfold st, _check_slot_occupancy. rewrite Hc. cbv zeta.
  cbn [confidence is_occupied]. fold slot_region mask_region.
  unfold _calculate_occupancy_score.
  destruct (Z.eqb_spec (size3 slot_region) 0) as [E | _]; [contradiction|].
  cbv zeta.
  fold (ratio (count_positive mask_region) (size2 mask_region)).
  fold (foreground_pixel_ratio mask_region).
  fold (ratio (count_positive (Canny (cvtColor_BGR2GRAY slot_region) 50 150))
              (size2 (Canny (cvtColor_BGR2GRAY slot_region) 50 150))).
  fold (edge_pixel_ratio slot_region).
  assert (Hs : nonneg (0.4 * foreground_pixel_ratio mask_region
                       + 0.3 * edge_pixel_ratio slot_region
                       + 0.3 * py_min (np_var slot_region / 1000) 1)).
  { apply weighted_sum_nonneg; [apply nonneg_ratio | apply nonneg_ratio | exact Hv]. }
  split; [|split; [|reflexivity]].
  - unfold spec_score. rewrite clamp01_nonneg by exact Hs. reflexivity.
  - apply py_min_one, Hs.
Qed.
End Score.

(** A region of three rows of five pixels, uniformly grey, so that its
    variance is 0.0; twelve of its fifteen pixels are foreground, and
    the edge detector, a stand-in, marks four. *)
Definition grey_frame : image := repeat (repeat [90; 90; 90] 5) 3.
Definition twelve_mask : gray :=
  [[255; 255; 255; 255; 255]; [255; 255; 255; 255; 255]; [255; 255; 0; 0; 0]].
Definition four_edges (g : gray) (low high : Z) : gray :=
  [[255; 255; 255; 255; 0]; [0; 0; 0; 0; 0]; [0; 0; 0; 0; 0]].
Definition grey_roi : SlotROI :=
  {| slot_id := 1; slot_code := "A-C-01"; coordinates := (0, 0, 5, 3);
     vehicle_type := "CAR"; camera_id := 1 |}.

Lemma occupancy_score_formula_witness :
  let st := _check_slot_occupancy first_channel four_edges
                                  (fun _ => 0%float) 0.4 0
                                  grey_frame twelve_mask grey_roi in
  confidence st = spec_score (ratio 12 15) (ratio 4 15) 0
  /\ ((confidence st <? 0)%float = false /\ (1 <? confidence st)%float = false)
  /\ is_occupied st = (0.4 <? confidence st)%float.
Proof.
  apply (occupancy_score_formula first_channel four_edges
           (fun _ => 0%float) 0.4 0 grey_frame twelve_mask grey_roi 0 0 5 3);
    [reflexivity | vm_compute; discriminate | reflexivity].
Defined.

(** Rounding decides at the threshold.  Over the rationals the score of
    that region is 0.4 * 12/15 + 0.3 * 4/15 = 2/5, which is not above the
    default threshold of 0.4; in binary64 the same sum comes to
    0.4000000000000001, and the slot is reported occupied. *)
Example rounding_decides_at_the_threshold :
  let st := _check_slot_occupancy first_channel four_edges
                                  (fun _ => 0%float) 0.4 0
                                  grey_frame twelve_mask grey_roi in
  let exact := SlotDetector._check_slot_occupancy
                 first_channel four_edges default_detector 0
                 grey_frame twelve_mask grey_roi in
  confidence st = 0x1.999999999999bp-2%float
  /\ is_occupied st = true
  /\ (SlotDetector.confidence exact == 2 # 5)%Q
  /\ SlotDetector.is_occupied exact = false.
Proof. vm_compute. repeat split. Qed.

(** Scenario E of the specification: ratios 0.6 and 0.5, variance 500. *)
Example scenario_E :
  spec_score 0.6 0.5 500 = 0.54%float
  /\ (0.4 <? spec_score 0.6 0.5 500)%float = true.
Proof. vm_compute. split; reflexivity. Qed.

End Occupancy64Facts.

(** ** Rate limiter and confidence gate *)

Module CvServiceFacts.
Import CvService.

(** The key has a last-call timestamp less than the cooldown before the
    clock reading [t_check]. *)
Definition within_cooldown (s : CVParkingService) (key : string) (t_check : Z) : bool :=
  match last_api_call s !! key with
  | Some last => t_check - last <? api_cooldown s
  | None => false
  end.

(** The plate confidence the entry handler compares with the threshold. *)
Definition read_confidence (d : detection_data) : Q :=
  match plate_confidence d with Some c => c | None => 0%Q end.

(** A detection that passes the gate of its handler once the rate limiter
    lets it through: any exit detection, and an entry detection whose
    plate confidence is not below the threshold. *)
Definition passes_gate (g : gate) (s : CVParkingService) (d : detection_data) : Prop :=
  match g with
  | ENTRY => Py.Qltb (read_confidence d)
                     (plate_confidence_threshold (config s)) = false
  | EXIT => True
  end.

Lemma no_plate_some p : p <> ""%string -> no_plate (Some p) = false.
Proof. intros H. simpl. apply String.eqb_neq, H. Qed.

Lemma rate_limited_spec t_check t_store ty p s :
  _is_rate_limited t_check t_store ty p s =
  if within_cooldown s (rate_key ty p) t_check then (true, s)
  else (false, set_last_api_call (rate_key ty p) t_store s).
Proof.
  unfold _is_rate_limited, within_cooldown.
  destruct (last_api_call s !! rate_key ty p); reflexivity.
Qed.

(** A request inside the cooldown window is dropped with no side effect. *)
Lemma handle_within_cooldown g running t_check t_store d s p :
  license_plate d = Some p -> p <> ""%string ->
  within_cooldown s (rate_key (detection_type g) p) t_check = true ->
  handle g running t_check t_store d s = s.
Proof.
  intros Hp Hne Hw.
  destruct g; simpl in *;
    unfold _handle_entry_detection, _handle_exit_detection, plate_of;
    rewrite Hp, (no_plate_some p Hne), rate_limited_spec, Hw; reflexivity.
Qed.

(** A request outside it stores the clock and hands one call over. *)
Lemma handle_after_cooldown g running t_check t_store d s p :
  license_plate d = Some p -> p <> ""%string ->
  passes_gate g s d ->
  within_cooldown s (rate_key (detection_type g) p) t_check = false ->
  handle g running t_check t_store d s =
  create_task running (task_of g d)
    (set_last_api_call (rate_key (detection_type g) p) t_store s).
Proof.
  intros Hp Hne Hg Hw.
  destruct g; simpl in *;
    unfold _handle_entry_detection, _handle_exit_detection, plate_of;
    rewrite Hp, (no_plate_some p Hne), rate_limited_spec, Hw.
  - fold (read_confidence d). simpl. rewrite Hg. reflexivity.
  - reflexivity.
Qed.

Lemma within_after_store s key t_store t_check :
  within_cooldown (set_last_api_call key t_store s) key t_check
  = (t_check - t_store <? api_cooldown s).
Proof. unfold within_cooldown. simpl. rewrite lookup_insert_eq. reflexivity. Qed.

Lemma within_create_task running s c key t :
  within_cooldown (create_task running c s) key t = within_cooldown s key t.
Proof. destruct running; reflexivity. Qed.

(** The key determines the event type and the plate. *)
Lemma rate_key_injective g g' p p' :
  rate_key (detection_type g) p = rate_key (detection_type g') p' ->
  g = g' /\ p = p'.
Proof.
  destruct g, g'; unfold rate_key; cbv [detection_type String.append];
    intros H; try discriminate; injection H as <-; auto.
Qed.

(** The paths through the handler of [g]: the detection has no plate, the
    rate limiter drops it, or it gets past the rate limiter.  The first two
    leave the service as it is and [auto] closes them. *)
Ltac handler_paths g :=
  destruct g; simpl in *;
  unfold _handle_entry_detection, _handle_exit_detection;
  (destruct (no_plate (license_plate _)); auto);
  rewrite rate_limited_spec;
  (destruct (within_cooldown _ _ _); auto).

(** A handler touches no timestamp but that of its own key, and leaves the
    configuration and the cooldown alone. *)
Lemma handle_other_key g running t_check t_store d s key :
  key <> rate_key (detection_type g) (plate_of d) ->
  last_api_call (handle g running t_check t_store d s) !! key
  = last_api_call s !! key.
Proof.
  intros Hk. handler_paths g.
  - destruct (Py.Qltb _ _), running; simpl;
      rewrite lookup_insert_ne by congruence; reflexivity.
  - destruct running; simpl; rewrite lookup_insert_ne by congruence; reflexivity.
Qed.

Lemma handle_keeps_settings g running t_check t_store d s :
  config (handle g running t_check t_store d s) = config s
  /\ api_cooldown (handle g running t_check t_store d s) = api_cooldown s.
Proof.
  handler_paths g.
  - destruct (Py.Qltb _ _), running; auto.
  - destruct running; auto.
Qed.

(** On a thread that runs no event loop a handler schedules nothing; the
    timestamp of the key is stored all the same. *)
Lemma handle_without_loop g t_check t_store d s :
  tasks (handle g false t_check t_store d s) = tasks s.
Proof.
  handler_paths g. destruct (Py.Qltb _ _); auto.
Qed.

Example cooldown_is_five_seconds config now :
  api_cooldown (init config now) = 5000000.
Proof. reflexivity. Qed.

(** C1.  The rate limiter keyed by (event type, plate text), for a
    detection that passes its handler's gate.  While the key's last-call
    timestamp is less than the cooldown old, the detection is dropped and
    the service is left as it was (no call, same timestamp), on whatever
    thread the handler runs.  Once the timestamp is at least the cooldown
    old, the timestamp is replaced, and the backend call is scheduled
    only where an event loop runs: on a thread without one, which is
    where the camera manager calls the handlers, [asyncio.create_task]
    raises, the handler logs the error, and no call is made.  Hence of
    three identical detections on such a thread, the second within the
    cooldown of the first and the third after it, none yields a backend
    call, where the claim has the first and the third yield one each. *)
Theorem rate_limiter_cooldown (g : gate) (d : detection_data)
        (s : CVParkingService) (p : string) :
  license_plate d = Some p -> p <> ""%string -> passes_gate g s d ->
  let key := rate_key (detection_type g) p in
  (forall running t t' t_store,
      last_api_call s !! key = Some t ->
      t' - t < api_cooldown s ->
      handle g running t' t_store d s = s)
  /\ (forall running t t' t_store,
      last_api_call s !! key = Some t ->
      api_cooldown s <= t' - t ->
      let s' := handle g running t' t_store d s in
      tasks s' = (if running then tasks s ++ [task_of g d] else tasks s)
      /\ last_api_call s' = <[key := t_store]> (last_api_call s)
      /\ stats s' = stats s)
  /\ (forall t1 t t2 t2_store t3 t3_store,
      last_api_call s !! key = None ->
      t2 - t < api_cooldown s ->
      api_cooldown s <= t3 - t ->
      let s1 := handle g false t1 t d s in
      let s2 := handle g false t2 t2_store d s1 in
      let s3 := handle g false t3 t3_store d s2 in
      tasks s1 = tasks s
      /\ s2 = s1
      /\ tasks s3 = tasks s
      /\ last_api_call s3 !! key = Some t3_store
      /\ stats s3 = stats s).
Proof.
  intros Hp Hne Hg key. split; [|split].
  - intros running t t' t_store Hl Ht.
    apply (handle_within_cooldown g running t' t_store d s p Hp Hne).
    unfold within_cooldown. fold key. rewrite Hl. apply Z.ltb_lt, Ht.
  - intros running t t' t_store Hl Ht s'. unfold s'.
    rewrite (handle_after_cooldown g running t' t_store d s p Hp Hne Hg).
    + destruct running; auto.
    + unfold within_cooldown. fold key. rewrite Hl. apply Z.ltb_ge, Ht.
  - intros t1 t t2 t2_store t3 t3_store Hl H2 H3 s1 s2 s3.
    assert (E1 : s1 = set_last_api_call key t s).
    { apply (handle_after_cooldown g false t1 t d s p Hp Hne Hg).
      unfold within_cooldown. fold key. rewrite Hl. reflexivity. }
    assert (E2 : s2 = s1).
    { apply (handle_within_cooldown g false t2 t2_store d s1 p Hp Hne).
      rewrite E1. fold key. rewrite within_after_store.
      apply Z.ltb_lt, H2. }
    assert (E3 : s3 = set_last_api_call key t3_store s2).
    { apply (handle_after_cooldown g false t3 t3_store d s2 p Hp Hne).
      - rewrite E2, E1. destruct g; exact Hg.
      - rewrite E2, E1. fold key. rewrite within_after_store.
        apply Z.ltb_ge, H3. }
    split; [rewrite E1; reflexivity | split; [exact E2 | split; [|split]]].
    + rewrite E3, E2, E1. reflexivity.
    + rewrite E3. simpl. apply lookup_insert_eq.
    + rewrite E3, E2, E1. reflexivity.
Qed.


(** The plate of scenarios A to D, read with confidence [c]. *)
Definition detection (c : Q) : detection_data :=
  {| camera_id := Some 1; vehicle_type := "car"; confidence := 9 # 10;
     license_plate := Some "KA01AB1234"%string; plate_confidence := Some c;
     timestamp := 0 |}.

Definition service0 : CVParkingService :=
  init (default_config "http://localhost:8000/api/v1") 0.

Definition seconds (n : Z) : Z := n * 1000000.

(** The three detections of scenarios A, B and C, as the camera manager
    delivers them: at 0, 3 and 6 seconds, on the worker thread of the
    camera.  The second is dropped, the third replaces the timestamp,
    and no backend call is scheduled at all. *)
Lemma rate_limiter_cooldown_witness :
  let d := detection (9 # 10) in
  let key := rate_key "entry" "KA01AB1234" in
  let s1 := handle ENTRY false 0 0 d service0 in
  let s2 := handle ENTRY false (seconds 3) (seconds 3) d s1 in
  let s3 := handle ENTRY false (seconds 6) (seconds 6) d s2 in
  tasks s1 = tasks service0
  /\ s2 = s1
  /\ tasks s3 = tasks service0
  /\ last_api_call s3 !! key = Some (seconds 6)
  /\ stats s3 = stats service0.
Proof.
  intros d key.
  destruct (rate_limiter_cooldown ENTRY d service0 "KA01AB1234"
              eq_refl ltac:(discriminate) eq_refl) as (_ & _ & Hthree).
  apply (Hthree 0 0 (seconds 3) (seconds 3) (seconds 6) (seconds 6));
    [reflexivity | reflexivity | discriminate].
Defined.

(** Scenarios A, B and C of the specification where an event loop runs,
    as it would were the handlers called from a coroutine: one call, no
    further call three seconds later, a second call six seconds after
    the first. *)
Example scenarios_A_B_C :
  let d := detection (9 # 10) in
  let s1 := _handle_entry_detection true 0 0 d service0 in
  let s2 := _handle_entry_detection true (seconds 3) (seconds 3) d s1 in
  let s3 := _handle_entry_detection true (seconds 6) (seconds 6) d s2 in
  tasks s1 = [call_entry_api d]
  /\ tasks s2 = [call_entry_api d]
  /\ tasks s3 = [call_entry_api d; call_entry_api d].
Proof. vm_compute. repeat split; reflexivity. Qed.

(** *** The confidence gate *)

(** Scenario D: from a fresh service, confidence 0.4 against 0.7. *)
Example scenario_D :
  let s1 := _handle_entry_detection true 0 0 (detection (4 # 10)) service0 in
  tasks s1 = [] /\ failed_detections (stats s1) = 1.
Proof. vm_compute. split; reflexivity. Qed.

(** The rate limiter stands before the confidence gate: the same
    sub-threshold detection three seconds later is dropped by the rate
    limiter, and the failure counter stays at 1, where the claim C2 has
    it incremented by every sub-threshold detection. *)
Lemma low_confidence_repeat_not_counted :
  let d := detection (4 # 10) in
  let s1 := _handle_entry_detection true 0 0 d service0 in
  let s2 := _handle_entry_detection true (seconds 3) (seconds 3) d s1 in
  Py.Qltb (read_confidence d) (plate_confidence_threshold (config s1)) = true
  /\ failed_detections (stats s1) = 1
  /\ failed_detections (stats s2) = 1
  /\ tasks s2 = [].
Proof. vm_compute. repeat split; reflexivity. Qed.

(** C2, amended.  For every ENTRY detection that carries a plate whose
    confidence is strictly below the threshold, the handler schedules no
    backend call; the failure counter is incremented by exactly 1 when
    the detection is not rate-limited, and is left as it was (with the
    rest of the service) when it is. *)
Theorem low_confidence_entry (running : bool) (t_check t_store : Z)
        (d : detection_data) (s : CVParkingService) (p : string) :
  license_plate d = Some p -> p <> ""%string ->
  Py.Qltb (read_confidence d) (plate_confidence_threshold (config s)) = true ->
  let s' := _handle_entry_detection running t_check t_store d s in
  tasks s' = tasks s
  /\ (within_cooldown s (rate_key "entry" p) t_check = true -> s' = s)
  /\ (within_cooldown s (rate_key "entry" p) t_check = false ->
      failed_detections (stats s') = failed_detections (stats s) + 1
      /\ successful_entries (stats s') = successful_entries (stats s)
      /\ successful_exits (stats s') = successful_exits (stats s)
      /\ last_api_call s' = <[rate_key "entry" p := t_store]> (last_api_call s)).
Proof.
  intros Hp Hne Hlow s'. unfold s', _handle_entry_detection, plate_of.
  rewrite Hp, (no_plate_some p Hne), rate_limited_spec.
  destruct (within_cooldown s (rate_key "entry" p) t_check).
  - split; [reflexivity | split; [reflexivity | discriminate]].
  - fold (read_confidence d). simpl. rewrite Hlow.
    split; [reflexivity | split; [discriminate | intros _; repeat split]].
Qed.

Lemma low_confidence_entry_witness :
  let s' := _handle_entry_detection true 0 0 (detection (4 # 10)) service0 in
  tasks s' = tasks service0
  /\ failed_detections (stats s') = failed_detections (stats service0) + 1.
Proof.
  intros s'.
  destruct (low_confidence_entry true 0 0 (detection (4 # 10)) service0 "KA01AB1234"
              eq_refl ltac:(discriminate) eq_refl) as (Ht & _ & Hf).
  split; [exact Ht | apply Hf; reflexivity].
Defined.
End CvServiceFacts.

(** ** Multi-attempt OCR *)

Module PlateOCRFacts.
Import PyText PlateOCR OccupancyFacts.

(** [max(l, key=len)] picks an element no other is longer than. *)
Lemma fold_longest {A} (key : A -> nat) (l : list A) : forall x,
  let m := fold_left (fun best y => if (key best <? key y)%nat then y else best) l x in
  In m (x :: l) /\ (key x <= key m)%nat /\ Forall (fun y => (key y <= key m)%nat) l.
Proof.
  induction l as [|y l IH]; intros x; simpl.
  - auto.
  - destruct (Nat.ltb_spec (key x) (key y)) as [Hlt | Hge];
      destruct (IH (if (key x <? key y)%nat then y else x)) as (Hin & Hx & Hl);
      [ rewrite (proj2 (Nat.ltb_lt _ _) Hlt) in *
      | rewrite (proj2 (Nat.ltb_ge _ _) Hge) in * ];
      simpl in *; (split; [tauto | split; [lia | constructor; [lia | assumption]]]).
Qed.

Lemma max_by_longest {A} (key : A -> nat) (l : list A) :
  match Py.max_by Nat.ltb key l with
  | None => l = []
  | Some m => In m l /\ Forall (fun y => (key y <= key m)%nat) l
  end.
Proof.
  destruct l as [|x l]; simpl; [reflexivity|].
  destruct (fold_longest key l x) as (Hin & Hx & Hl).
  split; [exact Hin | constructor; assumption].
Qed.

(** The results that are kept: those that are a non-empty text. *)
Definition kept (results : list (option text)) : list text :=
  flat_map (fun r => if truthy r then [default [] r] else []) results.

(** [max(l, key=key)] on confidences picks the first of the greatest:
    what stands before it is smaller, what stands after it is no
    greater. *)
Definition first_greatest {A} (key : A -> Q) (l : list A) (x : A) : Prop :=
  exists before after,
    l = before ++ x :: after
    /\ Forall (fun y => (key y < key x)%Q) before
    /\ Forall (fun y => (key y <= key x)%Q) after.

Definition keep_greater {A} (key : A -> Q) (best y : A) : A :=
  if Py.Qltb (key best) (key y) then y else best.



Lemma first_greatest_max_by {A} (key : A -> Q) (l : list A) x :
  first_greatest key l x -> Py.max_by Py.Qltb key l = Some x.
Proof.
  intros (before & after & -> & Hb & Ha).
  assert (Hkeep : forall l', Forall (fun y => (key y <= key x)%Q) l' ->
                             fold_left (keep_greater key) l' x = x).
  { induction 1 as [|y l' Hy _ IH]; cbn [fold_left]; [reflexivity|].
    unfold keep_greater at 2. rewrite (proj2 (Qltb_ge _ _) Hy). exact IH. }
  assert (Hreach : forall l' b, Forall (fun y => (key y < key x)%Q) l' ->
                                (key b < key x)%Q ->
                                fold_left (keep_greater key) (l' ++ x :: after) b = x).
  { induction l' as [|y l' IH]; intros b Hl Hbx; cbn [fold_left app].
    - unfold keep_greater at 2. rewrite (proj2 (Qltb_lt _ _) Hbx). apply Hkeep, Ha.
    - inversion Hl; subst. apply IH; [assumption|].
      unfold keep_greater. destruct (Py.Qltb (key b) (key y)); assumption. }
  unfold Py.max_by.
  change (fun best y => if Py.Qltb (key best) (key y) then y else best)
    with (keep_greater key).
  destruct before as [|b before]; cbn [app].
  - f_equal. apply Hkeep, Ha.
  - f_equal. inversion Hb; subst. apply Hreach; assumption.
Qed.

Lemma first_greatest_unique {A} (key : A -> Q) (l : list A) x y :
  first_greatest key l x -> first_greatest key l y -> x = y.
Proof.
  intros Hx Hy. apply first_greatest_max_by in Hx, Hy. congruence.
Qed.




Section Reader.
Variable image : Type.
Variable readtext : image -> option (list ocr_result).
Variable preprocess_plate : image -> option image.
Variable convertScaleAbs : image -> Q -> Z -> image.
Variable confidence_threshold : Q.

Local Abbreviation read_text :=
  (read_text image readtext preprocess_plate confidence_threshold).
Local Abbreviation read_with_multiple_attempts :=
  (read_with_multiple_attempts image readtext preprocess_plate
     convertScaleAbs confidence_threshold).
Local Abbreviation collect_attempts :=
  (collect_attempts image readtext preprocess_plate convertScaleAbs
     confidence_threshold).

Definition conf_of (r : ocr_result) : Q := snd r.



Definition passes (r : ocr_result) : bool :=
  negb (Py.Qltb (conf_of r) confidence_threshold).








End Reader.

(** A crop on which the three attempts disagree.  Images are numbered:
    0 is the crop, preprocessing adds 1, the contrast enhancement 10. *)
Definition demo_readtext (i : nat) : option (list ocr_result) :=
  match i with
  | 1%nat => Some [([], txt "ka-01", 99 # 100); ([], txt "zz", 50 # 100)]
  | 0%nat => Some [([], txt "KA 01 AB 12", 80 # 100)]
  | 11%nat => Some [([], txt "KA01AB", 95 # 100)]
  | _ => None
  end.

(** The longest reading wins, though its confidence is the lowest. *)
Example longest_not_most_confident :
  read_text nat demo_readtext (fun i => Some (S i)) (7 # 10) 0%nat true
    = Some (txt "KA01")
  /\ read_with_multiple_attempts nat demo_readtext (fun i => Some (S i))
       (fun i _ _ => (i + 10)%nat) (7 # 10) 0%nat
     = Some (txt "KA01AB12").
Proof. vm_compute. split; reflexivity. Qed.
End PlateOCRFacts.

(** ** Duplicate suppression in the entry pipeline *)

Module EntryPipelineFacts.
Import PyText EntryPipeline.

Definition day : Z := 86400 * 1000000.
Definition seconds (n : Z) : Z := n * 1000000.

(** Inside a day the seconds field is the whole seconds elapsed. *)
Lemma timedelta_seconds_within_day delta :
  0 <= delta < day -> timedelta_seconds delta = delta / 1000000.
Proof.
  intros H. unfold timedelta_seconds. fold day.
  rewrite Z.mod_small by exact H. reflexivity.
Qed.

(** Whole days are dropped from it. *)
Lemma timedelta_seconds_periodic delta :
  timedelta_seconds (delta + day) = timedelta_seconds delta.
Proof.
  unfold timedelta_seconds. fold day.
  replace (delta + day) with (delta + 1 * day) by ring.
  rewrite Z.mod_add by discriminate. reflexivity.
Qed.

Section Pipeline.
Variable image : Type.
Variable detect_vehicles : image -> list vehicle.
Variable detect_in_roi : image -> bbox -> list plate.
Variable crop_plate : image -> bbox -> image.
Variable readtext : image -> option (list PlateOCR.ocr_result).
Variable preprocess_plate : image -> option image.
Variable convertScaleAbs : image -> Q -> Z -> image.

Local Abbreviation pipeline := (EntryPipeline.EntryPipeline).
Local Abbreviation read_frame :=
  (read_frame image detect_vehicles detect_in_roi crop_plate readtext
              preprocess_plate convertScaleAbs).
Local Abbreviation process_frame :=
  (process_frame image detect_vehicles detect_in_roi crop_plate readtext
                 preprocess_plate convertScaleAbs).

(** The frame is the next one the pipeline looks at, and its validated
    plate text is [plate_text]. *)
Definition reads (p : pipeline) (frame : image) (plate_text : text) : Prop :=
  FRAME_SKIP (config p) <> 0
  /\ (frame_count p + 1) mod FRAME_SKIP (config p) = 0
  /\ exists vehicle plate plate_image,
      read_frame (count_frame p) frame
      = Some (vehicle, plate, plate_image, plate_text).

(** What the duplicate gate does with a frame that [reads]. *)
Lemma process_read_frame p frame plate_text current_time response :
  reads p frame plate_text ->
  let '(out, p') := process_frame current_time response frame p in
  if is_duplicate p plate_text current_time
  then out = Returned image None /\ p' = count_frame p
  else (exists r, out = Returned image (Some r)
                  /\ plate_number image r = plate_text
                  /\ timestamp image r = current_time)
       /\ p' = remember plate_text current_time (count_frame p).
Proof.
  intros (Hskip & Hmod & vehicle & plate & plate_image & Hread).
  unfold EntryPipeline.process_frame.
  change (FRAME_SKIP (config (count_frame p))) with (FRAME_SKIP (config p)).
  change (frame_count (count_frame p)) with (frame_count p + 1).
  rewrite (proj2 (Z.eqb_neq _ _) Hskip), Hmod, Hread. simpl.
  change (is_duplicate (count_frame p) plate_text current_time)
    with (is_duplicate p plate_text current_time).
  destruct (is_duplicate p plate_text current_time).
  - split; reflexivity.
  - split; [eexists; repeat split | reflexivity].
Qed.

(** The part of C4 that holds: up to one day after the last accepted
    plate, a repeat of its text is suppressed exactly while less than
    ten seconds have passed, and a different text is never
    suppressed. *)
Lemma duplicate_gate_within_a_day p plate_text last current_time :
  last_processed_time p = Some last ->
  0 <= current_time - last < day ->
  is_duplicate p plate_text current_time
  = bool_decide (last_processed_plate p = Some plate_text)
    && (current_time - last <? seconds 10).
Proof.
  intros Hl Hd. unfold is_duplicate. rewrite Hl.
  rewrite timedelta_seconds_within_day by exact Hd.
  f_equal. unfold seconds.
  destruct (Z.ltb_spec ((current_time - last) / 1000000) 10) as [H | H];
    destruct (Z.ltb_spec (current_time - last) (10 * 1000000)) as [H' | H'];
    try reflexivity; exfalso.
  - assert (10 <= (current_time - last) / 1000000)
      by (apply Z.div_le_lower_bound; lia).
    lia.
  - assert ((current_time - last) / 1000000 < 10)
      by (apply Z.div_lt_upper_bound; lia).
    lia.
Qed.

Lemma different_text_not_duplicate p plate_text current_time :
  last_processed_plate p <> Some plate_text ->
  is_duplicate p plate_text current_time = false.
Proof.
  intros H. unfold is_duplicate. rewrite bool_decide_eq_false_2 by exact H.
  reflexivity.
Qed.

(** C4, where the code departs from it.  The gate compares the seconds
    field of the elapsed time, which drops whole days: a repeat of the
    remembered text that arrives one day and less than ten seconds
    after it was accepted produces no event and leaves the remembered
    pair as it was, although ten seconds and more have passed. *)
Theorem duplicate_gate_wraps_after_a_day p frame plate_text last delta response :
  reads p frame plate_text ->
  last_processed_plate p = Some plate_text ->
  last_processed_time p = Some last ->
  0 <= delta < seconds 10 ->
  process_frame (last + day + delta) response frame p
  = (Returned image None, count_frame p).
Proof.
  intros Hr Hp Hl Hd.
  pose proof (process_read_frame p frame plate_text (last + day + delta)
                response Hr) as H.
  destruct (process_frame (last + day + delta) response frame p) as [out p'].
  assert (E : is_duplicate p plate_text (last + day + delta) = true).
  { unfold is_duplicate. rewrite Hp, Hl.
    rewrite bool_decide_eq_true_2 by reflexivity.
    replace (last + day + delta - last) with (delta + day) by ring.
    rewrite timedelta_seconds_periodic, timedelta_seconds_within_day
      by (unfold day, seconds in *; lia).
    apply Z.ltb_lt, Z.div_lt_upper_bound; unfold seconds in Hd; lia. }
  rewrite E in H. destruct H as [-> ->]. reflexivity.
Qed.
End Pipeline.

(** A camera at the gate: every frame shows the same car, whose plate the
    three OCR attempts of [PlateOCRFacts] read as KA01AB12. *)
Definition demo_vehicles (frame : nat) : list vehicle :=
  [ {| vehicle_bbox := (0, 0, 100, 50); vehicle_confidence := 9 # 10;
       class_id := 2; class_name := "car" |} ].
Definition demo_plates (frame : nat) (roi : bbox) : list plate :=
  [ {| plate_bbox := (10, 10, 60, 30); plate_confidence := 8 # 10 |} ].
Definition demo_config : Config :=
  {| OCR_CONFIDENCE_THRESHOLD := 7 # 10; FRAME_SKIP := 5 |}.

Definition demo_process (current_time : Z) :=
  process_frame nat demo_vehicles demo_plates (fun _ _ => 0%nat)
                PlateOCRFacts.demo_readtext (fun i => Some (S i))
                (fun i _ _ => (i + 10)%nat)
                current_time (responded "ok") 0%nat.

(** The pipeline four frames after it accepted KA01AB12 at time 0. *)
Definition demo_pipeline : EntryPipeline.EntryPipeline :=
  {| config := demo_config; frame_count := 4;
     last_processed_plate := Some (txt "KA01AB12");
     last_processed_time := Some 0 |}.

Lemma duplicate_gate_wraps_after_a_day_witness :
  demo_process (0 + day + seconds 3) demo_pipeline
  = (Returned nat None, count_frame demo_pipeline).
Proof.
  apply (duplicate_gate_wraps_after_a_day nat demo_vehicles demo_plates
           (fun _ _ => 0%nat) PlateOCRFacts.demo_readtext (fun i => Some (S i))
           (fun i _ _ => (i + 10)%nat)
           demo_pipeline 0%nat (txt "KA01AB12") 0 (seconds 3) (responded "ok"));
    [ split; [discriminate | split; [reflexivity |]];
      eexists _, _, _; vm_compute; reflexivity
    | reflexivity | reflexivity | split; [discriminate | reflexivity] ].
Defined.

(** The same repeat three seconds and thirty seconds after the
    acceptance: suppressed, then processed. *)
Example duplicate_gate_same_day :
  fst (demo_process (seconds 3) demo_pipeline) = Returned nat None
  /\ last_processed_time (snd (demo_process (seconds 3) demo_pipeline))
     = Some 0
  /\ last_processed_time (snd (demo_process (seconds 30) demo_pipeline))
     = Some (seconds 30).
Proof. vm_compute. repeat split; reflexivity. Qed.
End EntryPipelineFacts.

(** ** Camera worker loop *)

Module CameraManagerFacts.
Import CameraManager.

Section Worker.
Variable frame : Type.

Local Abbreviation pass := (CameraManager.pass frame).
Local Abbreviation worker := (CameraManager.worker frame).
Local Abbreviation loop := (CameraManager.loop frame).
Local Abbreviation loop_body := (CameraManager.loop_body frame).

(** The frame interval has elapsed: the pass gets as far as the read. *)
Definition due (frame_interval : Q) (e : pass) (w : worker) : Prop :=
  Py.Qltb (current_time frame e - last_frame_time frame w) frame_interval = false.

Lemma loop_body_passes frame_interval e w :
  passes frame (loop_body frame_interval e w) = S (passes frame w).
Proof.
  unfold CameraManager.loop_body. cbv zeta.
  destruct (Py.Qltb _ _); [reflexivity|].
  destruct (read frame e); [destruct (processing_raises frame e)| |]; reflexivity.
Qed.

(** While the stop flag is clear the loop makes every pass. *)
Lemma loop_runs_every_pass frame_interval es : forall w,
  Forall (fun e => stop_set frame e = false) es ->
  fst (loop frame_interval es w) = false
  /\ passes frame (snd (loop frame_interval es w))
     = (passes frame w + length es)%nat.
Proof.
  induction es as [|e es IH]; intros w H; simpl.
  - split; [reflexivity | lia].
  - inversion H as [|? ? He Hes]; subst. rewrite He.
    destruct (IH (loop_body frame_interval e w) Hes) as [H1 H2].
    split; [exact H1|]. rewrite H2, loop_body_passes. lia.
Qed.

(** The loop leaves only at a pass that finds the stop flag set. *)
Lemma loop_leaves_on_stop frame_interval es : forall w,
  fst (loop frame_interval es w) = true ->
  Exists (fun e => stop_set frame e = true) es.
Proof.
  induction es as [|e es IH]; intros w; simpl; [discriminate|].
  destruct (stop_set frame e) eqn:E.
  - intros _. constructor. exact E.
  - intros H. apply Exists_cons_tl, (IH _ H).
Qed.

(** What the loop does with a failed read.  A frame-read failure never
    ends the worker loop: the loop leaves only at a pass that finds the
    stop flag set, and while the flag is clear it makes every pass.  A
    read that yields no frame is logged and the loop goes on to the next
    pass at once; the one-second sleep belongs to the exception handler,
    which a read that raises reaches. *)
Theorem read_failure_keeps_worker_running (frame_interval : Q) :
  (forall es w,
      fst (loop frame_interval es w) = true ->
      Exists (fun e => stop_set frame e = true) es)
  /\ (forall es w,
      Forall (fun e => stop_set frame e = false) es ->
      fst (loop frame_interval es w) = false
      /\ passes frame (snd (loop frame_interval es w))
         = (passes frame w + length es)%nat)
  /\ (forall e w,
      due frame_interval e w -> read frame e = read_failed frame ->
      loop_body frame_interval e w
      = emit frame [log_warning frame] (count_pass frame w))
  /\ (forall e w,
      due frame_interval e w -> read frame e = read_raised frame ->
      loop_body frame_interval e w
      = emit frame [log_error frame; sleep frame 1] (count_pass frame w)).
Proof.
  split; [|split; [|split]].
  - intros es w. apply loop_leaves_on_stop.
  - intros es w. apply loop_runs_every_pass.
  - intros e w Hd Hr. unfold CameraManager.loop_body. cbv zeta.
    change (last_frame_time frame (count_pass frame w))
      with (last_frame_time frame w).
    unfold due in Hd. rewrite Hd, Hr. reflexivity.
  - intros e w Hd Hr. unfold CameraManager.loop_body. cbv zeta.
    change (last_frame_time frame (count_pass frame w))
      with (last_frame_time frame w).
    unfold due in Hd. rewrite Hd, Hr. reflexivity.
Qed.

(** On a dead stream the loop spins: however many reads in a row yield no
    frame, the worker logs one warning for each and never sleeps, and the
    last-frame time stays where it was. *)
Lemma dead_stream_never_sleeps (frame_interval : Q) (es : list pass) : forall w,
  Forall (fun e => stop_set frame e = false
                   /\ read frame e = read_failed frame
                   /\ due frame_interval e w) es ->
  let w' := snd (loop frame_interval es w) in
  trace frame w' = trace frame w ++ repeat (log_warning frame) (length es)
  /\ last_frame_time frame w' = last_frame_time frame w.
Proof.
  induction es as [|e es IH]; intros w H; simpl.
  - rewrite app_nil_r. auto.
  - inversion H as [|? ? (Hs & Hr & Hd) Hes]; subst. rewrite Hs.
    destruct read_failure_keeps_worker_running with (frame_interval := frame_interval)
      as (_ & _ & Hfail & _).
    rewrite (Hfail e w Hd Hr).
    destruct (IH (emit frame [log_warning frame] (count_pass frame w))) as [Ht Hl].
    + revert Hes. apply List.Forall_impl. intros e' (? & ? & ?). auto.
    + simpl in *. rewrite Ht, Hl, <- app_assoc. auto.
Qed.
End Worker.

(** A camera at 10 frames a second whose stream is dead: three passes,
    a millisecond apart, each finding no frame. *)
Definition dead_camera : CameraStream :=
  {| camera_id := 1; camera_code := "ENTRY_01"; rtsp_url := "rtsp://gate/1";
     role := "ENTRY"; floor_id := None; is_active := true; fps := 10 |}.

Definition no_frame (t : Q) : CameraManager.pass unit :=
  {| stop_set := false; current_time := t; read := read_failed unit;
     processing_raises := false |}.

(** C8, where the code departs from it.  On repeated read failures the
    claim has the loop back off by sleeping about a second before it
    retries.  Here three reads in a row yield no frame, the stop flag being
    clear: the loop is still running after them (the half of the claim that
    holds), but the three reads follow one another with no sleep in
    between.  The worker's whole trace is three warnings, and the
    last-frame time has not moved, so the throttle does not hold back the
    next read either. *)
Lemma repeated_read_failures_never_sleep :
  option_map (fun '(gone, w) => (gone, passes unit w, trace unit w,
                                 last_frame_time unit w))
             (_process_camera_stream unit dead_camera
                [no_frame 100; no_frame (100001 # 1000);
                 no_frame (100002 # 1000)])
  = Some (false, 3%nat,
          [log_warning unit; log_warning unit; log_warning unit], 0%Q).
Proof. vm_compute. reflexivity. Qed.
End CameraManagerFacts.

(** ** Slices and [enumerate] *)

Module PyFacts.

Lemma slice_length {A} (a b : Z) (l : list A) :
  0 <= a -> 0 <= b <= Z.of_nat (length l) ->
  length (Py.slice a b l) = Z.to_nat (b - a).
Proof.
  intros Ha Hb. unfold Py.slice, Py.slice_index.
  destruct (Z.ltb_spec a 0); [lia|]. destruct (Z.ltb_spec b 0); [lia|].
  rewrite length_firstn, length_skipn. lia.
Qed.

Lemma slice_nth {A} (a b : Z) (l : list A) (k : nat) :
  0 <= a -> 0 <= b <= Z.of_nat (length l) ->
  nth_error (Py.slice a b l) k
  = if Z.of_nat k <? b - a then nth_error l (Z.to_nat a + k) else None.
Proof.
  intros Ha Hb. unfold Py.slice, Py.slice_index.
  destruct (Z.ltb_spec a 0); [lia|]. destruct (Z.ltb_spec b 0); [lia|].
  rewrite nth_error_firstn, nth_error_skipn.
  destruct (Z.ltb_spec (Z.of_nat k) (b - a)) as [Hk | Hk].
  - replace (Z.min b _) with b by lia. replace (Z.min a _) with a by lia.
    destruct (Nat.ltb_spec k (Z.to_nat (b - a))); [reflexivity | lia].
  - destruct (Nat.ltb_spec k (Z.to_nat (Z.min b (Z.of_nat (length l))
                                         - Z.min a (Z.of_nat (length l)))));
      [lia | reflexivity].
Qed.

Lemma enumerate_snd {A} (l : list A) : map snd (Py.enumerate l) = l.
Proof.
  unfold Py.enumerate. generalize 0%nat.
  induction l as [|x l IH]; intros n; simpl; [reflexivity|].
  rewrite IH. reflexivity.
Qed.

End PyFacts.

Module DispatchFacts.
Import CvService CvServiceFacts.

(** X1.  Handling a detection of one (gate, plate) pair neither starts nor ends
    the cooldown of another pair. *)
Theorem other_pair_keeps_its_cooldown g running t_check t_store d s g' p' t :
  (g, plate_of d) <> (g', p') ->
  within_cooldown (handle g running t_check t_store d s)
                  (rate_key (detection_type g') p') t
  = within_cooldown s (rate_key (detection_type g') p') t.
Proof.
  intros Hne. unfold within_cooldown.
  rewrite handle_other_key, (proj2 (handle_keeps_settings _ _ _ _ _ _)).
  - reflexivity.
  - intros H. apply rate_key_injective in H as [-> ->]. congruence.
Qed.

Lemma other_pair_keeps_its_cooldown_witness :
  let s := set_last_api_call (rate_key "exit" "KA01AB1234") 0 service0 in
  within_cooldown (handle ENTRY true (seconds 1) (seconds 1)
                          (detection (9 # 10)) s)
                  (rate_key (detection_type EXIT) "KA01AB1234") (seconds 3)
  = within_cooldown s (rate_key (detection_type EXIT) "KA01AB1234") (seconds 3).
Proof.
  intros s.
  apply (other_pair_keeps_its_cooldown ENTRY true (seconds 1) (seconds 1)
           (detection (9 # 10)) s EXIT "KA01AB1234" (seconds 3)).
  discriminate.
Defined.

(** X2.  A sub-threshold reading takes the rate-limit slot of its plate: a
    reading of the same plate that follows within the cooldown is dropped
    with no backend call, however confident it is. *)
Theorem low_confidence_blocks_next_reading running running' t1 t1_store t2 t2_store
        d_low d_next s p :
  license_plate d_low = Some p -> license_plate d_next = Some p ->
  p <> ""%string ->
  Py.Qltb (read_confidence d_low) (plate_confidence_threshold (config s)) = true ->
  within_cooldown s (rate_key "entry" p) t1 = false ->
  t2 - t1_store < api_cooldown s ->
  let s1 := _handle_entry_detection running t1 t1_store d_low s in
  let s2 := _handle_entry_detection running' t2 t2_store d_next s1 in
  tasks s1 = tasks s /\ s2 = s1.
Proof.
  intros Hp Hp' Hne Hlow Hw Ht s1 s2.
  assert (E1 : s1 = set_stats (count_failed (stats s))
                      (set_last_api_call (rate_key "entry" p) t1_store s)).
  { unfold s1, _handle_entry_detection, plate_of.
    rewrite Hp, (no_plate_some p Hne), rate_limited_spec, Hw.
    fold (read_confidence d_low). simpl. rewrite Hlow. reflexivity. }
  split; [rewrite E1; reflexivity|].
  apply (handle_within_cooldown ENTRY running' t2 t2_store d_next s1 p Hp' Hne).
  rewrite E1. unfold within_cooldown. simpl. rewrite lookup_insert_eq.
  apply Z.ltb_lt, Ht.
Qed.

Lemma low_confidence_blocks_next_reading_witness :
  let s1 := _handle_entry_detection true 0 0 (detection (4 # 10)) service0 in
  let s2 := _handle_entry_detection true (seconds 3) (seconds 3)
                                    (detection (95 # 100)) s1 in
  tasks s1 = tasks service0 /\ s2 = s1.
Proof.
  apply (low_confidence_blocks_next_reading true true 0 0 (seconds 3) (seconds 3)
           (detection (4 # 10)) (detection (95 # 100)) service0 "KA01AB1234");
    [reflexivity | reflexivity | discriminate | reflexivity | reflexivity
     | reflexivity].
Defined.

(** Everything that happens to the service once it is built. *)
Inductive event :=
| detected (g : gate) (loop_running : bool) (t_check t_store : Z)
           (d : detection_data)
| occupancy_detected (d : detection_data)
| entry_call_done (response : option Z)
| exit_call_done (response : option Z)
| statistics_reset (now : Z).

Definition step (s : CVParkingService) (e : event) : CVParkingService :=
  match e with
  | detected g running t_check t_store d => handle g running t_check t_store d s
  | occupancy_detected d => _handle_occupancy_detection d s
  | entry_call_done response => _call_entry_api response s
  | exit_call_done response => _call_exit_api response s
  | statistics_reset now => reset_statistics now s
  end.

Definition run (es : list event) (s : CVParkingService) : CVParkingService :=
  fold_left step es s.

Lemma step_total_detections s e :
  total_detections (stats s) = 0 -> total_detections (stats (step s e)) = 0.
Proof.
  intros H. destruct e as [g running tc ts d | d | r | r | now]; simpl.
  - handler_paths g. destruct (Py.Qltb _ _), running; simpl; auto.
    destruct running; auto.
  - exact H.
  - destruct r as [st|]; simpl; [destruct (st =? 201)|]; exact H.
  - destruct r as [st|]; simpl; [destruct (st =? 200)|]; exact H.
  - reflexivity.
Qed.

(** X3.  The counter [total_detections] is never counted up: whatever the
    service handles after it is built, detections, completed backend calls
    and resets, the counter reads 0. *)
Theorem total_detections_stays_zero config now (es : list event) :
  total_detections (stats (run es (init config now))) = 0.
Proof.
  unfold run.
  assert (H : total_detections (stats (init config now)) = 0) by reflexivity.
  revert H. generalize (init config now).
  induction es as [|e es IH]; intros s H; simpl; [exact H|].
  apply IH, step_total_detections, H.
Qed.

End DispatchFacts.

Module SlotTrackingFacts.
Import SlotDetector SlotTracking PyFacts OccupancyFacts.

(** *** The slot-id scheme *)

Definition on_floor (floor : string) : Prop := floor = "A"%string \/ floor = "B"%string.
Definition of_type (ty : string) : Prop := ty = "CAR"%string \/ ty = "BIKE"%string.

(** X5.  The id scheme is injective as long as no type has more than 100
    slots on a floor: two slots of floors A or B and of types CAR or BIKE,
    numbered between 1 and 100, have the same id only when they are the
    same slot. *)
Theorem slot_id_injective_within_capacity floor ty n floor' ty' n' :
  on_floor floor -> on_floor floor' -> of_type ty -> of_type ty' ->
  1 <= n <= 100 -> 1 <= n' <= 100 ->
  _calculate_slot_id floor ty n = _calculate_slot_id floor' ty' n' ->
  floor = floor' /\ ty = ty' /\ n = n'.
Proof.
  intros [-> | ->] [-> | ->] [-> | ->] [-> | ->] Hn Hn';
    unfold _calculate_slot_id; simpl; intros H;
    repeat split; try reflexivity; lia.
Qed.

Lemma slot_id_injective_within_capacity_witness :
  "A"%string = "A"%string /\ "CAR"%string = "CAR"%string /\ 7 = 7.
Proof.
  apply (slot_id_injective_within_capacity "A" "CAR" 7 "A" "CAR" 7);
    [left; reflexivity | left; reflexivity | left; reflexivity | left; reflexivity
     | lia | lia | reflexivity].
Defined.

(** Beyond the capacity the scheme collides: the 101st car slot of floor A
    has the id of its first bike slot, and a floor the scheme does not
    know shares the ids of floor B. *)
Example slot_id_collisions :
  _calculate_slot_id "A" "CAR" 101 = _calculate_slot_id "A" "BIKE" 1
  /\ _calculate_slot_id "C" "CAR" 1 = _calculate_slot_id "B" "CAR" 1.
Proof. split; reflexivity. Qed.

(** *** The generated regions *)

Definition inside (width height : Z) (r : SlotROI) : Prop :=
  let '(x, y, w, h) := coordinates r in
  0 <= x /\ 0 <= y /\ 0 < w /\ 0 < h /\ x + w <= width /\ y + h <= height.

Definition apart (r1 r2 : SlotROI) : Prop :=
  let '(x1, y1, w1, h1) := coordinates r1 in
  let '(x2, y2, w2, h2) := coordinates r2 in
  x1 + w1 <= x2 \/ x2 + w2 <= x1 \/ y1 + h1 <= y2 \/ y2 + h2 <= y1.

Lemma range_4 (a : Z) : Py.range a (a + 4) = [a; a + 1; a + 2; a + 3].
Proof.
  unfold Py.range. replace (a + 4 - a) with 4 by lia. simpl.
  rewrite Z.add_0_r. reflexivity.
Qed.

Lemma range_8 (a : Z) :
  Py.range a (a + 8) = [a; a + 1; a + 2; a + 3; a + 4; a + 5; a + 6; a + 7].
Proof.
  unfold Py.range. replace (a + 8 - a) with 8 by lia. simpl.
  rewrite Z.add_0_r. reflexivity.
Qed.

Lemma car_rois_eq camera floor cam_num :
  let a := (cam_num - 1) * 4 + 1 in
  _generate_car_slot_rois camera floor cam_num
  = map (fun '(i, slot_num) =>
           {| slot_id := _calculate_slot_id floor "CAR" slot_num;
              slot_code := (floor ++ "-C-" ++ Py.fmt_02d slot_num)%string;
              coordinates := (50 + i * 130, 100, 120, 200);
              vehicle_type := "CAR";
              camera_id := camera |})
        [(0, a); (1, a + 1); (2, a + 2); (3, a + 3)].
Proof.
  intros a. unfold _generate_car_slot_rois. cbv zeta. fold a. rewrite range_4.
  reflexivity.
Qed.

Lemma bike_rois_eq camera floor cam_num :
  let a := (cam_num - 1) * 8 + 1 in
  _generate_bike_slot_rois camera floor cam_num
  = map (fun '(i, slot_num) =>
           {| slot_id := _calculate_slot_id floor "BIKE" slot_num;
              slot_code := (floor ++ "-B-" ++ Py.fmt_02d slot_num)%string;
              coordinates := (30 + (i mod 4) * 70, 80 + (i / 4) * (120 + 20), 60, 120);
              vehicle_type := "BIKE";
              camera_id := camera |})
        [(0, a); (1, a + 1); (2, a + 2); (3, a + 3);
         (4, a + 4); (5, a + 5); (6, a + 6); (7, a + 7)].
Proof.
  intros a. unfold _generate_bike_slot_rois. cbv zeta. fold a. rewrite range_8.
  reflexivity.
Qed.

Ltac each_region :=
  repeat first [apply List.Forall_nil | apply List.Forall_cons | apply FOP_nil | apply FOP_cons];
  unfold inside, apart; cbn [coordinates camera_id vehicle_type];
  repeat split; try reflexivity; Z.div_mod_to_equations; lia.

(** X6.  Whatever camera, floor and camera number the generators are
    given, a car camera gets four regions and a bike camera eight; the
    regions carry the id of the camera and consecutive slot numbers from
    4 (cam - 1) + 1, or 8 (cam - 1) + 1; they lie inside a frame of 640
    by 480 pixels and no two of them overlap. *)
Theorem generated_regions_fit_and_are_apart (camera : Z) (floor : string) (cam_num : Z) :
  let cars := _generate_car_slot_rois camera floor cam_num in
  let bikes := _generate_bike_slot_rois camera floor cam_num in
  map slot_id cars
  = map (fun k => _calculate_slot_id floor "CAR" ((cam_num - 1) * 4 + k)) [1; 2; 3; 4]
  /\ map slot_id bikes
     = map (fun k => _calculate_slot_id floor "BIKE" ((cam_num - 1) * 8 + k))
           [1; 2; 3; 4; 5; 6; 7; 8]
  /\ Forall (fun r => camera_id r = camera /\ vehicle_type r = "CAR"%string
                      /\ inside 640 480 r) cars
  /\ Forall (fun r => camera_id r = camera /\ vehicle_type r = "BIKE"%string
                      /\ inside 640 480 r) bikes
  /\ ForallOrdPairs apart cars
  /\ ForallOrdPairs apart bikes.
Proof.
  intros cars bikes. unfold cars, bikes. rewrite car_rois_eq, bike_rois_eq.
  cbv zeta. cbn [map].
  split; [|split; [|split; [|split; [|split]]]].
  - cbn [slot_id]. rewrite <- !Z.add_assoc. reflexivity.
  - cbn [slot_id]. rewrite <- !Z.add_assoc. reflexivity.
  - each_region.
  - each_region.
  - each_region.
  - each_region.
Qed.

(** *** One pass over a camera *)

Section Detect.
Variable cvtColor_BGR2GRAY : image -> gray.
Variable Canny : gray -> Z -> Z -> gray.

Local Abbreviation check := (_check_slot_occupancy cvtColor_BGR2GRAY Canny).
Local Abbreviation score := (_calculate_occupancy_score cvtColor_BGR2GRAY Canny).
Local Abbreviation detect := (detect_slot_occupancy cvtColor_BGR2GRAY Canny).
Local Abbreviation body := (check_and_track cvtColor_BGR2GRAY Canny).

(** The statuses of a pass, the store after it and the lines it logs. *)
Definition statuses (d : SlotOccupancyDetector) (clock : Z -> Z) (frame : image)
           (bg_mask : gray) (entries : list (Z * SlotROI)) : list SlotStatus :=
  map (fun '(i, r) => check d (clock i) frame bg_mask r) entries.

Definition remember_all (sts : list SlotStatus) (m : gmap Z SlotStatus)
  : gmap Z SlotStatus :=
  fold_left (fun m st => <[status_slot_id st := st]> m) sts m.

Definition change_of (m : gmap Z SlotStatus) (st : SlotStatus) : list status_change :=
  match m !! status_slot_id st with
  | Some prev =>
      if negb (Bool.eqb (is_occupied prev) (is_occupied st))
      then [{| changed_slot := status_slot_id st;
               was_occupied := is_occupied prev;
               now_occupied := is_occupied st;
               logged_confidence := confidence st |}]
      else []
  | None => []
  end.

Fixpoint changes (m : gmap Z SlotStatus) (sts : list SlotStatus) : list status_change :=
  match sts with
  | [] => []
  | st :: sts' => change_of m st ++ changes (<[status_slot_id st := st]> m) sts'
  end.

Lemma check_set_previous st d now frame bg_mask r :
  check (set_previous st d) now frame bg_mask r = check d now frame bg_mask r.
Proof. reflexivity. Qed.

Lemma check_same_threshold d d' now frame bg_mask r :
  occupancy_threshold d' = occupancy_threshold d ->
  check d' now frame bg_mask r = check d now frame bg_mask r.
Proof.
  intros E. unfold _check_slot_occupancy.
  destruct (coordinates r) as [[[x y] w] h]. rewrite E. reflexivity.
Qed.

Lemma fold_check_and_track clock frame bg_mask entries :
  forall sts0 d log,
    fold_left (body clock frame bg_mask) entries (sts0, d, log)
    = (sts0 ++ statuses d clock frame bg_mask entries,
       set_camera_rois (camera_rois d)
         {| motion_threshold := motion_threshold d;
            occupancy_threshold := occupancy_threshold d;
            camera_rois := camera_rois d;
            bg_subtractors := bg_subtractors d;
            previous_statuses :=
              remember_all (statuses d clock frame bg_mask entries)
                           (previous_statuses d) |},
       log ++ changes (previous_statuses d)
                      (statuses d clock frame bg_mask entries)).
Proof.
  induction entries as [|[i r] entries IH]; intros sts0 d log.
  - simpl. rewrite !app_nil_r. destruct d; reflexivity.
  - cbn [fold_left]. unfold check_and_track at 2. cbn [_track_status_change].
    set (st := check d (clock i) frame bg_mask r).
    unfold _track_status_change. rewrite IH.
    cbn [statuses map]. fold st.
    assert (E : statuses (set_previous st d) clock frame bg_mask entries
                = statuses d clock frame bg_mask entries) by reflexivity.
    unfold statuses in E |- *. rewrite E.
    rewrite <- !app_assoc. cbn [app changes remember_all fold_left].
    unfold change_of. cbn [set_previous previous_statuses set_camera_rois
                             motion_threshold occupancy_threshold camera_rois
                             bg_subtractors].
    destruct (previous_statuses d !! status_slot_id st) as [prev|];
      [destruct (negb _)|]; rewrite <- ?app_assoc; reflexivity.
Qed.

Lemma detect_spec clock subtracted camera frame d :
  detect clock subtracted camera frame d
  = match camera_rois d !! camera with
    | None => ([], d, [])
    | Some rois =>
        let bg_mask := _apply_background_subtraction subtracted camera frame d in
        let sts := statuses d clock frame bg_mask (Py.enumerate rois) in
        (sts,
         {| motion_threshold := motion_threshold d;
            occupancy_threshold := occupancy_threshold d;
            camera_rois := camera_rois d;
            bg_subtractors := bg_subtractors d;
            previous_statuses := remember_all sts (previous_statuses d) |},
         changes (previous_statuses d) sts)
    end.
Proof.
  unfold detect_slot_occupancy.
  destruct (camera_rois d !! camera) as [rois|]; [|reflexivity].
  cbv zeta. rewrite fold_check_and_track. reflexivity.
Qed.

Lemma statuses_ids d clock frame bg_mask entries :
  map status_slot_id (statuses d clock frame bg_mask entries)
  = map slot_id (map snd entries).
Proof.
  induction entries as [|[i r] entries IH]; simpl; [reflexivity|].
  rewrite IH. f_equal. unfold _check_slot_occupancy.
  destruct (coordinates r) as [[[x y] w] h]. reflexivity.
Qed.

Lemma check_sound d now frame bg_mask r :
  let st := check d now frame bg_mask r in
  (0 <= confidence st)%Q /\ (confidence st <= 1)%Q
  /\ is_occupied st = Py.Qltb (occupancy_threshold d) (confidence st).
Proof.
  intros st.
  pose proof (check_fields cvtColor_BGR2GRAY Canny d now frame bg_mask r) as H.
  destruct (coordinates r) as [[[x y] w] h]. cbv zeta in H. fold st in H.
  destruct H as (Hc & Ho & _).
  destruct (score_in_unit_interval cvtColor_BGR2GRAY Canny
              (crop x y w h frame) (crop x y w h bg_mask)) as [H0 H1].
  rewrite <- Hc in H0, H1. auto.
Qed.

(** X7.  One pass over a camera returns one status for each region filed
    under the camera, in the order of the regions and with their slot ids
    (none at all for a camera the detector does not know); every status
    has a confidence between 0 and 1 and reports its slot occupied exactly
    when the confidence exceeds the occupancy threshold; and the pass
    leaves the layout and the occupancy threshold of the detector alone.
    (The background model of the camera's subtractor does change with
    every pass; it is no part of this statement.) *)
Theorem detect_reports_each_region clock subtracted camera frame d :
  let '(sts, d', log) :=
    detect_slot_occupancy cvtColor_BGR2GRAY Canny clock subtracted camera frame d in
  map status_slot_id sts = map slot_id (default [] (camera_rois d !! camera))
  /\ Forall (fun st =>
               ((0 <= confidence st)%Q /\ (confidence st <= 1)%Q)
               /\ is_occupied st
                  = Py.Qltb (occupancy_threshold d) (confidence st)) sts
  /\ camera_rois d' = camera_rois d
  /\ occupancy_threshold d' = occupancy_threshold d.
Proof.
  rewrite detect_spec.
  destruct (camera_rois d !! camera) as [rois|]; simpl.
  - split; [rewrite statuses_ids, enumerate_snd; reflexivity|].
    split; [|auto].
    unfold statuses. apply List.Forall_forall. intros st Hin.
    apply in_map_iff in Hin as ([i r] & <- & _).
    destruct (check_sound d (clock i) frame
                (_apply_background_subtraction subtracted camera frame d) r)
      as (H1 & H2 & H3).
    auto.
  - repeat split; constructor.
Qed.

Lemma remember_all_other sts : forall m k,
  ~ In k (map status_slot_id sts) -> remember_all sts m !! k = m !! k.
Proof.
  induction sts as [|st sts IH]; intros m k Hk; simpl; [reflexivity|].
  simpl in Hk. rewrite IH by tauto.
  apply lookup_insert_ne. tauto.
Qed.

Lemma remember_all_mem sts : forall m,
  List.NoDup (map status_slot_id sts) ->
  Forall (fun st => remember_all sts m !! status_slot_id st = Some st) sts.
Proof.
  induction sts as [|st sts IH]; intros m Hnd; simpl; constructor.
  - inversion Hnd; subst. rewrite remember_all_other by assumption.
    apply lookup_insert_eq.
  - inversion Hnd; subst. apply IH. assumption.
Qed.

(** X8.  When the regions of the camera have distinct slot ids, the
    detector remembers after a pass exactly the statuses the pass
    returned, each under its slot id, and what it remembered of every
    other slot is as before. *)
Theorem detect_remembers_what_it_returns clock subtracted camera frame d rois :
  camera_rois d !! camera = Some rois ->
  NoDup (map slot_id rois) ->
  let '(sts, d', log) :=
    detect_slot_occupancy cvtColor_BGR2GRAY Canny clock subtracted camera frame d in
  Forall (fun st => previous_statuses d' !! status_slot_id st = Some st) sts
  /\ forall k, ~ In k (map slot_id rois) ->
               previous_statuses d' !! k = previous_statuses d !! k.
Proof.
  intros Hr Hnd. apply NoDup_ListNoDup in Hnd. rewrite detect_spec, Hr. cbv zeta.
  set (sts := statuses _ _ _ _ _).
  assert (Hids : map status_slot_id sts = map slot_id rois)
    by (unfold sts; rewrite statuses_ids, enumerate_snd; reflexivity).
  split.
  - apply remember_all_mem. rewrite Hids. exact Hnd.
  - intros k Hk. apply remember_all_other. rewrite Hids. exact Hk.
Qed.

Lemma change_of_insert_other m st0 sts :
  ~ In (status_slot_id st0) (map status_slot_id sts) ->
  flat_map (change_of (<[status_slot_id st0 := st0]> m)) sts
  = flat_map (change_of m) sts.
Proof.
  induction sts as [|st sts IH]; intros Hn; simpl; [reflexivity|].
  simpl in Hn. rewrite IH by tauto. f_equal. unfold change_of.
  rewrite lookup_insert_ne; [reflexivity | intuition congruence].
Qed.

Lemma changes_nodup sts : forall m,
  List.NoDup (map status_slot_id sts) ->
  changes m sts = flat_map (change_of m) sts.
Proof.
  induction sts as [|st sts IH]; intros m Hnd; simpl; [reflexivity|].
  inversion Hnd as [|? ? Hn Hnd']; subst. rewrite IH by assumption.
  rewrite change_of_insert_other by assumption. reflexivity.
Qed.

(** X9.  The change log of a pass.  With distinct slot ids among the
    regions of the camera, a pass logs a line for a slot exactly when the
    detector remembered a status of the slot and the occupancy flag it
    remembered differs from the new one; the lines come in the order of
    the regions.  The first status of a slot is therefore never logged,
    occupied or not. *)
Theorem detect_logs_exactly_the_flips clock subtracted camera frame d rois :
  camera_rois d !! camera = Some rois ->
  NoDup (map slot_id rois) ->
  let '(sts, d', log) :=
    detect_slot_occupancy cvtColor_BGR2GRAY Canny clock subtracted camera frame d in
  log = flat_map (change_of (previous_statuses d)) sts
  /\ (Forall (fun r => previous_statuses d !! slot_id r = None) rois -> log = []).
Proof.
  intros Hr Hnd. apply NoDup_ListNoDup in Hnd. rewrite detect_spec, Hr. cbv zeta.
  set (sts := statuses _ _ _ _ _).
  assert (Hids : map status_slot_id sts = map slot_id rois)
    by (unfold sts; rewrite statuses_ids, enumerate_snd; reflexivity).
  assert (E : changes (previous_statuses d) sts
              = flat_map (change_of (previous_statuses d)) sts)
    by (apply changes_nodup; rewrite Hids; exact Hnd).
  split; [exact E|].
  intros Hnew. rewrite E.
  assert (Hall : Forall (fun st => previous_statuses d !! status_slot_id st = None) sts).
  { apply List.Forall_forall. intros st Hin.
    assert (Hi : In (status_slot_id st) (map slot_id rois))
      by (rewrite <- Hids; apply in_map, Hin).
    apply in_map_iff in Hi as (r & Er & Hr').
    rewrite <- Er. exact (proj1 (List.Forall_forall _ _) Hnew r Hr'). }
  clear E Hids. induction Hall as [|st l Hst _ IH]; [reflexivity|].
  simpl. unfold change_of at 1. rewrite Hst. exact IH.
Qed.

(** X10.  A uniform region with no edge in it, however much of it the mask
    calls foreground, stays at or below 0.4: at the default threshold, or
    any higher one, foreground alone never marks a slot occupied. *)
Theorem foreground_alone_never_occupies d now frame bg_mask r x y w h :
  coordinates r = (x, y, w, h) ->
  (edge_pixel_ratio cvtColor_BGR2GRAY Canny (crop x y w h frame) == 0)%Q ->
  (pixel_variance (crop x y w h frame) == 0)%Q ->
  (4 # 10 <= occupancy_threshold d)%Q ->
  let st := _check_slot_occupancy cvtColor_BGR2GRAY Canny d now frame bg_mask r in
  is_occupied st = false /\ Py.Qltb (4 # 10) (confidence st) = false.
Proof.
  intros Hc He Hv Ht st.
  pose proof (check_fields cvtColor_BGR2GRAY Canny d now frame bg_mask r) as H.
  rewrite Hc in H. cbv zeta in H. fold st in H. destruct H as (Hconf & Hocc & _).
  assert (Hle : (confidence st <= 4 # 10)%Q).
  { rewrite Hconf.
    destruct (Z.eq_dec (size3 (crop x y w h frame)) 0) as [E | E].
    - rewrite score_empty by exact E. discriminate.
    - rewrite (score_nonempty _ _ _ _ E).
      eapply Qle_trans; [apply Q.le_min_l|].
      unfold weighted. rewrite He, Hv.
      assert (Hf : (foreground_pixel_ratio (crop x y w h bg_mask) <= 1)%Q).
      { unfold foreground_pixel_ratio, ratio.
        pose proof (count_positive_bounds (crop x y w h bg_mask)) as [B0 B1].
        destruct (Z.eq_dec (size2 (crop x y w h bg_mask)) 0) as [Z0 | Z0].
        - rewrite Z0. assert (E0 : count_positive (crop x y w h bg_mask) = 0) by lia.
          rewrite E0. discriminate.
        - apply Qle_shift_div_r.
          + change 0%Q with (inject_Z 0). rewrite <- Zlt_Qlt. lia.
          + rewrite Qmult_1_l. rewrite <- Zle_Qle. exact B1. }
      assert (Em : (Qmin (0 / 1000) 1 == 0)%Q) by reflexivity.
      rewrite Em. lra. }
  split.
  - rewrite Hocc. apply Qltb_ge. eapply Qle_trans; [exact Hle | exact Ht].
  - apply Qltb_ge, Hle.
Qed.
End Detect.

Definition camera_1 : list SlotROI := _generate_car_slot_rois 1 "A" 1.

Lemma camera_1_filed : camera_rois default_detector !! 1 = Some camera_1.
Proof. vm_compute. reflexivity. Qed.

Lemma camera_1_distinct : NoDup (map slot_id camera_1).
Proof. apply (bool_decide_unpack _). vm_compute. exact I. Qed.

Lemma detect_remembers_what_it_returns_witness :
  let '(sts, d', log) :=
    detect_slot_occupancy first_channel threshold_edges (fun _ => 0) tiny_mask 1
                          tiny_frame default_detector in
  Forall (fun st => previous_statuses d' !! status_slot_id st = Some st) sts
  /\ forall k, ~ In k (map slot_id camera_1) ->
               previous_statuses d' !! k = previous_statuses default_detector !! k.
Proof.
  exact (detect_remembers_what_it_returns first_channel threshold_edges (fun _ => 0)
           tiny_mask 1 tiny_frame default_detector camera_1
           camera_1_filed camera_1_distinct).
Defined.

Lemma detect_logs_exactly_the_flips_witness :
  let '(sts, d', log) :=
    detect_slot_occupancy first_channel threshold_edges (fun _ => 0) tiny_mask 1
                          tiny_frame default_detector in
  log = flat_map (change_of (previous_statuses default_detector)) sts
  /\ (Forall (fun r => previous_statuses default_detector !! slot_id r = None)
             camera_1 -> log = []).
Proof.
  exact (detect_logs_exactly_the_flips first_channel threshold_edges (fun _ => 0)
           tiny_mask 1 tiny_frame default_detector camera_1
           camera_1_filed camera_1_distinct).
Defined.

(** A slot that was remembered free and is now seen occupied gets its
    line; one seen as it was remembered gets none. *)
Definition seen (slot : Z) (occupied : bool) : SlotStatus :=
  {| status_slot_id := slot; is_occupied := occupied; confidence := 1 # 2;
     license_plate := None; status_vehicle_type := None; last_updated := Some 0 |}.

Example flip_is_logged_once :
  let d0 := default_detector in
  let '(d1, log1) := _track_status_change (seen 1 false) (d0, []) in
  let '(d2, log2) := _track_status_change (seen 1 true) (d1, log1) in
  let '(d3, log3) := _track_status_change (seen 1 true) (d2, log2) in
  log1 = [] /\ length log2 = 1%nat /\ log3 = log2.
Proof. vm_compute. repeat split. Qed.

Definition uniform_frame : image := [[[9; 9; 9]; [9; 9; 9]]].
Definition all_foreground : gray := [[255; 255]].

Lemma foreground_alone_never_occupies_witness :
  let st := _check_slot_occupancy first_channel threshold_edges default_detector 0
                                  uniform_frame all_foreground (tiny_roi 0) in
  is_occupied st = false /\ Py.Qltb (4 # 10) (confidence st) = false.
Proof.
  apply (foreground_alone_never_occupies first_channel threshold_edges
           default_detector 0 uniform_frame all_foreground (tiny_roi 0) 0 0 2 1);
    [reflexivity | vm_compute; reflexivity | vm_compute; reflexivity
     | vm_compute; discriminate].
Defined.

(** *** The layout file *)

(** A region with its camera id replaced. *)
Definition refiled (camera : Z) (r : SlotROI) : SlotROI :=
  {| slot_id := slot_id r; slot_code := slot_code r;
     coordinates := coordinates r; vehicle_type := vehicle_type r;
     camera_id := camera |}.

Definition dumped (entry : Z * list SlotROI) : camera_json :=
  let '(camera_id, rois) := entry in
  camera_object camera_id
    (map (fun roi =>
            slot_object {| data_slot_id := slot_id roi;
                           data_slot_code := slot_code roi;
                           data_coordinates := coordinates roi;
                           data_vehicle_type := vehicle_type roi |})
         rois).

Lemma load_slots_dumped camera rois :
  load_slots camera
    (map (fun roi =>
            slot_object {| data_slot_id := slot_id roi;
                           data_slot_code := slot_code roi;
                           data_coordinates := coordinates roi;
                           data_vehicle_type := vehicle_type roi |})
         rois)
  = Some (map (refiled camera) rois).
Proof.
  induction rois as [|r rois IH]; simpl; [reflexivity|].
  rewrite IH. reflexivity.
Qed.

Lemma load_cameras_dumped (l : list (Z * list SlotROI)) : forall m,
  List.NoDup (map fst l) ->
  forall k,
    (forall v, In (k, v) l ->
               load_cameras (map dumped l) m !! k = Some (map (refiled k) v))
    /\ (~ In k (map fst l) -> load_cameras (map dumped l) m !! k = m !! k).
Proof.
  induction l as [|[k0 v0] l IH]; intros m Hnd k.
  - simpl. split; [contradiction | reflexivity].
  - inversion Hnd as [|? ? Hn Hnd']; subst.
    cbn [map dumped load_cameras]. rewrite load_slots_dumped.
    destruct (IH (<[k0 := map (refiled k0) v0]> m) Hnd' k) as [IH1 IH2].
    split.
    + intros v [E | Hin].
      * inversion E; subst.
        destruct (IH (<[k := map (refiled k) v]> m) Hnd' k) as [_ IH2'].
        rewrite IH2' by exact Hn. apply lookup_insert_eq.
      * apply IH1, Hin.
    + intros Hk. simpl in Hk. rewrite IH2 by tauto.
      apply lookup_insert_ne. tauto.
Qed.

Lemma refiled_same k rois :
  Forall (fun r => camera_id r = k) rois -> map (refiled k) rois = rois.
Proof.
  induction 1 as [|r rois Hr _ IH]; simpl; [reflexivity|].
  rewrite IH. f_equal. destruct r; simpl in *. subst. reflexivity.
Qed.

(** X11.  Saving the layout and loading the file again, into any detector,
    brings back every camera with its regions in their order, each region
    with the camera id of the key it was filed under; when every region
    carries the id of its key, as the generated layout does, the layout
    that comes back is the one saved.  The thresholds and the remembered
    statuses of the loading detector are left alone. *)
Theorem save_then_load_restores_layout d d0 :
  let d' := load_roi_config (Some (Some (save_roi_config d))) d0 in
  (forall k, camera_rois d' !! k = map (refiled k) <$> (camera_rois d !! k))
  /\ ((forall k rois, camera_rois d !! k = Some rois ->
                      Forall (fun r => camera_id r = k) rois) ->
      camera_rois d' = camera_rois d)
  /\ occupancy_threshold d' = occupancy_threshold d0
  /\ motion_threshold d' = motion_threshold d0
  /\ previous_statuses d' = previous_statuses d0.
Proof.
  intros d'.
  assert (E : camera_rois d' = load_cameras (map dumped (map_to_list (camera_rois d))) ∅)
    by reflexivity.
  assert (Hnd : List.NoDup (map fst (map_to_list (camera_rois d))))
    by apply NoDup_ListNoDup, NoDup_fst_map_to_list.
  assert (H1 : forall k, camera_rois d' !! k
                         = map (refiled k) <$> (camera_rois d !! k)).
  { intros k. rewrite E.
    destruct (load_cameras_dumped (map_to_list (camera_rois d)) ∅ Hnd k) as [L1 L2].
    destruct (camera_rois d !! k) as [v|] eqn:Ek; simpl.
    - apply L1. apply list_elem_of_In, elem_of_map_to_list, Ek.
    - rewrite L2; [apply lookup_empty|].
      intros Hin. apply in_map_iff in Hin as ([k' v] & Ek' & Hin).
      simpl in Ek'. subst k'.
      apply list_elem_of_In, elem_of_map_to_list in Hin. congruence. }
  split; [exact H1|]. split; [|repeat split].
  intros Hfiled. apply map_eq. intros k. rewrite H1.
  destruct (camera_rois d !! k) as [v|] eqn:Ek; simpl; [|reflexivity].
  rewrite refiled_same; [reflexivity | apply (Hfiled k), Ek].
Qed.

(** The generated layout files every region under its own camera id. *)
Example default_layout_round_trip (d0 : SlotOccupancyDetector) :
  camera_rois (load_roi_config (Some (Some (save_roi_config default_detector))) d0)
  = camera_rois default_detector.
Proof. vm_compute. reflexivity. Qed.

(** An entry the loader can read through, and one it raises on. *)
Definition readable (c : camera_json) : Prop :=
  match c with
  | camera_object _ slots => ~ In slot_malformed slots
  | camera_malformed => False
  end.

Definition unreadable (c : camera_json) : Prop :=
  match c with
  | camera_object _ slots => In slot_malformed slots
  | camera_malformed => True
  end.

Lemma load_slots_None camera slots :
  In slot_malformed slots -> load_slots camera slots = None.
Proof.
  induction slots as [|[s|] slots IH]; simpl; [contradiction | | reflexivity].
  intros [E | Hin]; [discriminate|]. rewrite IH by exact Hin. reflexivity.
Qed.

Lemma load_slots_Some camera slots :
  ~ In slot_malformed slots -> exists l, load_slots camera slots = Some l.
Proof.
  induction slots as [|[s|] slots IH]; simpl; intros Hn.
  - eauto.
  - destruct IH as [l E]; [tauto|]. rewrite E. eauto.
  - tauto.
Qed.

Lemma load_cameras_app good : forall rest m,
  Forall readable good ->
  load_cameras (good ++ rest) m = load_cameras rest (load_cameras good m).
Proof.
  induction good as [|c good IH]; intros rest m Hg; [reflexivity|].
  inversion Hg as [|? ? Hc Hg']; subst.
  destruct c as [k slots|]; [|contradiction].
  destruct (load_slots_Some k slots Hc) as [l E].
  simpl. rewrite E. apply IH, Hg'.
Qed.

(** X12.  What a bad layout file does.  A file that cannot be opened or
    parsed leaves the detector as it was.  Any other file costs the
    detector the layout it had: without the key [cameras] the layout
    ends up empty, and with an entry the loader cannot read it ends up
    with the cameras listed before that entry and no others. *)
Theorem load_keeps_only_what_precedes_a_bad_entry good bad rest d :
  Forall readable good -> unreadable bad ->
  load_roi_config None d = d
  /\ camera_rois (load_roi_config (Some None) d) = ∅
  /\ camera_rois (load_roi_config (Some (Some (good ++ bad :: rest))) d)
     = camera_rois (load_roi_config (Some (Some good)) d)
  /\ forall k, camera_rois (load_roi_config (Some (Some (good ++ bad :: rest))) d) !! k
               <> None ->
               exists slots, In (camera_object k slots) good.
Proof.
  intros Hg Hb.
  assert (E : load_cameras (good ++ bad :: rest) ∅ = load_cameras good ∅).
  { rewrite load_cameras_app by exact Hg.
    rewrite <- (app_nil_r good) at 2. rewrite load_cameras_app by exact Hg.
    destruct bad as [k slots|]; [|reflexivity].
    simpl in Hb |- *. rewrite load_slots_None by exact Hb. reflexivity. }
  split; [reflexivity|]. split; [reflexivity|]. split.
  - simpl. rewrite E. reflexivity.
  - intros k. simpl. rewrite E. clear E Hb.
    assert (G : forall m, load_cameras good m !! k <> None ->
                          m !! k <> None \/ exists slots, In (camera_object k slots) good).
    { clear Hg. induction good as [|c good IH]; intros m H; [left; exact H|].
      destruct c as [k0 slots|]; [|left; exact H].
      simpl in H. destruct (load_slots k0 slots) as [l|]; [|left; exact H].
      destruct (IH _ H) as [Hm | [s Hs]].
      - destruct (decide (k0 = k)) as [-> | Hne].
        + right. exists slots. left. reflexivity.
        + left. rewrite lookup_insert_ne in Hm by exact Hne. exact Hm.
      - right. exists s. right. exact Hs. }
    intros H. destruct (G ∅ H) as [Hm | Hs]; [|exact Hs].
    rewrite lookup_empty in Hm. contradiction.
Qed.

Definition one_slot : slot_json :=
  slot_object {| data_slot_id := 1; data_slot_code := "A-C-01";
                 data_coordinates := (50, 100, 120, 200);
                 data_vehicle_type := "CAR" |}.

Lemma load_keeps_only_what_precedes_a_bad_entry_witness :
  let good := [camera_object 1 [one_slot]] in
  let bad := camera_object 2 [one_slot; slot_malformed] in
  let rest := [camera_object 3 [one_slot]] in
  let d := default_detector in
  load_roi_config None d = d
  /\ camera_rois (load_roi_config (Some None) d) = ∅
  /\ camera_rois (load_roi_config (Some (Some (good ++ bad :: rest))) d)
     = camera_rois (load_roi_config (Some (Some good)) d)
  /\ forall k, camera_rois (load_roi_config (Some (Some (good ++ bad :: rest))) d) !! k
               <> None ->
               exists slots, In (camera_object k slots) good.
Proof.
  intros good bad rest d.
  apply (load_keeps_only_what_precedes_a_bad_entry good bad rest d).
  - repeat constructor. simpl. intros [E | []]. discriminate.
  - simpl. right. left. reflexivity.
Defined.

End SlotTrackingFacts.

Module AnprDetectFacts.
Import PyText Anpr AnprDetect PyFacts AnprFacts OccupancyFacts.

Definition conf_of (r : PlateOCR.ocr_result) : Q := snd r.
Definition cand_conf (c : candidate) : Q := snd (fst c).

(** The rectangle holds every corner of the polygon. *)
Definition encloses (b : rect) (p : PlateOCR.polygon) : Prop :=
  let '(x, y, w, h) := b in
  Forall (fun pt => x <= fst pt <= x + w /\ y <= snd pt <= y + h) p.

Lemma fold_min_le l : forall a,
  fold_left Z.min l a <= a /\ Forall (fun v => fold_left Z.min l a <= v) l.
Proof.
  induction l as [|v l IH]; intros a; simpl; [split; [lia | constructor]|].
  destruct (IH (Z.min a v)) as [H1 H2]. split; [lia|].
  constructor; [lia | exact H2].
Qed.

Lemma fold_max_ge l : forall a,
  a <= fold_left Z.max l a /\ Forall (fun v => v <= fold_left Z.max l a) l.
Proof.
  induction l as [|v l IH]; intros a; simpl; [split; [lia | constructor]|].
  destruct (IH (Z.max a v)) as [H1 H2]. split; [lia|].
  constructor; [lia | exact H2].
Qed.

Lemma min_list_le l m : min_list l = Some m -> Forall (fun v => m <= v) l.
Proof.
  destruct l as [|a l]; simpl; [discriminate|]. intros [= <-].
  destruct (fold_min_le l a). constructor; assumption.
Qed.

Lemma max_list_ge l m : max_list l = Some m -> Forall (fun v => v <= m) l.
Proof.
  destruct l as [|a l]; simpl; [discriminate|]. intros [= <-].
  destruct (fold_max_ge l a). constructor; assumption.
Qed.

Lemma bbox_of_encloses p b : bbox_of p = Some b -> encloses b p.
Proof.
  unfold bbox_of.
  destruct (min_list (map fst p)) as [x0|] eqn:Ex0; [|discriminate].
  destruct (min_list (map snd p)) as [y0|] eqn:Ey0; [|discriminate].
  destruct (max_list (map fst p)) as [x1|] eqn:Ex1; [|discriminate].
  destruct (max_list (map snd p)) as [y1|] eqn:Ey1; [|discriminate].
  intros [= <-]. unfold encloses.
  apply min_list_le in Ex0, Ey0. apply max_list_ge in Ex1, Ey1.
  rewrite List.Forall_map in Ex0, Ey0, Ex1, Ey1.
  rewrite List.Forall_forall in *. intros pt Hin.
  specialize (Ex0 pt Hin). specialize (Ey0 pt Hin).
  specialize (Ex1 pt Hin). specialize (Ey1 pt Hin). lia.
Qed.

Lemma bbox_of_nonempty p : p <> [] -> exists b, bbox_of p = Some b.
Proof.
  destruct p as [|pt p]; [congruence|]. intros _. unfold bbox_of. simpl. eauto.
Qed.

(** The candidate [c] is the first of the greatest confidence in [l]. *)
Definition first_greatest (c : candidate) (l : list candidate) : Prop :=
  exists l1 l2, l = l1 ++ c :: l2
                /\ Forall (fun d => (cand_conf d < cand_conf c)%Q) l1
                /\ Forall (fun d => (cand_conf d <= cand_conf c)%Q) l2.

Lemma insert_desc_head c l :
  hd_error (insert_desc c l)
  = match l with
    | [] => Some c
    | d :: _ => if Py.Qltb (cand_conf c) (cand_conf d) then Some d else Some c
    end.
Proof.
  destruct l as [|d l]; simpl; [reflexivity|].
  fold (cand_conf c) (cand_conf d). destruct (Py.Qltb _ _); reflexivity.
Qed.

Lemma sort_desc_head l c :
  hd_error (sort_desc l) = Some c -> first_greatest c l.
Proof.
  revert c. induction l as [|a l IH]; intros c; simpl; [discriminate|].
  rewrite insert_desc_head.
  destruct (sort_desc l) as [|d s] eqn:Es.
  - intros [= <-]. destruct l as [|b l].
    + exists [], []. repeat split; constructor.
    + simpl in Es. destruct (sort_desc l); simpl in Es; [discriminate|].
      destruct (Py.Qltb _ _); discriminate.
  - destruct (IH d eq_refl) as (l1 & l2 & -> & H1 & H2).
    destruct (Py.Qltb (cand_conf a) (cand_conf d)) eqn:E; intros [= <-].
    + apply Qltb_lt in E. exists (a :: l1), l2. repeat split; auto.
    + apply Qltb_ge in E. exists [], (l1 ++ d :: l2). repeat split; [constructor|].
      apply Forall_app. split; [|constructor].
      * revert H1. apply List.Forall_impl. intros x Hx.
        apply Qlt_le_weak. eapply Qlt_le_trans; eassumption.
      * exact E.
      * revert H2. apply List.Forall_impl. intros x Hx.
        eapply Qle_trans; eassumption.
Qed.

Lemma sort_desc_nonempty l : l <> [] -> sort_desc l <> [].
Proof.
  destruct l as [|a l]; [congruence|]. intros _. simpl.
  destruct (sort_desc l) as [|d s]; simpl; [discriminate|].
  destruct (Py.Qltb _ _); discriminate.
Qed.

(** The candidates the loop collects, against the results it reads. *)
Inductive collected : list PlateOCR.ocr_result -> list candidate -> Prop :=
| collected_nil : collected [] []
| collected_skip p t c rs cs :
    (c <= 1 # 2)%Q -> collected rs cs -> collected ((p, t, c) :: rs) cs
| collected_take p t c b rs cs :
    (1 # 2 < c)%Q -> bbox_of p = Some b -> collected rs cs ->
    collected ((p, t, c) :: rs) ((t, c, b) :: cs).

Lemma collect_collected rs : forall acc cs,
  collect rs acc = Some cs -> exists cs', cs = acc ++ cs' /\ collected rs cs'.
Proof.
  induction rs as [|[[p t] c] rs IH]; intros acc cs; simpl.
  - intros [= <-]. exists []. rewrite app_nil_r. split; [reflexivity | constructor].
  - destruct (Py.Qltb (1 # 2) c) eqn:E.
    + apply Qltb_lt in E. destruct (bbox_of p) as [b|] eqn:Eb; [|discriminate].
      intros H. destruct (IH _ _ H) as (cs' & -> & Hc).
      exists ((t, c, b) :: cs'). rewrite <- app_assoc. split; [reflexivity|].
      constructor; assumption.
    + apply Qltb_ge in E. intros H. destruct (IH _ _ H) as (cs' & -> & Hc).
      exists cs'. split; [reflexivity|]. constructor; assumption.
Qed.

Lemma collect_total rs : forall acc,
  Forall (fun r => (1 # 2 < conf_of r)%Q -> fst (fst r) <> []) rs ->
  exists cs, collect rs acc = Some cs.
Proof.
  induction rs as [|[[p t] c] rs IH]; intros acc H; simpl; [eauto|].
  inversion H as [|? ? Hr Hrs]; subst.
  destruct (Py.Qltb (1 # 2) c) eqn:E; [|apply IH, Hrs].
  apply Qltb_lt in E. destruct (bbox_of_nonempty p (Hr E)) as [b ->].
  apply IH, Hrs.
Qed.

Lemma collected_split rs cs : collected rs cs ->
  forall c1 t c b c2, cs = c1 ++ (t, c, b) :: c2 ->
  exists r1 p r2,
    rs = r1 ++ (p, t, c) :: r2 /\ bbox_of p = Some b /\ (1 # 2 < c)%Q
    /\ collected r1 c1 /\ collected r2 c2.
Proof.
  induction 1 as [|p0 t0 c0 rs cs Hle Hc IH | p0 t0 c0 b0 rs cs Hlt Hb Hc IH];
    intros c1 t c b c2 E.
  - destruct c1; discriminate.
  - destruct (IH _ _ _ _ _ E) as (r1 & p & r2 & -> & Hp & Hh & H1 & H2).
    exists ((p0, t0, c0) :: r1), p, r2. repeat split; auto.
    constructor; assumption.
  - destruct c1 as [|x c1]; simpl in E.
    + inversion E; subst. exists [], p0, rs. repeat split; auto. constructor.
    + inversion E; subst.
      destruct (IH _ _ _ _ _ eq_refl) as (r1 & p & r2 & -> & Hp & Hh & H1 & H2).
      exists ((p0, t0, c0) :: r1), p, r2. repeat split; auto.
      constructor; assumption.
Qed.

Lemma collected_bound (P : Q -> Prop) rs cs :
  collected rs cs ->
  (forall q, (q <= 1 # 2)%Q -> P q) ->
  Forall (fun d => P (cand_conf d)) cs ->
  Forall (fun r => P (conf_of r)) rs.
Proof.
  intros Hc Hlow. induction Hc as [|p t c rs cs Hle Hc IH | p t c b rs cs Hlt Hb Hc IH];
    intros H.
  - constructor.
  - constructor; [apply Hlow, Hle | apply IH, H].
  - inversion H; subst. constructor; [assumption | apply IH; assumption].
Qed.

Lemma collected_none rs : collected rs [] -> Forall (fun r => (conf_of r <= 1 # 2)%Q) rs.
Proof.
  intros H. apply (collected_bound (fun q => (q <= 1 # 2)%Q) rs [] H); auto.
Qed.

(** How [_find_best_plate] answers. *)
Definition best_plate_answer (rs : list PlateOCR.ocr_result)
           (answer : option (option candidate)) : Prop :=
  match answer with
  | None => False
  | Some None => Forall (fun r => (conf_of r <= 1 # 2)%Q) rs
  | Some (Some (t, c, b)) =>
      exists before p after,
        rs = before ++ (p, t, c) :: after
        /\ (1 # 2 < c)%Q
        /\ bbox_of p = Some b /\ encloses b p
        /\ Forall (fun r => (conf_of r < c)%Q) before
        /\ Forall (fun r => (conf_of r <= c)%Q) after
  end.

(** X13.  [_find_best_plate] on results whose confident readings have a
    polygon with at least one corner: it does not raise; it returns
    [None] exactly when no reading has a confidence above 0.5; otherwise
    it returns the first of the readings of the greatest confidence, a
    confidence above 0.5, with the smallest upright rectangle that holds
    the corners of its polygon. *)
Theorem find_best_plate_first_most_confident (rs : list PlateOCR.ocr_result) :
  Forall (fun r => (1 # 2 < conf_of r)%Q -> fst (fst r) <> []) rs ->
  best_plate_answer rs (_find_best_plate rs).
Proof.
  intros Hne. unfold _find_best_plate.
  destruct rs as [|r rs]; [constructor|].
  cbn [Py.is_empty_list].
  destruct (collect_total (r :: rs) [] Hne) as [cs Ecs]. rewrite Ecs.
  destruct (collect_collected _ _ _ Ecs) as (cs' & -> & Hc). simpl in *.
  destruct cs' as [|c0 cs']; [simpl; apply collected_none, Hc|].
  cbn [Py.is_empty_list].
  destruct (hd_error (sort_desc (c0 :: cs'))) as [[[t c] b]|] eqn:Eh.
  - destruct (sort_desc_head _ _ Eh) as (c1 & c2 & E & H1 & H2).
    destruct (collected_split _ _ Hc _ _ _ _ _ E)
      as (r1 & p & r2 & Ers & Hb & Hh & Hc1 & Hc2).
    exists r1, p, r2. repeat split; auto.
    + apply bbox_of_encloses, Hb.
    + apply (collected_bound (fun q => (q < c)%Q) r1 c1 Hc1); [|exact H1].
      intros q Hq. eapply Qle_lt_trans; eassumption.
    + apply (collected_bound (fun q => (q <= c)%Q) r2 c2 Hc2); [|exact H2].
      intros q Hq. apply Qlt_le_weak. eapply Qle_lt_trans; eassumption.
  - exfalso. apply (sort_desc_nonempty (c0 :: cs')); [discriminate|].
    destruct (sort_desc (c0 :: cs')); [reflexivity | discriminate].
Qed.

Definition four_corners : PlateOCR.polygon := [(12, 40); (96, 40); (96, 62); (12, 62)].

Definition two_readings : list PlateOCR.ocr_result :=
  [(four_corners, txt "ka 01 ab 1234", 9 # 10);
   ([], txt "TAXI", 3 # 10)].

Lemma find_best_plate_first_most_confident_witness :
  best_plate_answer two_readings (_find_best_plate two_readings).
Proof.
  apply (find_best_plate_first_most_confident two_readings).
  repeat constructor; simpl; intros H; [discriminate | vm_compute in H; discriminate].
Defined.

(** A confident reading without a corner makes the function raise. *)
Example find_best_plate_raises_without_corners :
  _find_best_plate [([], txt "KA01AB1234", 9 # 10)] = None.
Proof. reflexivity. Qed.

Lemma find_best_plate_some rs t c b :
  _find_best_plate rs = Some (Some (t, c, b)) ->
  (1 # 2 < c)%Q /\ exists p, In (p, t, c) rs /\ bbox_of p = Some b.
Proof.
  unfold _find_best_plate. destruct rs as [|r rs]; [discriminate|].
  cbn [Py.is_empty_list].
  destruct (collect (r :: rs) []) as [cs|] eqn:Ecs; [|discriminate].
  destruct (collect_collected _ _ _ Ecs) as (cs' & -> & Hc). cbn [app] in *.
  destruct cs' as [|c0 cs']; [discriminate|]. cbn [Py.is_empty_list].
  intros [= Eh].
  change (hd_error (sort_desc (c0 :: cs')) = Some (t, c, b)) in Eh.
  destruct (sort_desc_head _ _ Eh) as (c1 & c2 & E & _ & _).
  destruct (collected_split _ _ Hc _ _ _ _ _ E)
    as (r1 & p & r2 & Ers & Hb & Hh & _ & _).
  split; [exact Hh|]. exists p. split; [|exact Hb].
  rewrite Ers. apply in_or_app. right. left. reflexivity.
Qed.

Lemma validate_length t : _validate_plate_text t = true -> (4 <= length t)%nat.
Proof.
  unfold _validate_plate_text.
  destruct (Nat.ltb_spec (length t) 4) as [Hlt | Hge]; [|auto].
  rewrite orb_true_r. discriminate.
Qed.

Section Recognizer.
Variable _preprocess_image : SlotDetector.image -> option SlotDetector.gray.
Variable readtext : SlotDetector.gray -> option (list PlateOCR.ocr_result).

Local Abbreviation detect := (detect_plate _preprocess_image readtext).

(** X14.  What a detection of [detect_plate] is.  It comes from a reading
    of the OCR pass over the preprocessed image, with a confidence above
    0.5 and the rectangle round the reading's polygon; its
    [preprocessed_text] is the cleaned reading, which the validator
    accepts: at least four characters, capitals and digits in words
    separated by single spaces, and a text that cleaning leaves as it
    is. *)
Theorem detect_plate_sound reader_loaded now vehicle_roi det :
  detect_plate _preprocess_image readtext reader_loaded now vehicle_roi = Some det ->
  reader_loaded = true
  /\ (1 # 2 < confidence det)%Q
  /\ preprocessed_text det = _clean_plate_text (plate_text det)
  /\ _validate_plate_text (preprocessed_text det) = true
  /\ (4 <= length (preprocessed_text det))%nat
  /\ tidy true (preprocessed_text det) = true
  /\ _clean_plate_text (preprocessed_text det) = preprocessed_text det
  /\ timestamp det = now
  /\ exists processed results p,
       _preprocess_image vehicle_roi = Some processed
       /\ readtext processed = Some results
       /\ In (p, plate_text det, confidence det) results
       /\ bbox_of p = Some (bbox det) /\ encloses (bbox det) p.
Proof.
  unfold detect_plate. destruct reader_loaded; [|discriminate]. cbn [negb].
  destruct (_preprocess_image vehicle_roi) as [processed|] eqn:Ep; [|discriminate].
  destruct (readtext processed) as [results|] eqn:Er; [|discriminate].
  destruct (_find_best_plate results) as [[[[t c] b]|]|] eqn:Eb; try discriminate.
  cbv zeta.
  destruct (_validate_plate_text (_clean_plate_text t)) eqn:Ev; [|discriminate].
  intros [= <-]. cbn [confidence preprocessed_text plate_text timestamp bbox].
  destruct (find_best_plate_some _ _ _ _ Eb) as (Hc & p & Hin & Hb).
  pose proof (validate_length _ Ev) as Hlen.
  assert (Ht : tidy true (_clean_plate_text t) = true).
  { destruct (clean_tidy t) as [E | H]; [|exact H].
    rewrite E in Hlen. simpl in Hlen. lia. }
  repeat split; auto.
  - apply clean_fixes_tidy, Ht.
  - exists processed, results, p. repeat split; auto.
    apply bbox_of_encloses, Hb.
Qed.
End Recognizer.

Definition demo_preprocess (a : SlotDetector.image) : option SlotDetector.gray :=
  Some (first_channel a).
Definition demo_readtext (g : SlotDetector.gray) : option (list PlateOCR.ocr_result) :=
  Some two_readings.
Definition demo_detection : PlateDetection :=
  {| plate_text := txt "ka 01 ab 1234"; confidence := 9 # 10;
     bbox := (12, 40, 84, 22); preprocessed_text := txt "KA 01 AB 1234";
     timestamp := 7 |}.

Lemma detect_plate_sound_witness :
  true = true
  /\ (1 # 2 < confidence demo_detection)%Q
  /\ preprocessed_text demo_detection = _clean_plate_text (plate_text demo_detection)
  /\ _validate_plate_text (preprocessed_text demo_detection) = true
  /\ (4 <= length (preprocessed_text demo_detection))%nat
  /\ tidy true (preprocessed_text demo_detection) = true
  /\ _clean_plate_text (preprocessed_text demo_detection)
     = preprocessed_text demo_detection
  /\ timestamp demo_detection = 7
  /\ exists processed results p,
       demo_preprocess tiny_frame = Some processed
       /\ demo_readtext processed = Some results
       /\ In (p, plate_text demo_detection, confidence demo_detection) results
       /\ bbox_of p = Some (bbox demo_detection)
       /\ encloses (bbox demo_detection) p.
Proof.
  apply (detect_plate_sound demo_preprocess demo_readtext true 7 tiny_frame
           demo_detection).
  vm_compute. reflexivity.
Defined.

(** Only the most confident reading is tried: when its text fails the
    validator there is no detection, whatever the other readings are. *)
Example detect_plate_does_not_fall_back :
  detect_plate demo_preprocess
    (fun _ => Some [(four_corners, txt "P", 9 # 10);
                    (four_corners, txt "KA01AB1234", 8 # 10)])
    true 0 tiny_frame
  = None.
Proof. vm_compute. reflexivity. Qed.

(** *** The region cut out for a vehicle *)

Definition pixel (a : SlotDetector.image) (i j : nat) : option (list Z) :=
  match nth_error a i with
  | Some row => nth_error row j
  | None => None
  end.

(** X15.  The region handed to the recognizer is the vehicle box grown by
    20 pixels on every side and clipped to the frame: for a box whose
    grown right and lower edges are not negative, the region has the rows
    y1 to y2 and the columns x1 to x2 of the frame, where x1 = max(0, x -
    20), y1 = max(0, y - 20), x2 = min(width, x + w + 20) and y2 =
    min(height, y + h + 20), and nothing else. *)
Theorem vehicle_region_is_padded_box_clipped frame height width x y w h :
  has_shape height width frame ->
  0 <= x + w + 20 -> 0 <= y + h + 20 ->
  let x1 := Z.max 0 (x - 20) in
  let y1 := Z.max 0 (y - 20) in
  let x2 := Z.min (Z.of_nat width) (x + w + 20) in
  let y2 := Z.min (Z.of_nat height) (y + h + 20) in
  let region := vehicle_region frame (x, y, w, h) in
  length region = Z.to_nat (y2 - y1)
  /\ Forall (fun row => length row = Z.to_nat (x2 - x1)) region
  /\ forall i j : nat,
       pixel region i j
       = if (Z.of_nat i <? y2 - y1) && (Z.of_nat j <? x2 - x1)
         then pixel frame (Z.to_nat y1 + i) (Z.to_nat x1 + j)
         else None.
Proof.
  intros [Hh Hw] Hx Hy x1 y1 x2 y2 region.
  destruct height as [|height'].
  - destruct frame; [|discriminate].
    assert (Enil : forall a b, Py.slice a b (@nil (list (list Z))) = [])
      by (intros; unfold Py.slice; rewrite skipn_nil; apply firstn_nil).
    unfold region, vehicle_region. cbv zeta. rewrite Enil. cbn [map length].
    split; [subst y1 y2; lia|]. split; [constructor|].
    intros i j. unfold pixel.
    replace (nth_error (@nil (list (list Z))) i) with (@None (list (list Z)))
      by (destruct i; reflexivity).
    destruct (Z.ltb_spec (Z.of_nat i) (y2 - y1)); [subst y1 y2; lia | reflexivity].
  - assert (Es1 : shape1 frame = Z.of_nat width).
    { unfold shape1. destruct frame as [|row frame]; [discriminate|].
      inversion Hw; subst. simpl. reflexivity. }
    assert (Es0 : shape0 frame = Z.of_nat (S height'))
      by (unfold shape0; rewrite Hh; reflexivity).
    assert (Er : region = map (Py.slice x1 x2) (Py.slice y1 y2 frame)).
    { unfold region, vehicle_region. cbv zeta. rewrite Es0, Es1. reflexivity. }
    assert (Hrows : Forall (fun row => length row = width) (Py.slice y1 y2 frame)).
    { unfold Py.slice. apply Forall_take, Forall_drop, Hw. }
    split; [|split].
    + rewrite Er, length_map, slice_length; [reflexivity | lia | lia].
    + rewrite Er. apply List.Forall_map.
      revert Hrows. apply List.Forall_impl. intros row Hr.
      apply slice_length; lia.
    + intros i j. rewrite Er. unfold pixel. rewrite nth_error_map.
      rewrite slice_nth by lia.
      destruct (Z.of_nat i <? y2 - y1) eqn:Ei; [|reflexivity]. cbn [andb].
      destruct (nth_error frame (Z.to_nat y1 + i)) as [row|] eqn:En; simpl.
      * assert (Hr : length row = width).
        { apply nth_error_In in En. revert row En.
          apply List.Forall_forall, Hw. }
        rewrite slice_nth by lia. reflexivity.
      * destruct (Z.of_nat j <? x2 - x1); reflexivity.
Qed.

Definition strip_frame : SlotDetector.image :=
  map (fun r => map (fun c => [r; c; 0]) (Py.range 0 60)) (Py.range 0 50).

Lemma vehicle_region_is_padded_box_clipped_witness :
  let region := vehicle_region strip_frame (30, 25, 100, 10) in
  length region = Z.to_nat (50 - 5)
  /\ Forall (fun row => length row = Z.to_nat (60 - 10)) region
  /\ forall i j : nat,
       pixel region i j
       = if (Z.of_nat i <? 50 - 5) && (Z.of_nat j <? 60 - 10)
         then pixel strip_frame (Z.to_nat 5 + i) (Z.to_nat 10 + j)
         else None.
Proof.
  apply (vehicle_region_is_padded_box_clipped strip_frame 50 60 30 25 100 10);
    [split; [reflexivity | apply List.Forall_forall; intros row Hin;
                             apply in_map_iff in Hin as (r & <- & _); reflexivity]
    | lia | lia].
Defined.

(** A box that lies wholly above the frame has a negative lower edge,
    which the slice counts from the bottom: the region is then the frame
    without its last rows, where one would expect no region at all. *)
Example box_above_frame_cuts_the_frame :
  length (vehicle_region strip_frame (0, -60, 10, 10)) = 20%nat.
Proof. vm_compute. reflexivity. Qed.
End AnprDetectFacts.

Module PlateDetectorFacts.
Import EntryPipeline PlateDetector PyFacts OccupancyFacts.

(** A slice of a slice is a slice. *)
Lemma slice_slice {A} (s e a c : Z) (l : list A) :
  0 <= s <= e -> e <= Z.of_nat (length l) ->
  0 <= a -> 0 <= c <= e - s ->
  Py.slice a c (Py.slice s e l) = Py.slice (s + a) (s + c) l.
Proof.
  intros Hs He Ha Hc.
  assert (Hlen : length (Py.slice s e l) = Z.to_nat (e - s))
    by (apply slice_length; lia).
  apply nth_error_ext. intros k.
  rewrite !slice_nth by lia.
  replace (s + c - (s + a)) with (c - a) by lia.
  destruct (Z.ltb_spec (Z.of_nat k) (c - a)) as [Hk | Hk]; [|reflexivity].
  destruct (Z.ltb_spec (Z.of_nat (Z.to_nat a + k)) (e - s)) as [Hk' | Hk']; [|lia].
  f_equal. lia.
Qed.

Lemma slice_map {A B} (f : A -> B) (a b : Z) (l : list A) :
  Py.slice a b (map f l) = map f (Py.slice a b l).
Proof.
  unfold Py.slice. rewrite length_map, skipn_map, firstn_map. reflexivity.
Qed.

Lemma slice_rows {A} (a b : Z) (width : nat) (l : list (list A)) :
  Forall (fun row => length row = width) l ->
  Forall (fun row => length row = width) (Py.slice a b l).
Proof. intros H. unfold Py.slice. apply Forall_take, Forall_drop, H. Qed.

Lemma slice_empty {A} (a b : Z) (l : list A) :
  0 <= b <= a -> Py.slice a b l = [].
Proof.
  intros Hb. unfold Py.slice, Py.slice_index.
  destruct (Z.ltb_spec a 0); [lia|]. destruct (Z.ltb_spec b 0); [lia|].
  replace (Z.to_nat (_ - _)) with 0%nat by lia. reflexivity.
Qed.

Lemma shift_addresses_the_same_pixels
      (frame : SlotDetector.image) (height width : nat)
      (x1 y1 x2 y2 a b c d : Z) :
  has_shape height width frame ->
  0 <= x1 <= x2 -> x2 <= Z.of_nat width ->
  0 <= y1 <= y2 -> y2 <= Z.of_nat height ->
  0 <= a <= c -> c <= x2 - x1 ->
  0 <= b <= d -> d <= y2 - y1 ->
  crop_plate frame (a + x1, b + y1, c + x1, d + y1) 0
  = crop_plate (region y1 y2 x1 x2 frame) (a, b, c, d) 0.
Proof.
  intros [Hh Hw] Hx1 Hx2 Hy1 Hy2 Ha Hc Hb Hd.
  unfold crop_plate, shape. rewrite !Z.sub_0_r, !Z.add_0_r.
  set (roi := region y1 y2 x1 x2 frame).
  assert (Hroi_len : length roi = Z.to_nat (y2 - y1)).
  { unfold roi, region. rewrite length_map. apply slice_length; lia. }
  destruct (Z.eq_dec b d) as [Ebd | Nbd].
  { (* an empty box *)
    subst d. unfold region.
    rewrite (slice_empty (Z.max 0 (b + y1))) by lia.
    rewrite (slice_empty (Z.max 0 b)) by lia. reflexivity. }
  assert (Hrows : 0 < y2 - y1) by lia.
  assert (Hw0 : Z.of_nat (length (hd [] frame)) = Z.of_nat width).
  { destruct frame as [|row frame]; [simpl in Hh; lia|].
    inversion Hw; subst. reflexivity. }
  assert (Hw1 : Z.of_nat (length (hd [] roi)) = x2 - x1).
  { unfold roi, region.
    destruct (Py.slice y1 y2 frame) as [|row rows] eqn:Es.
    - apply (f_equal (@length _)) in Es. rewrite slice_length in Es by lia.
      simpl in Es. lia.
    - assert (Hr : length row = width).
      { assert (Hall := slice_rows y1 y2 width frame Hw). rewrite Es in Hall.
        inversion Hall; assumption. }
      simpl. rewrite slice_length by lia. lia. }
  rewrite Hw0, Hw1, Hh, Hroi_len.
  replace (Z.max 0 (a + x1)) with (x1 + a) by lia.
  replace (Z.max 0 (b + y1)) with (y1 + b) by lia.
  replace (Z.min (Z.of_nat width) (c + x1)) with (x1 + c) by lia.
  replace (Z.min (Z.of_nat height) (d + y1)) with (y1 + d) by lia.
  replace (Z.max 0 a) with a by lia. replace (Z.max 0 b) with b by lia.
  replace (Z.min (x2 - x1) c) with c by lia.
  replace (Z.min (Z.of_nat (Z.to_nat (y2 - y1))) d) with d by lia.
  unfold roi, region.
  rewrite slice_map, slice_slice by lia.
  rewrite map_map. apply map_ext_in. intros row Hin.
  assert (Hr : length row = width).
  { revert row Hin. apply List.Forall_forall, slice_rows, Hw. }
  symmetry. apply slice_slice; lia.
Qed.

(** The box lies inside an image of the given size. *)
Definition box_inside (w h : Z) (b : bbox) : Prop :=
  let '(a, b, c, d) := b in 0 <= a <= c /\ c <= w /\ 0 <= b <= d /\ d <= h.

Section Detector.
Variable detect : SlotDetector.image -> list plate.

(** X16.  The plate boxes [detect_in_roi] returns address in the frame the
    pixels the model saw in the vehicle crop.  For a vehicle box that lies
    inside the frame and plate boxes that lie inside the crop, the
    detections come back one for one with their confidences, and cutting
    the frame at a returned box gives what cutting the crop at the
    model's box gives. *)
Theorem detect_in_roi_addresses_the_frame
        (frame : SlotDetector.image) (height width : nat) (x1 y1 x2 y2 : Z) :
  has_shape height width frame ->
  box_inside (Z.of_nat width) (Z.of_nat height) (x1, y1, x2, y2) ->
  let roi := region y1 y2 x1 x2 frame in
  Forall (fun det => box_inside (x2 - x1) (y2 - y1) (plate_bbox det)) (detect roi) ->
  let found := detect_in_roi detect frame (x1, y1, x2, y2) in
  map plate_confidence found = map plate_confidence (detect roi)
  /\ map (fun det => crop_plate frame (plate_bbox det) 0) found
     = map (fun det => crop_plate roi (plate_bbox det) 0) (detect roi).
Proof.
  intros Hs (Hx1 & Hx2 & Hy1 & Hy2) roi Hin found.
  unfold found, detect_in_roi. fold roi. rewrite !map_map.
  split.
  - apply map_ext. intros det. destruct (plate_bbox det) as [[[a b] c] d].
    reflexivity.
  - apply map_ext_in. intros det Hdet.
    pose proof (proj1 (List.Forall_forall _ _) Hin det Hdet) as Hb.
    cbv beta in Hb. unfold box_inside in Hb.
    destruct (plate_bbox det) as [[[a b] c] d].
    destruct Hb as (Ha & Hc & Hb & Hd).
    apply (shift_addresses_the_same_pixels frame height width); assumption.
Qed.
End Detector.

Definition small_frame : SlotDetector.image :=
  map (fun r => map (fun c => [r; c; 0]) (Py.range 0 12)) (Py.range 0 9).

Definition small_detect (roi : SlotDetector.image) : list plate :=
  [{| plate_bbox := (3, 2, 7, 4); plate_confidence := 8 # 10 |}].

Lemma detect_in_roi_addresses_the_frame_witness :
  let roi := region 1 8 2 11 small_frame in
  let found := detect_in_roi small_detect small_frame (2, 1, 11, 8) in
  map plate_confidence found = map plate_confidence (small_detect roi)
  /\ map (fun det => crop_plate small_frame (plate_bbox det) 0) found
     = map (fun det => crop_plate roi (plate_bbox det) 0) (small_detect roi).
Proof.
  apply (detect_in_roi_addresses_the_frame small_detect small_frame 9 12 2 1 11 8).
  - split; [reflexivity|].
    apply List.Forall_forall. intros row Hin.
    apply in_map_iff in Hin as (r & <- & _). reflexivity.
  - simpl. lia.
  - repeat constructor; simpl; lia.
Defined.

(** A vehicle box with a negative corner makes the crop wrap round, and
    the shifted plate box then addresses other pixels. *)
Example negative_corner_shifts_wrongly :
  let roi := region 0 9 (-4) 12 small_frame in
  crop_plate roi (0, 0, 2, 1) 0 = [[[0; 8; 0]; [0; 9; 0]]]
  /\ crop_plate small_frame (0 + -4, 0 + 0, 2 + -4, 1 + 0) 0
     = [[[0; 0; 0]; [0; 1; 0]; [0; 2; 0]; [0; 3; 0]; [0; 4; 0]; [0; 5; 0];
         [0; 6; 0]; [0; 7; 0]; [0; 8; 0]; [0; 9; 0]]].
Proof. vm_compute. split; reflexivity. Qed.
End PlateDetectorFacts.

(** ** The entry pipeline, frame by frame *)

Module EntryEventFacts.
Import PyText PlateOCR EntryPipeline EntryPipelineFacts.

Definition plate_letter (c : ascii) : bool := upper_AZ c.
Definition plate_digit (c : ascii) : bool := digit_09 c.
Definition plate_symbol (c : ascii) : bool := upper_AZ c || digit_09 c.

Lemma plate_symbol_classes c :
  plate_symbol c = true -> isalpha c = upper_AZ c /\ isdigit c = digit_09 c.
Proof.
  pose proof (AnprFacts.for_all_chars
    (fun c => implb (plate_symbol c)
                (Bool.eqb (isalpha c) (upper_AZ c)
                 && Bool.eqb (isdigit c) (digit_09 c)))) as H.
  specialize (H ltac:(vm_compute; reflexivity) c). cbv beta in H.
  intros E. rewrite E in H. simpl in H.
  apply andb_prop in H as [H1 H2].
  apply eqb_prop in H1, H2. auto.
Qed.

Lemma clean_plate_text_symbols t : Forall (fun c => plate_symbol c = true) (clean_plate_text t).
Proof.
  unfold clean_plate_text, re_sub_delete_not.
  apply List.Forall_forall. intros c Hin. apply filter_In in Hin as [_ H]. exact H.
Qed.

Lemma any_Exists (P : ascii -> bool) (t : text) :
  any P t = true -> Exists (fun c => P c = true) t.
Proof.
  unfold any. intros H. apply existsb_exists in H as (c & Hin & Hc).
  apply List.Exists_exists. eauto.
Qed.

(** A text the pipeline lets through as a plate number. *)
Definition plate_number_shape (t : text) : Prop :=
  Forall (fun c => plate_symbol c = true) t
  /\ (4 <= length t <= 8)%nat
  /\ Exists (fun c => plate_letter c = true) t
  /\ Exists (fun c => plate_digit c = true) t.

Section Pipeline.
Variable image : Type.
Variable detect_vehicles : image -> list vehicle.
Variable detect_in_roi : image -> bbox -> list plate.
Variable crop_plate : image -> bbox -> image.
Variable readtext : image -> option (list PlateOCR.ocr_result).
Variable preprocess_plate : image -> option image.
Variable convertScaleAbs : image -> Q -> Z -> image.

Local Abbreviation pipeline := (EntryPipeline.EntryPipeline).
Local Abbreviation read_frame :=
  (read_frame image detect_vehicles detect_in_roi crop_plate readtext
              preprocess_plate convertScaleAbs).
Local Abbreviation process_frame :=
  (process_frame image detect_vehicles detect_in_roi crop_plate readtext
                 preprocess_plate convertScaleAbs).

Lemma read_text_symbols threshold plate_image preprocess t :
  PlateOCR.read_text image readtext preprocess_plate threshold plate_image preprocess
  = Some t ->
  Forall (fun c => plate_symbol c = true) t.
Proof.
  unfold PlateOCR.read_text.
  destruct (if preprocess then _ else _) as [processed|]; [|discriminate].
  destruct (readtext processed) as [[|r results]|]; try discriminate.
  destruct (Py.max_by _ _ _) as [[best_text best_conf]|]; [|discriminate].
  intros [= <-]. apply clean_plate_text_symbols.
Qed.

Lemma attempts_symbols threshold plate_image :
  Forall (fun t => Forall (fun c => plate_symbol c = true) t)
         (collect_attempts image readtext preprocess_plate convertScaleAbs
                           threshold plate_image).
Proof.
  unfold collect_attempts. cbv zeta.
  repeat match goal with
  | |- context [truthy ?r] =>
      let E := fresh "E" in
      destruct r as [?t|] eqn:E;
        [apply read_text_symbols in E | idtac]
  end; simpl;
  repeat match goal with
  | |- context [match ?t with [] => _ | _ :: _ => _ end] => destruct t
  end; simpl;
  repeat (apply Forall_app; split); repeat constructor;
  try assumption;
  repeat match goal with
  | H : Forall _ (_ :: _) |- _ => inversion H; subst; clear H
  end; auto.
Qed.

Lemma multiple_attempts_symbols threshold plate_image t :
  read_with_multiple_attempts image readtext preprocess_plate convertScaleAbs
                              threshold plate_image = Some t ->
  Forall (fun c => plate_symbol c = true) t.
Proof.
  unfold read_with_multiple_attempts. intros H.
  pose proof (attempts_symbols threshold plate_image) as Hall.
  pose proof (PlateOCRFacts.max_by_longest (@length ascii)
                (collect_attempts image readtext preprocess_plate convertScaleAbs
                                  threshold plate_image)) as Hmax.
  destruct (collect_attempts _ _ _ _ _ _) as [|a l]; [discriminate|].
  cbn [Py.is_empty_list] in H. rewrite H in Hmax. destruct Hmax as [Hin _].
  exact (proj1 (List.Forall_forall _ _) Hall t Hin).
Qed.

Lemma validate_shape t :
  Forall (fun c => plate_symbol c = true) t ->
  validate_plate_format t None = true ->
  plate_number_shape t.
Proof.
  intros Hs. unfold validate_plate_format.
  destruct (is_empty t); [discriminate|].
  destruct (Nat.leb_spec 4 (length t)) as [H4 | H4]; [|discriminate].
  destruct (Nat.leb_spec (length t) 8) as [H8 | H8]; [|discriminate].
  cbn [andb negb]. intros H. apply andb_prop in H as [Hd Ha].
  split; [exact Hs|]. split; [lia|].
  apply any_Exists in Hd, Ha. split.
  - apply List.Exists_exists in Ha as (c & Hin & Hc).
    apply List.Exists_exists. exists c. split; [exact Hin|].
    unfold plate_letter.
    rewrite <- (proj1 (plate_symbol_classes c
                         (proj1 (List.Forall_forall _ _) Hs c Hin))).
    exact Hc.
  - apply List.Exists_exists in Hd as (c & Hin & Hc).
    apply List.Exists_exists. exists c. split; [exact Hin|].
    unfold plate_digit.
    rewrite <- (proj2 (plate_symbol_classes c
                         (proj1 (List.Forall_forall _ _) Hs c Hin))).
    exact Hc.
Qed.

Lemma read_frame_shape p frame vehicle plate plate_image plate_text :
  read_frame p frame = Some (vehicle, plate, plate_image, plate_text) ->
  plate_number_shape plate_text
  /\ get_largest_vehicle (detect_vehicles frame) = Some vehicle
  /\ get_best_plate (detect_in_roi frame (vehicle_bbox vehicle)) = Some plate
  /\ plate_image = crop_plate frame (plate_bbox plate).
Proof.
  unfold EntryPipeline.read_frame.
  destruct (get_largest_vehicle (detect_vehicles frame)) as [v|] eqn:Egv;
    [|discriminate].
  destruct (get_best_plate (detect_in_roi frame (vehicle_bbox v))) as [pl|] eqn:Egp;
    [|discriminate].
  cbv zeta.
  destruct (read_with_multiple_attempts _ _ _ _ _ _) as [t|] eqn:Et;
    [|discriminate].
  destruct t as [|c t]; [discriminate|].
  change (truthy (Some (c :: t))) with true.
  change (default [] (Some (c :: t))) with (c :: t). cbn [andb].
  destruct (validate_plate_format (c :: t) None) eqn:Ev; [|discriminate].
  intros [= <- <- <- <-].
  split; [|repeat split; auto].
  apply validate_shape; [|exact Ev].
  eapply multiple_attempts_symbols, Et.
Qed.

(** What a call of [process_frame] comes to. *)
Definition frame_outcome (current_time : Z) (response : backend_outcome)
           (frame : image) (p : pipeline) (out : outcome image) (p' : pipeline)
  : Prop :=
  frame_count p' = frame_count p + 1
  /\ config p' = config p
  /\ match out with
     | Raised _ => FRAME_SKIP (config p) = 0 /\ p' = count_frame p
     | Returned _ None => p' = count_frame p
     | Returned _ (Some r) =>
         plate_number_shape (plate_number image r)
         /\ (frame_count p + 1) mod FRAME_SKIP (config p) = 0
         /\ is_duplicate p (plate_number image r) current_time = false
         /\ timestamp image r = current_time
         /\ backend image r = response
         /\ (exists vehicle plate,
               get_largest_vehicle (detect_vehicles frame) = Some vehicle
               /\ get_best_plate (detect_in_roi frame (vehicle_bbox vehicle))
                  = Some plate
               /\ vehicle_type image r = class_name vehicle
               /\ result_vehicle_bbox image r = vehicle_bbox vehicle
               /\ result_plate_bbox image r = plate_bbox plate
               /\ plate_image image r = crop_plate frame (plate_bbox plate))
         /\ p' = remember (plate_number image r) current_time (count_frame p)
     end.

(** X17.  Every call of [process_frame] counts the frame and keeps the
    configuration.  It raises only when [FRAME_SKIP] is 0.  When it
    reports no entry it leaves the remembered plate and time alone.  When
    it reports an entry, the frame is one the frame skip lets through,
    the plate number is 4 to 8 characters long, made of capitals A to Z
    and digits with at least one of each, and no duplicate of the
    remembered plate; the entry is of the largest vehicle of the frame
    and of its most confident plate, carries the clock reading and the
    outcome of the backend call, and the pipeline remembers the plate
    number and the clock reading. *)
Theorem process_frame_outcome current_time response frame p :
  let '(out, p') := process_frame current_time response frame p in
  frame_outcome current_time response frame p out p'.
Proof.
  unfold EntryPipeline.process_frame. cbv zeta.
  change (FRAME_SKIP (config (count_frame p))) with (FRAME_SKIP (config p)).
  change (frame_count (count_frame p)) with (frame_count p + 1).
  destruct (Z.eqb_spec (FRAME_SKIP (config p)) 0) as [E0 | N0].
  { repeat split; auto. }
  destruct (Z.eqb_spec ((frame_count p + 1) mod FRAME_SKIP (config p)) 0)
    as [Em | Nm]; cbn [negb]; [|repeat split; auto].
  destruct (read_frame (count_frame p) frame) as [[[[v pl] pimg] t]|] eqn:Er;
    [|repeat split; auto].
  change (is_duplicate (count_frame p) t current_time)
    with (is_duplicate p t current_time).
  destruct (is_duplicate p t current_time) eqn:Ed; [repeat split; auto|].
  destruct (read_frame_shape _ _ _ _ _ _ Er) as (Hs & Hv & Hp & Hi).
  split; [reflexivity|]. split; [reflexivity|].
  cbn [plate_number timestamp backend vehicle_type result_vehicle_bbox
       result_plate_bbox plate_image].
  split; [exact Hs|]. split; [exact Em|]. split; [exact Ed|].
  split; [reflexivity|]. split; [reflexivity|].
  split; [|reflexivity].
  exists v, pl. repeat split; auto.
Qed.

Lemma entry_carries_backend_outcome current_time response frame p r :
  fst (process_frame current_time response frame p) = Returned image (Some r) ->
  backend image r = response.
Proof.
  unfold EntryPipeline.process_frame. cbv zeta.
  destruct (FRAME_SKIP _ =? 0); [discriminate|].
  destruct (negb _); [discriminate|].
  destruct (read_frame (count_frame p) frame) as [[[[v pl] pimg] t]|];
    [|discriminate].
  destruct (is_duplicate _ _ _); [discriminate|].
  cbn [fst]. intros [= <-]. reflexivity.
Qed.

(** X18.  An entry whose registration fails is not tried again: the
    pipeline has remembered the plate before it calls the backend, so a
    frame that shows the plate again within the next ten seconds is
    dropped as a duplicate, as if the registration had succeeded.  [q] is
    the pipeline at that frame: it remembers what the pipeline remembered
    after the failed call, which the frames that report no entry leave
    alone. *)
Theorem failed_registration_is_not_retried
        p frame q frame' plate_text t1 t2 error response' :
  reads image detect_vehicles detect_in_roi crop_plate readtext preprocess_plate
        convertScaleAbs p frame plate_text ->
  is_duplicate p plate_text t1 = false ->
  let p1 := snd (process_frame t1 (failed error) frame p) in
  last_processed_plate q = last_processed_plate p1 ->
  last_processed_time q = last_processed_time p1 ->
  reads image detect_vehicles detect_in_roi crop_plate readtext preprocess_plate
        convertScaleAbs q frame' plate_text ->
  0 <= t2 - t1 < seconds 10 ->
  (exists r, fst (process_frame t1 (failed error) frame p) = Returned image (Some r)
             /\ plate_number image r = plate_text
             /\ backend image r = failed error)
  /\ process_frame t2 response' frame' q = (Returned image None, count_frame q).
Proof.
  intros Hr Hd p1 Hqp Hqt Hr' Ht.
  pose proof (process_read_frame image detect_vehicles detect_in_roi crop_plate
                readtext preprocess_plate convertScaleAbs
                p frame plate_text t1 (failed error) Hr) as H1.
  pose proof (entry_carries_backend_outcome t1 (failed error) frame p) as O1.
  unfold p1 in *. clear p1.
  destruct (process_frame t1 (failed error) frame p) as [out1 p1].
  rewrite Hd in H1. destruct H1 as [(r & -> & Hpn & Hts) ->]. cbn [fst snd] in *.
  split.
  { exists r. split; [reflexivity|]. split; [exact Hpn | apply O1; reflexivity]. }
  pose proof (process_read_frame image detect_vehicles detect_in_roi crop_plate
                readtext preprocess_plate convertScaleAbs
                q frame' plate_text t2 response' Hr') as H2.
  destruct (process_frame t2 response' frame' q) as [out2 p2].
  assert (E : is_duplicate q plate_text t2 = true).
  { rewrite (duplicate_gate_within_a_day q plate_text t1 t2);
      [| exact Hqt | unfold day, seconds in *; lia].
    rewrite Hqp. cbn [last_processed_plate remember].
    rewrite bool_decide_eq_true_2 by reflexivity.
    apply Z.ltb_lt. lia. }
  rewrite E in H2. destruct H2 as [-> ->]. reflexivity.
Qed.
End Pipeline.

Definition gate_process :=
  process_frame nat demo_vehicles demo_plates (fun _ _ => 0%nat)
                PlateOCRFacts.demo_readtext (fun i => Some (S i))
                (fun i _ _ => (i + 10)%nat).

(** The pipeline before the car drives up, and five frames later. *)
Definition gate_before : EntryPipeline.EntryPipeline :=
  {| config := demo_config; frame_count := 4;
     last_processed_plate := None; last_processed_time := None |}.
Definition gate_after : EntryPipeline.EntryPipeline :=
  {| config := demo_config; frame_count := 9;
     last_processed_plate := Some (txt "KA01AB12");
     last_processed_time := Some 0 |}.

Lemma failed_registration_is_not_retried_witness :
  (exists r, fst (gate_process 0 (failed "timeout") 0%nat gate_before)
             = Returned nat (Some r)
             /\ plate_number nat r = txt "KA01AB12"
             /\ backend nat r = failed "timeout")
  /\ gate_process (seconds 3) (responded "ok") 0%nat gate_after
     = (Returned nat None, count_frame gate_after).
Proof.
  apply (failed_registration_is_not_retried nat demo_vehicles demo_plates
           (fun _ _ => 0%nat) PlateOCRFacts.demo_readtext (fun i => Some (S i))
           (fun i _ _ => (i + 10)%nat)
           gate_before 0%nat gate_after 0%nat (txt "KA01AB12") 0 (seconds 3)
           "timeout" (responded "ok")).
  - split; [discriminate | split; [reflexivity |]].
    eexists _, _, _; vm_compute; reflexivity.
  - reflexivity.
  - vm_compute. reflexivity.
  - vm_compute. reflexivity.
  - split; [discriminate | split; [reflexivity |]].
    eexists _, _, _; vm_compute; reflexivity.
  - split; [discriminate | reflexivity].
Defined.
End EntryEventFacts.

Module DetectorFacts.
Import PyText Detector.

(** *** Classification *)

Lemma starts_with_spec needle : forall haystack,
  starts_with needle haystack = true <-> exists post, haystack = needle ++ post.
Proof.
  induction needle as [|a needle IH]; intros haystack; simpl.
  - split; [intros _; exists haystack; reflexivity | reflexivity].
  - destruct haystack as [|b haystack].
    + split; [discriminate | intros [post H]; discriminate].
    + rewrite andb_true_iff, IH. split.
      * intros [E [post ->]]. apply Ascii.eqb_eq in E as ->.
        exists post. reflexivity.
      * intros [post [= -> ->]]. split; [apply Ascii.eqb_refl | eauto].
Qed.

Lemma contains_spec needle : forall haystack,
  contains needle haystack = true
  <-> exists pre post, haystack = pre ++ needle ++ post.
Proof.
  induction haystack as [|b haystack IH].
  - simpl. rewrite orb_false_r, starts_with_spec. split.
    + intros [post E]. exists [], post. exact E.
    + intros (pre & post & E). destruct pre as [|? ?]; [|discriminate].
      exists post. exact E.
  - cbn [contains]. rewrite orb_true_iff, starts_with_spec, IH. split.
    + intros [[post E] | (pre & post & E)].
      * exists [], post. exact E.
      * exists (b :: pre), post. rewrite E. reflexivity.
    + intros (pre & post & E). destruct pre as [|c pre].
      * left. exists post. exact E.
      * right. inversion E; subst. exists pre, post. reflexivity.
Qed.

Lemma contains_inside needle pre s post :
  contains needle s = true -> contains needle (pre ++ s ++ post) = true.
Proof.
  rewrite !contains_spec. intros (a & b & ->).
  exists (pre ++ a), (b ++ post). rewrite <- !app_assoc. reflexivity.
Qed.

Definition names_a (words : list text) (s : text) : bool :=
  existsb (fun cls => contains cls (lower s)) words.

Definition car_words : list text := [txt "car"; txt "truck"; txt "van"; txt "suv"].
Definition bike_words : list text := [txt "motorcycle"; txt "bicycle"; txt "scooter"].

Lemma classify_cases s :
  _classify_vehicle_type s
  = if names_a car_words s then Some "CAR"%string
    else if names_a bike_words s then Some "BIKE"%string
    else None.
Proof.
  unfold _classify_vehicle_type, names_a, vehicle_classes. cbv zeta.
  cbn [find snd]. fold car_words bike_words.
  destruct (existsb _ car_words); [reflexivity|].
  destruct (existsb _ bike_words); reflexivity.
Qed.

Lemma names_a_inside words pre s post :
  names_a words s = true -> names_a words (pre ++ s ++ post) = true.
Proof.
  unfold names_a. rewrite !existsb_exists. intros (w & Hin & Hw).
  exists w. split; [exact Hin|].
  unfold lower. rewrite !map_app. apply contains_inside, Hw.
Qed.

(** X19.  The classifier looks for the words inside the class name, and for
    the car words first.  So text around a class name never loses the
    vehicle in it: a name that classifies as a car still does with any
    text before and after it, and one that classifies as a bike then
    classifies as a bike or as a car, never as no vehicle. *)
Theorem text_around_a_class_name_keeps_the_vehicle (pre s post : text) :
  _classify_vehicle_type s <> None ->
  (_classify_vehicle_type s = Some "CAR"%string ->
   _classify_vehicle_type (pre ++ s ++ post) = Some "CAR"%string)
  /\ (_classify_vehicle_type (pre ++ s ++ post) = Some "CAR"%string
      \/ _classify_vehicle_type (pre ++ s ++ post) = Some "BIKE"%string).
Proof.
  rewrite !classify_cases. intros Hs.
  destruct (names_a car_words s) eqn:Ec.
  - rewrite (names_a_inside car_words pre s post Ec). auto.
  - destruct (names_a bike_words s) eqn:Eb; [|congruence].
    rewrite (names_a_inside bike_words pre s post Eb).
    split; [discriminate|].
    destruct (names_a car_words (pre ++ s ++ post)); auto.
Qed.

Lemma text_around_a_class_name_keeps_the_vehicle_witness :
  (_classify_vehicle_type (txt "car") = Some "CAR"%string ->
   _classify_vehicle_type ([] ++ txt "car" ++ txt "rot") = Some "CAR"%string)
  /\ (_classify_vehicle_type ([] ++ txt "car" ++ txt "rot") = Some "CAR"%string
      \/ _classify_vehicle_type ([] ++ txt "car" ++ txt "rot") = Some "BIKE"%string).
Proof.
  apply (text_around_a_class_name_keeps_the_vehicle [] (txt "car") (txt "rot")).
  vm_compute. discriminate.
Defined.

(** Class names of the COCO model the default weights carry. *)
Example coco_class_names :
  _classify_vehicle_type (txt "car") = Some "CAR"%string
  /\ _classify_vehicle_type (txt "motorcycle") = Some "BIKE"%string
  /\ _classify_vehicle_type (txt "bus") = None
  /\ _classify_vehicle_type (txt "carrot") = Some "CAR"%string.
Proof. vm_compute. repeat split. Qed.

(** *** Boxes and centres *)

Lemma py_int_nonneg q : (0 <= q)%Q -> py_int q = Qfloor q.
Proof.
  intros H. unfold py_int. apply Qle_bool_iff in H. rewrite H. reflexivity.
Qed.

Lemma floor_half_sum a b :
  (0 <= a)%Q -> (a <= b)%Q ->
  Qfloor a <= Qfloor ((a + b) / 2) <= Qfloor a + Qfloor (b - a) + 1.
Proof.
  intros Ha Hab.
  assert (Hm1 : (a <= (a + b) / 2)%Q).
  { apply Qle_shift_div_l; [reflexivity | lra]. }
  assert (Hm2 : ((a + b) / 2 <= b)%Q).
  { apply Qle_shift_div_r; [reflexivity | lra]. }
  split.
  - apply Qfloor_resp_le, Hm1.
  - pose proof (Qlt_floor a) as Fa. pose proof (Qlt_floor (b - a)) as Fd.
    pose proof (Qfloor_le ((a + b) / 2)) as Fm.
    rewrite inject_Z_plus in Fa, Fd. change (inject_Z 1) with 1%Q in Fa, Fd.
    assert (H : (inject_Z (Qfloor ((a + b) / 2))
                 < inject_Z (Qfloor a + Qfloor (b - a) + 2))%Q).
    { rewrite !inject_Z_plus. change (inject_Z 2) with 2%Q. lra. }
    rewrite <- Zlt_Qlt in H. lia.
Qed.

(** X20.  The centre against the box.  A detection has the class CAR or BIKE
    and the confidence and clock reading it was made with.  When the box
    of the model has non-negative corners with x1 <= x2 and y1 <= y2, the
    width and height are not negative and the centre lies within the
    detection's own box or one pixel beyond its right or lower edge: the
    corner, the size and the centre are each cut to an integer on their
    own. *)
Theorem detection_centre_within_a_pixel_of_its_box now box det :
  detection_of now box = Some det ->
  (class_name det = "CAR"%string \/ class_name det = "BIKE"%string)
  /\ confidence det = box_conf box /\ timestamp det = now
  /\ let '(x1, y1, x2, y2) := box_xyxy box in
     let '(x, y, w, h) := bbox det in
     let '(cx, cy) := center_point det in
     (0 <= x1)%Q -> (x1 <= x2)%Q -> (0 <= y1)%Q -> (y1 <= y2)%Q ->
     0 <= w /\ 0 <= h
     /\ x <= cx <= x + w + 1 /\ y <= cy <= y + h + 1.
Proof.
  unfold detection_of. destruct (box_xyxy box) as [[[x1 y1] x2] y2].
  rewrite classify_cases.
  assert (Hcls : forall ty,
    (if names_a car_words (box_class box) then Some "CAR"%string
     else if names_a bike_words (box_class box) then Some "BIKE"%string else None)
    = Some ty -> ty = "CAR"%string \/ ty = "BIKE"%string).
  { intros ty. destruct (names_a car_words _); [intros [= <-]; auto|].
    destruct (names_a bike_words _); [intros [= <-]; auto | discriminate]. }
  destruct (if names_a car_words (box_class box) then _ else _) as [ty|] eqn:Ety;
    [|discriminate].
  intros [= <-]. cbn [class_name confidence timestamp bbox center_point].
  split; [apply Hcls; reflexivity|]. split; [reflexivity|]. split; [reflexivity|].
  intros Hx1 Hx Hy1 Hy.
  rewrite !py_int_nonneg by lra.
  assert (Hcx : (0 <= (x1 + x2) / 2)%Q) by (apply Qle_shift_div_l; [reflexivity | lra]).
  assert (Hcy : (0 <= (y1 + y2) / 2)%Q) by (apply Qle_shift_div_l; [reflexivity | lra]).
  rewrite !py_int_nonneg by assumption.
  pose proof (floor_half_sum x1 x2 Hx1 Hx). pose proof (floor_half_sum y1 y2 Hy1 Hy).
  assert (0 <= Qfloor (x2 - x1))
    by (change 0 with (Qfloor 0); apply Qfloor_resp_le; lra).
  assert (0 <= Qfloor (y2 - y1))
    by (change 0 with (Qfloor 0); apply Qfloor_resp_le; lra).
  lia.
Qed.

Definition thin_box : yolo_box :=
  {| box_class := txt "car"; box_conf := 9 # 10;
     box_xyxy := (9 # 10, 0, 11 # 10, 5)%Q |}.

Definition thin_detection : Detection :=
  {| class_name := "CAR"; confidence := 9 # 10; bbox := (0, 0, 0, 5);
     center_point := (1, 2); timestamp := 0 |}.

Lemma detection_centre_within_a_pixel_of_its_box_witness :
  (class_name thin_detection = "CAR"%string \/ class_name thin_detection = "BIKE"%string)
  /\ confidence thin_detection = box_conf thin_box /\ timestamp thin_detection = 0
  /\ let '(x1, y1, x2, y2) := box_xyxy thin_box in
     let '(x, y, w, h) := bbox thin_detection in
     let '(cx, cy) := center_point thin_detection in
     (0 <= x1)%Q -> (x1 <= x2)%Q -> (0 <= y1)%Q -> (y1 <= y2)%Q ->
     0 <= w /\ 0 <= h
     /\ x <= cx <= x + w + 1 /\ y <= cy <= y + h + 1.
Proof.
  apply (detection_centre_within_a_pixel_of_its_box 0 thin_box thin_detection).
  vm_compute. reflexivity.
Defined.

(** The pixel beyond is reached: a box from 0.9 to 1.1 has its corner at
    0, the width 0 and its centre at 1, outside the zone of its own box. *)
Example centre_outside_its_own_box :
  detection_of 0 thin_box = Some thin_detection
  /\ is_vehicle_in_zone thin_detection (bbox thin_detection) = false.
Proof. vm_compute. split; reflexivity. Qed.
End DetectorFacts.

Module CameraDispatchFacts.
Import Detector AnprDetect CameraDispatch CvService CvServiceFacts.

Lemma entry_without_loop t_check t_store d s :
  let s' := _handle_entry_detection false t_check t_store d s in
  tasks s' = tasks s
  /\ successful_entries (stats s') = successful_entries (stats s)
  /\ successful_exits (stats s') = successful_exits (stats s)
  /\ config s' = config s /\ api_cooldown s' = api_cooldown s.
Proof.
  unfold _handle_entry_detection, _is_rate_limited.
  destruct (no_plate _); [auto|]. cbv zeta.
  destruct (last_api_call s !! _) as [last|]; [destruct (_ <? _); [auto|]|];
    simpl; destruct (Py.Qltb _ _); auto.
Qed.

Lemma exit_without_loop t_check t_store d s :
  let s' := _handle_exit_detection false t_check t_store d s in
  tasks s' = tasks s
  /\ successful_entries (stats s') = successful_entries (stats s)
  /\ successful_exits (stats s') = successful_exits (stats s)
  /\ config s' = config s /\ api_cooldown s' = api_cooldown s.
Proof.
  unfold _handle_exit_detection, _is_rate_limited.
  destruct (no_plate _); [auto|]. cbv zeta.
  destruct (last_api_call s !! _) as [last|]; [destruct (_ <? _); [auto|]|];
    simpl; auto.
Qed.

Section Dispatch.
Variable infer : SlotDetector.image -> option (list yolo_box).
Variable _preprocess_image : SlotDetector.image -> option SlotDetector.gray.
Variable readtext : SlotDetector.gray -> option (list PlateOCR.ocr_result).

Local Abbreviation process :=
  (_process_frame infer _preprocess_image readtext).

(** A frame a worker has read, with what the worker meets on it. *)
Record worked_frame := {
  of_camera : CameraManager.CameraStream;
  model_loaded : bool;
  reader_loaded : bool;
  clock : Z -> Z;
  at_detection : Z -> clocks;
  frame : SlotDetector.image }.

Definition work (s : CVParkingService) (f : worked_frame) : CVParkingService :=
  process (of_camera f) (model_loaded f) (reader_loaded f) (clock f)
          (at_detection f) (frame f) s.

(** What the handlers leave alone where no loop runs. *)
Definition same_calls (s s' : CVParkingService) : Prop :=
  tasks s' = tasks s
  /\ successful_entries (stats s') = successful_entries (stats s)
  /\ successful_exits (stats s') = successful_exits (stats s).

Lemma same_calls_refl s : same_calls s s.
Proof. repeat split. Qed.

Lemma same_calls_trans s1 s2 s3 :
  same_calls s1 s2 -> same_calls s2 s3 -> same_calls s1 s3.
Proof. intros (A & B & C) (A' & B' & C'). repeat split; congruence. Qed.

Lemma fold_same_calls {A} (body : CVParkingService -> A -> CVParkingService) l :
  (forall s x, same_calls s (body s x)) ->
  forall s, same_calls s (fold_left body l s).
Proof.
  intros Hb. induction l as [|x l IH]; intros s; simpl; [apply same_calls_refl|].
  eapply same_calls_trans; [apply Hb | apply IH].
Qed.

Lemma work_same_calls s f : same_calls s (work s f).
Proof.
  unfold work, _process_frame. cbv zeta.
  apply fold_same_calls. intros s0 [i det].
  destruct (String.eqb (CameraManager.role (of_camera f)) "ENTRY").
  { destruct (entry_without_loop
                (check_clock (at_detection f i)) (store_clock (at_detection f i))
                (detection_data_of (CameraManager.camera_id (of_camera f)) det
                   (extract_plate_from_vehicle _preprocess_image readtext
                      (reader_loaded f) (plate_clock (at_detection f i)) (frame f)
                      (Detector.bbox det))) s0) as (A & B & C & _).
    repeat split; assumption. }
  destruct (String.eqb (CameraManager.role (of_camera f)) "EXIT").
  { destruct (exit_without_loop
                (check_clock (at_detection f i)) (store_clock (at_detection f i))
                (detection_data_of (CameraManager.camera_id (of_camera f)) det
                   (extract_plate_from_vehicle _preprocess_image readtext
                      (reader_loaded f) (plate_clock (at_detection f i)) (frame f)
                      (Detector.bbox det))) s0) as (A & B & C & _).
    repeat split; assumption. }
  destruct (String.eqb (CameraManager.role (of_camera f)) "INDOOR");
    apply same_calls_refl.
Qed.

(** X21.  No frame of a camera ever reaches the backend.  The manager calls
    the handlers of the service on the worker thread of the camera, where
    no event loop runs, so [asyncio.create_task] raises and the handler
    logs the error: whatever the cameras, the frames and the detections,
    the service schedules no backend call and its counts of registered
    entries and exits stay where they were. *)
Theorem camera_frames_schedule_no_backend_call (frames : list worked_frame)
        (s : CVParkingService) :
  let s' := fold_left work frames s in
  tasks s' = tasks s
  /\ successful_entries (stats s') = successful_entries (stats s)
  /\ successful_exits (stats s') = successful_exits (stats s).
Proof.
  apply (fold_same_calls work frames work_same_calls s).
Qed.
End Dispatch.

(** An entry camera whose every frame shows one car with the plate
    KA01AB1234, read with confidence 0.95. *)
Definition entry_camera : CameraManager.CameraStream :=
  {| CameraManager.camera_id := 1; CameraManager.camera_code := "ENTRY_1";
     CameraManager.rtsp_url := "rtsp://entry"; CameraManager.role := "ENTRY";
     CameraManager.floor_id := None; CameraManager.is_active := true;
     CameraManager.fps := 5 |}.

Definition car_frame : SlotDetector.image := repeat (repeat [0; 0; 0] 4) 4.

Definition car_model (frame : SlotDetector.image) : option (list yolo_box) :=
  Some [ {| box_class := PyText.txt "car"; box_conf := 9 # 10;
            box_xyxy := (0, 0, 4, 4)%Q |} ].

Definition plate_reader (processed : SlotDetector.gray)
  : option (list PlateOCR.ocr_result) :=
  Some [ ([(0, 0); (3, 0); (3, 1); (0, 1)], PyText.txt "KA01AB1234", 95 # 100) ].

(** A frame of the camera, worked at clock reading [t]. *)
Definition entry_frame_at (t : Z) (s : CVParkingService) : CVParkingService :=
  _process_frame car_model (fun img => Some (OccupancyFacts.first_channel img)) plate_reader
                 entry_camera true true (fun _ => t)
                 (fun _ => {| plate_clock := t; check_clock := t; store_clock := t |})
                 car_frame s.

(** Scenarios A, B and C as the program runs them: the camera shows the
    car at 0, 3 and 6 seconds.  Every frame reaches the entry handler
    with the plate; the second is dropped by the rate limiter, the first
    and the third take the rate-limit slot, and none schedules a backend
    call. *)
Example entry_camera_detections_make_no_call :
  let s1 := entry_frame_at 0 service0 in
  let s2 := entry_frame_at (seconds 3) s1 in
  let s3 := entry_frame_at (seconds 6) s2 in
  last_api_call s1 !! rate_key "entry" "KA01AB1234" = Some 0
  /\ s2 = s1
  /\ last_api_call s3 !! rate_key "entry" "KA01AB1234" = Some (seconds 6)
  /\ tasks s3 = []
  /\ stats s3 = stats service0.
Proof. vm_compute. repeat split. Qed.
End CameraDispatchFacts.

Module CameraLifecycleFacts.
Import CameraManager CameraLifecycle.

(** *** The tables agree *)

Definition consistent (m : manager) : Prop :=
  dom (cameras m) = detection_queues m
  /\ dom (frame_counts m) = dom (cameras m)
  /\ dom (capture_objects m) = dom (stop_flags m)
  /\ dom (processing_threads m) ⊆ dom (stop_flags m)
  /\ dom (stop_flags m) ⊆ dom (cameras m).

Lemma consistent_init : consistent init.
Proof. unfold consistent, init; simpl. repeat split; set_solver. Qed.

Lemma consistent_add cs m : consistent m -> consistent (add_camera cs m).
Proof.
  unfold consistent, add_camera; simpl. intros (A & B & C & D & E).
  rewrite !dom_insert_L. repeat split; set_solver.
Qed.

Lemma consistent_stop id m : consistent m -> consistent (stop_camera id m).
Proof.
  unfold consistent, stop_camera; simpl. intros (A & B & C & D & E).
  rewrite !dom_delete_L. repeat split; set_solver.
Qed.

Lemma consistent_start o id m : consistent m -> consistent (start_camera o id m).
Proof.
  unfold start_camera. intros H.
  destruct (cameras m !! id) as [cs|] eqn:Ec; [|exact H].
  assert (id ∈ dom (cameras m)) by (apply elem_of_dom; eauto).
  destruct o; try exact H;
    destruct H as (A & B & C & D & E); unfold consistent; simpl;
    rewrite !dom_insert_L; repeat split; set_solver.
Qed.

Lemma consistent_set_running b m : consistent m -> consistent (set_running b m).
Proof. intros H. exact H. Qed.

Lemma consistent_count id m : consistent m -> consistent (count_frame id m).
Proof.
  unfold count_frame. intros H.
  destruct (frame_counts m !! id) as [n|] eqn:En; [|exact H].
  destruct H as (A & B & C & D & E). unfold consistent; simpl.
  rewrite dom_insert_L.
  assert (id ∈ dom (frame_counts m)) by (apply elem_of_dom; eauto).
  repeat split; set_solver.
Qed.

Lemma fold_preserves {A} (P : manager -> Prop) (body : manager -> A -> manager) l :
  (forall m x, P m -> P (body m x)) ->
  forall m, P m -> P (fold_left body l m).
Proof.
  intros Hb. induction l as [|x l IH]; intros m H; simpl; [exact H|].
  apply IH, Hb, H.
Qed.

Lemma start_all_preserves (P : manager -> Prop) outcomes m :
  (forall b m, P m -> P (set_running b m)) ->
  (forall o id m, P m -> P (start_camera o id m)) ->
  P m -> P (start_all_cameras outcomes m).
Proof.
  intros Hr Hs H. unfold start_all_cameras. cbv zeta.
  apply fold_preserves; [|apply Hr, H].
  intros m0 [id cs] H0. destruct (is_active cs); [apply Hs, H0 | exact H0].
Qed.

Lemma stop_all_preserves (P : manager -> Prop) m :
  (forall b m, P m -> P (set_running b m)) ->
  (forall id m, P m -> P (stop_camera id m)) ->
  P m -> P (stop_all_cameras m).
Proof.
  intros Hr Hs H. unfold stop_all_cameras. cbv zeta.
  apply fold_preserves; [|apply Hr, H].
  intros m0 id H0. apply Hs, H0.
Qed.

Lemma consistent_step m o :
  consistent m -> exists m', step m o = Some m' /\ consistent m'.
Proof.
  intros H. destruct o as [cs | id | oc id | id | outcomes | | id]; simpl.
  - eexists. split; [reflexivity | apply consistent_add, H].
  - unfold remove_camera.
    destruct (cameras m !! id) as [cs|] eqn:Ec; [|eauto].
    cbv zeta.
    assert (Hin : id ∈ detection_queues (stop_camera id m)).
    { destruct H as (A & _). simpl. rewrite <- A. apply elem_of_dom. eauto. }
    rewrite bool_decide_eq_true_2 by exact Hin.
    eexists. split; [reflexivity|].
    pose proof (consistent_stop id m H) as (A & B & C & D & E).
    unfold consistent; simpl in *. rewrite !dom_delete_L in *.
    repeat split; set_solver.
  - eexists. split; [reflexivity | apply consistent_start, H].
  - eexists. split; [reflexivity | apply consistent_stop, H].
  - eexists. split; [reflexivity|].
    apply start_all_preserves; auto using consistent_start.
  - eexists. split; [reflexivity|].
    apply stop_all_preserves; auto using consistent_stop.
  - eexists. split; [reflexivity | apply consistent_count, H].
Qed.

(** X22.  The tables of the manager stay in step.  Whatever is done to a
    fresh manager, in whatever order, and whether captures open and
    threads start or not, no operation raises (the [del]s of
    [remove_camera] find their keys), and afterwards the cameras are the
    keys of the detection queues and of the frame counts, the captures
    and the stop flags are registered for the same cameras, all of them
    cameras the manager knows, and every camera with a thread in the
    tables has a capture and a stop flag there.  The converse fails: a
    camera whose thread did not start keeps its capture and its flag. *)
Theorem manager_tables_stay_in_step (ops : list operation) :
  exists m, run ops init = Some m /\ consistent m.
Proof.
  assert (G : forall m, consistent m -> exists m', run ops m = Some m' /\ consistent m').
  { induction ops as [|o ops IH]; intros m H; simpl; [eauto|].
    destruct (consistent_step m o H) as (m1 & -> & H1). apply IH, H1. }
  apply G, consistent_init.
Qed.

(** *** A camera started twice *)

(** The objects the tables point to are older than the next one, no two
    cameras share one, and none of them is set or released. *)
Definition well_formed (m : manager) : Prop :=
  (forall k h, capture_objects m !! k = Some h -> (h < next_object m)%nat)
  /\ (forall k h, stop_flags m !! k = Some h -> (h < next_object m)%nat)
  /\ (forall k h, stop_flags m !! k = Some h -> h ∉ flags_set m)
  /\ (forall k h, capture_objects m !! k = Some h -> h ∉ released m)
  /\ (forall k k' h, capture_objects m !! k = Some h ->
                     capture_objects m !! k' = Some h -> k = k')
  /\ (forall k k' h, stop_flags m !! k = Some h ->
                     stop_flags m !! k' = Some h -> k = k')
  /\ (forall h, h ∈ flags_set m -> (h < next_object m)%nat)
  /\ (forall h, h ∈ released m -> (h < next_object m)%nat).

Lemma well_formed_init : well_formed init.
Proof.
  unfold well_formed, init; simpl.
  repeat split; intros; try (rewrite lookup_empty in *; discriminate); set_solver.
Qed.

Lemma well_formed_add cs m : well_formed m -> well_formed (add_camera cs m).
Proof. intros H. exact H. Qed.

Lemma well_formed_set_running b m : well_formed m -> well_formed (set_running b m).
Proof. intros H. exact H. Qed.

Lemma well_formed_count id m : well_formed m -> well_formed (count_frame id m).
Proof.
  unfold count_frame. intros H. destruct (frame_counts m !! id); exact H.
Qed.

Lemma well_formed_stop id m : well_formed m -> well_formed (stop_camera id m).
Proof.
  intros (W1 & W2 & W3 & W4 & W5 & W6 & W7 & W8).
  unfold well_formed, stop_camera; simpl.
  repeat split.
  - intros k h Hk. apply lookup_delete_Some in Hk as [_ Hk]. eauto.
  - intros k h Hk. apply lookup_delete_Some in Hk as [_ Hk]. eauto.
  - intros k h Hk. apply lookup_delete_Some in Hk as [Hne Hk].
    destruct (stop_flags m !! id) as [f|] eqn:Ef; [|eauto].
    intros Hin. apply elem_of_union in Hin as [Hin | Hin]; [|exact (W3 _ _ Hk Hin)].
    apply elem_of_singleton in Hin. rewrite Hin in Hk. apply Hne.
    first [exact (W6 _ _ _ Ef Hk) | exact (W6 _ _ _ Hk Ef)].
  - intros k h Hk. apply lookup_delete_Some in Hk as [Hne Hk].
    destruct (capture_objects m !! id) as [c|] eqn:Ecap; [|eauto].
    intros Hin. apply elem_of_union in Hin as [Hin | Hin]; [|exact (W4 _ _ Hk Hin)].
    apply elem_of_singleton in Hin. rewrite Hin in Hk. apply Hne.
    first [exact (W5 _ _ _ Ecap Hk) | exact (W5 _ _ _ Hk Ecap)].
  - intros k k' h Hk Hk'. apply lookup_delete_Some in Hk as [_ Hk].
    apply lookup_delete_Some in Hk' as [_ Hk']. eauto.
  - intros k k' h Hk Hk'. apply lookup_delete_Some in Hk as [_ Hk].
    apply lookup_delete_Some in Hk' as [_ Hk']. eauto.
  - intros h Hin. destruct (stop_flags m !! id) as [f|] eqn:Ef; [|eauto].
    apply elem_of_union in Hin as [Hin | Hin]; [|eauto].
    apply elem_of_singleton in Hin. subst h. eauto.
  - intros h Hin. destruct (capture_objects m !! id) as [c|] eqn:Ecap; [|eauto].
    apply elem_of_union in Hin as [Hin | Hin]; [|eauto].
    apply elem_of_singleton in Hin. subst h. eauto.
Qed.

(** A fresh capture and a fresh stop flag are put into the tables. *)
Lemma well_formed_register id m m' :
  well_formed m ->
  capture_objects m' = <[id := next_object m]> (capture_objects m) ->
  stop_flags m' = <[id := S (next_object m)]> (stop_flags m) ->
  flags_set m' = flags_set m -> released m' = released m ->
  next_object m' = S (S (S (next_object m))) ->
  well_formed m'.
Proof.
  intros (W1 & W2 & W3 & W4 & W5 & W6 & W7 & W8) Ec Ef Es Er En.
  unfold well_formed. rewrite Ec, Ef, Es, Er, En. repeat split.
  - intros k h Hk. apply lookup_insert_Some in Hk as [[_ <-] | [_ Hk]];
      [lia | specialize (W1 _ _ Hk); lia].
  - intros k h Hk. apply lookup_insert_Some in Hk as [[_ <-] | [_ Hk]];
      [lia | specialize (W2 _ _ Hk); lia].
  - intros k h Hk. apply lookup_insert_Some in Hk as [[_ <-] | [_ Hk]]; [|eauto].
    intros Hin. specialize (W7 _ Hin). lia.
  - intros k h Hk. apply lookup_insert_Some in Hk as [[_ <-] | [_ Hk]]; [|eauto].
    intros Hin. specialize (W8 _ Hin). lia.
  - intros k k' h Hk Hk'.
    apply lookup_insert_Some in Hk as [[<- <-] | [Hne Hk]];
      apply lookup_insert_Some in Hk' as [[<- E] | [Hne' Hk']]; auto.
    + specialize (W1 _ _ Hk'). lia.
    + subst h. specialize (W1 _ _ Hk). lia.
    + eauto.
  - intros k k' h Hk Hk'.
    apply lookup_insert_Some in Hk as [[<- <-] | [Hne Hk]];
      apply lookup_insert_Some in Hk' as [[<- E] | [Hne' Hk']]; auto.
    + specialize (W2 _ _ Hk'). lia.
    + subst h. specialize (W2 _ _ Hk). lia.
    + eauto.
  - intros h Hin. specialize (W7 _ Hin). lia.
  - intros h Hin. specialize (W8 _ Hin). lia.
Qed.

Lemma well_formed_start o id m : well_formed m -> well_formed (start_camera o id m).
Proof.
  unfold start_camera. intros H.
  destruct (cameras m !! id) as [cs|]; [|exact H].
  destruct o; try exact H;
    apply (well_formed_register id m _ H); reflexivity.
Qed.

Lemma well_formed_step m o m' :
  well_formed m -> step m o = Some m' -> well_formed m'.
Proof.
  intros H. destruct o as [cs | id | oc id | id | outcomes | | id]; simpl.
  - intros [= <-]. apply well_formed_add, H.
  - unfold remove_camera. destruct (cameras m !! id); [|intros [= <-]; exact H].
    cbv zeta. destruct (bool_decide _); [|discriminate].
    intros [= <-]. exact (well_formed_stop id m H).
  - intros [= <-]. apply well_formed_start, H.
  - intros [= <-]. apply well_formed_stop, H.
  - intros [= <-].
    apply start_all_preserves; auto using well_formed_start.
  - intros [= <-].
    apply stop_all_preserves; auto using well_formed_stop.
  - intros [= <-]. apply well_formed_count, H.
Qed.

Lemma well_formed_run ops : forall m m',
  well_formed m -> run ops m = Some m' -> well_formed m'.
Proof.
  induction ops as [|o ops IH]; intros m m' H; simpl; [intros [= <-]; exact H|].
  destruct (step m o) as [m1|] eqn:E; [|discriminate].
  apply IH. eapply well_formed_step; eauto.
Qed.

(** The flag [f] and the capture [c] are out of the manager's reach. *)
Definition out_of_reach (f c : nat) (m : manager) : Prop :=
  (forall k, stop_flags m !! k <> Some f)
  /\ (forall k, capture_objects m !! k <> Some c)
  /\ (f < next_object m)%nat /\ (c < next_object m)%nat
  /\ (f ∉ flags_set m) /\ (c ∉ released m).

Lemma out_of_reach_set_running f c b m :
  out_of_reach f c m -> out_of_reach f c (set_running b m).
Proof. intros H. exact H. Qed.

Lemma out_of_reach_stop f c id m :
  out_of_reach f c m -> out_of_reach f c (stop_camera id m).
Proof.
  intros (R1 & R2 & R3 & R4 & R5 & R6). unfold out_of_reach, stop_camera; simpl.
  repeat split; try assumption.
  - intros k Hk. apply lookup_delete_Some in Hk as [_ Hk]. exact (R1 k Hk).
  - intros k Hk. apply lookup_delete_Some in Hk as [_ Hk]. exact (R2 k Hk).
  - destruct (stop_flags m !! id) as [f'|] eqn:Ef; [|exact R5].
    intros Hin. apply elem_of_union in Hin as [Hin | Hin]; [|exact (R5 Hin)].
    apply elem_of_singleton in Hin. subst f'. exact (R1 id Ef).
  - destruct (capture_objects m !! id) as [c'|] eqn:Ecap; [|exact R6].
    intros Hin. apply elem_of_union in Hin as [Hin | Hin]; [|exact (R6 Hin)].
    apply elem_of_singleton in Hin. subst c'. exact (R2 id Ecap).
Qed.

Lemma out_of_reach_start f c o id m :
  out_of_reach f c m -> out_of_reach f c (start_camera o id m).
Proof.
  unfold start_camera. intros H.
  destruct (cameras m !! id) as [cs|]; [|exact H].
  destruct o; try exact H;
    destruct H as (R1 & R2 & R3 & R4 & R5 & R6); unfold out_of_reach; simpl;
    (repeat split; try assumption; try lia);
    intros k Hk; apply lookup_insert_Some in Hk as [[_ E] | [_ Hk]];
    first [lia | exact (R1 k Hk) | exact (R2 k Hk)].
Qed.

Lemma out_of_reach_step f c m o m' :
  out_of_reach f c m -> step m o = Some m' -> out_of_reach f c m'.
Proof.
  intros H. destruct o as [cs | id | oc id | id | outcomes | | id]; simpl.
  - intros [= <-]. exact H.
  - unfold remove_camera. destruct (cameras m !! id); [|intros [= <-]; exact H].
    cbv zeta. destruct (bool_decide _); [|discriminate].
    intros [= <-]. exact (out_of_reach_stop f c id m H).
  - intros [= <-]. apply out_of_reach_start, H.
  - intros [= <-]. apply out_of_reach_stop, H.
  - intros [= <-].
    apply start_all_preserves;
      auto using out_of_reach_start, out_of_reach_set_running.
  - intros [= <-].
    apply stop_all_preserves;
      auto using out_of_reach_stop, out_of_reach_set_running.
  - intros [= <-]. unfold count_frame. destruct (frame_counts m !! id); exact H.
Qed.

Lemma out_of_reach_run f c ops : forall m m',
  out_of_reach f c m -> run ops m = Some m' -> out_of_reach f c m'.
Proof.
  induction ops as [|o ops IH]; intros m m' H; simpl; [intros [= <-]; exact H|].
  destruct (step m o) as [m1|] eqn:E; [|discriminate].
  apply IH. eapply out_of_reach_step; eauto.
Qed.

(** X23.  Starting a running camera again leaves its first worker running for
    good.  Take a manager in any state it can reach, and a camera in it
    that has a worker: a capture [c] and a stop flag [f] are registered
    for it.  Once the camera is started again and its capture opens, the
    tables point to the new capture and flag, and nothing that is done
    to the manager afterwards sets [f] or releases [c]: the first worker
    keeps reading its capture, and [stop_camera] stops only the
    second. *)
Theorem restarted_camera_leaves_its_worker_running
        (before after : list operation) (m m' : manager)
        (camera : Z) (camera_stream : CameraStream) (c f : nat) :
  run before init = Some m ->
  cameras m !! camera = Some camera_stream ->
  capture_objects m !! camera = Some c ->
  stop_flags m !! camera = Some f ->
  run (Start opened camera :: after) m = Some m' ->
  (f ∉ flags_set m') /\ (c ∉ released m')
  /\ (forall k, stop_flags m' !! k <> Some f)
  /\ (forall k, capture_objects m' !! k <> Some c).
Proof.
  intros Hm Hcam Hc Hf Hrun.
  assert (W : well_formed m) by (eapply well_formed_run; [apply well_formed_init | exact Hm]).
  destruct W as (W1 & W2 & W3 & W4 & W5 & W6 & W7 & W8).
  simpl in Hrun.
  assert (R : out_of_reach f c (start_camera opened camera m)).
  { unfold start_camera. rewrite Hcam. unfold out_of_reach; simpl.
    pose proof (W1 _ _ Hc). pose proof (W2 _ _ Hf).
    repeat split; eauto; try lia.
    - intros k Hk. apply lookup_insert_Some in Hk as [[_ E] | [Hne Hk]]; [lia|].
      apply Hne. eapply W6; eauto.
    - intros k Hk. apply lookup_insert_Some in Hk as [[_ E] | [Hne Hk]]; [lia|].
      apply Hne. eapply W5; eauto. }
  pose proof (out_of_reach_run f c after _ m' R Hrun) as (R1 & R2 & _ & _ & R5 & R6).
  auto.
Qed.

Definition gate_camera : CameraStream :=
  {| camera_id := 1; camera_code := "ENTRY_01"; rtsp_url := "rtsp://gate";
     role := "ENTRY"; floor_id := None; is_active := true; fps := 10 |}.

(** The camera is added and started; then started again and stopped. *)
Definition started_once : manager :=
  start_camera opened 1 (add_camera gate_camera init).
Definition started_twice_then_stopped : manager :=
  stop_all_cameras (stop_camera 1 (start_camera opened 1 started_once)).

Lemma restarted_camera_leaves_its_worker_running_witness :
  (1%nat ∉ flags_set started_twice_then_stopped)
  /\ (0%nat ∉ released started_twice_then_stopped)
  /\ (forall k, stop_flags started_twice_then_stopped !! k <> Some 1%nat)
  /\ (forall k, capture_objects started_twice_then_stopped !! k <> Some 0%nat).
Proof.
  apply (restarted_camera_leaves_its_worker_running
           [Add gate_camera; Start opened 1] [Stop 1; StopAll]
           started_once started_twice_then_stopped 1 gate_camera 0%nat 1%nat);
    reflexivity.
Defined.

(** In that run the second capture is released and the second flag set,
    and no thread is left in the tables. *)
Example second_worker_is_stopped :
  flags_set started_twice_then_stopped = {[4%nat]}
  /\ released started_twice_then_stopped = {[3%nat]}
  /\ processing_threads started_twice_then_stopped = ∅
  /\ dom (threads started_twice_then_stopped) = {[2%nat; 5%nat]}.
Proof. vm_compute. repeat split. Qed.

(** A camera whose thread fails to start has a capture and a stop flag
    in the tables and no thread; [stop_camera] releases the capture. *)
Example thread_that_did_not_start :
  let m := start_camera start_raised 1 (add_camera gate_camera init) in
  capture_objects m !! 1 = Some 0%nat
  /\ stop_flags m !! 1 = Some 1%nat
  /\ processing_threads m = ∅
  /\ threads m = ∅
  /\ released (stop_camera 1 m) = {[0%nat]}.
Proof. vm_compute. repeat split. Qed.
End CameraLifecycleFacts.

Module IndoorPipelineFacts.
Import EntryPipeline IndoorPipeline PyFacts.

Section Pipeline.
Variable detect : SlotDetector.image -> list vehicle.

Local Abbreviation occupied_in frame s := (is_spot_occupied detect frame (spot_bbox s)).
Local Abbreviation process := (process_frame detect).
Local Abbreviation body := (check_spot detect).

(** The state the pipeline keeps of a spot; a spot it has no state of
    counts as free. *)
Definition kept (m : gmap string bool) (s : spot) : bool :=
  default false (m !! spot_id s).

(** The change of a spot, if its state in the frame is not the kept one. *)
Definition change_of (clock : Z -> Z) (frame : SlotDetector.image)
           (m : gmap string bool) (entry : Z * spot) : list occupancy_change :=
  if negb (Bool.eqb (occupied_in frame (snd entry)) (kept m (snd entry)))
  then [{| change_spot_id := spot_id (snd entry);
           occupied := occupied_in frame (snd entry);
           change_timestamp := clock (fst entry) |}]
  else [].

Definition ids (entries : list (Z * spot)) : list string :=
  map (fun e => spot_id (snd e)) entries.

(** The three components of the loop, one by one. *)
Definition states_of (frame : SlotDetector.image) (entries : list (Z * spot))
           (m : gmap string bool) : gmap string bool :=
  fold_left (fun m e => <[spot_id (snd e) := occupied_in frame (snd e)]> m) entries m.

Definition keep_step (frame : SlotDetector.image) (m : gmap string bool) (e : Z * spot) :=
  if negb (Bool.eqb (occupied_in frame (snd e)) (kept m (snd e)))
  then <[spot_id (snd e) := occupied_in frame (snd e)]> m
  else m.

Definition kept_after (frame : SlotDetector.image) (entries : list (Z * spot))
           (m : gmap string bool) : gmap string bool :=
  fold_left (keep_step frame) entries m.

Fixpoint changes (clock : Z -> Z) (frame : SlotDetector.image)
         (m : gmap string bool) (entries : list (Z * spot)) : list occupancy_change :=
  match entries with
  | [] => []
  | e :: rest => change_of clock frame m e ++ changes clock frame (keep_step frame m e) rest
  end.

Lemma fold_check_spot clock frame entries : forall ch cur m,
  fold_left (body clock frame) entries (ch, cur, m)
  = (ch ++ changes clock frame m entries,
     states_of frame entries cur,
     kept_after frame entries m).
Proof.
  induction entries as [|[i s] entries IH]; intros ch cur m.
  - simpl. rewrite app_nil_r. reflexivity.
  - cbn [fold_left changes states_of kept_after]. unfold check_spot at 2.
    unfold change_of, keep_step, kept. cbn [fst snd].
    destruct (negb (Bool.eqb _ _)); rewrite IH.
    + rewrite <- app_assoc. reflexivity.
    + reflexivity.
Qed.

Lemma keep_step_same frame m e :
  kept (keep_step frame m e) (snd e) = occupied_in frame (snd e).
Proof.
  unfold keep_step, kept.
  destruct (Bool.eqb (occupied_in frame (snd e)) (default false (m !! spot_id (snd e))))
    eqn:E; cbn [negb].
  - apply eqb_prop in E. symmetry. exact E.
  - rewrite lookup_insert_eq. reflexivity.
Qed.

Lemma keep_step_other frame m e k :
  k <> spot_id (snd e) -> keep_step frame m e !! k = m !! k.
Proof.
  intros Hk. unfold keep_step. destruct (negb _); [|reflexivity].
  apply lookup_insert_ne. congruence.
Qed.

Lemma kept_after_cons frame e entries m :
  kept_after frame (e :: entries) m = kept_after frame entries (keep_step frame m e).
Proof. reflexivity. Qed.

Lemma kept_after_other frame entries : forall m k,
  ~ In k (ids entries) -> kept_after frame entries m !! k = m !! k.
Proof.
  induction entries as [|e entries IH]; intros m k Hk; [reflexivity|].
  simpl in Hk. rewrite kept_after_cons.
  rewrite IH by tauto. apply keep_step_other. intros E. apply Hk. left.
  symmetry. exact E.
Qed.

Lemma kept_after_spots frame entries : forall m,
  List.NoDup (ids entries) ->
  Forall (fun e => kept (kept_after frame entries m) (snd e) = occupied_in frame (snd e))
         entries.
Proof.
  induction entries as [|e entries IH]; intros m Hnd; constructor.
  - inversion Hnd as [|? ? Hn Hnd']; subst.
    rewrite kept_after_cons.
    unfold kept. rewrite kept_after_other by exact Hn. apply keep_step_same.
  - inversion Hnd; subst.
    eapply List.Forall_impl; [|apply (IH (keep_step frame m e)); assumption].
    intros a Ha. rewrite kept_after_cons. exact Ha.
Qed.

Lemma spot_changes_nodup clock frame entries : forall m,
  List.NoDup (ids entries) ->
  changes clock frame m entries = flat_map (change_of clock frame m) entries.
Proof.
  induction entries as [|e entries IH]; intros m Hnd; [reflexivity|].
  inversion Hnd as [|? ? Hn Hnd']; subst.
  cbn [changes flat_map]. rewrite IH by assumption. f_equal.
  clear IH Hnd Hnd'. induction entries as [|e' entries IH']; [reflexivity|].
  simpl in Hn. cbn [flat_map]. rewrite IH' by tauto. f_equal.
  unfold change_of, kept. rewrite keep_step_other; [reflexivity|].
  intros E. apply Hn. left. exact E.
Qed.

(** *** Counting *)

Definition ones (bs : list bool) : Z :=
  fold_right (fun (b : bool) n => n + (if b then 1 else 0)) 0 bs.

Lemma ones_bounds bs : 0 <= ones bs <= Z.of_nat (length bs).
Proof.
  induction bs as [|b bs IH]; simpl; [lia|]. destruct b; lia.
Qed.

Lemma ones_snoc bs b : ones (bs ++ [b]) = ones bs + (if b then 1 else 0).
Proof.
  induction bs as [|c bs IH]; simpl; [reflexivity|]. rewrite IH. lia.
Qed.

Lemma states_of_snoc frame entries e m :
  states_of frame (entries ++ [e]) m
  = <[spot_id (snd e) := occupied_in frame (snd e)]> (states_of frame entries m).
Proof. unfold states_of. rewrite fold_left_app. reflexivity. Qed.

Lemma states_of_lookup frame entries : forall k,
  ~ In k (ids entries) -> states_of frame entries ∅ !! k = None.
Proof.
  induction entries as [|e entries IH] using rev_ind; intros k Hk.
  - apply lookup_empty.
  - rewrite states_of_snoc. unfold ids in Hk. rewrite map_app, in_app_iff in Hk.
    simpl in Hk. rewrite lookup_insert_ne by tauto. apply IH.
    unfold ids. tauto.
Qed.

Lemma nodup_snoc (l : list string) (x : string) :
  List.NoDup (l ++ [x]) -> List.NoDup l /\ ~ In x l.
Proof.
  intros H. apply NoDup_remove in H. rewrite app_nil_r in H. exact H.
Qed.

Lemma count_true_states frame entries :
  List.NoDup (ids entries) ->
  count_true (states_of frame entries ∅)
  = ones (map (fun e => occupied_in frame (snd e)) entries).
Proof.
  induction entries as [|e entries IH] using rev_ind; intros Hnd.
  - reflexivity.
  - unfold ids in Hnd. rewrite map_app in Hnd. simpl in Hnd.
    apply nodup_snoc in Hnd as [Hnd Hn].
    rewrite states_of_snoc. unfold count_true.
    rewrite map_fold_insert_L.
    + fold (count_true (states_of frame entries ∅)).
      rewrite IH by exact Hnd.
      rewrite map_app. simpl. rewrite ones_snoc. reflexivity.
    + intros. lia.
    + apply states_of_lookup. exact Hn.
Qed.

Lemma states_of_spots frame entries :
  List.NoDup (ids entries) ->
  Forall (fun e => states_of frame entries ∅ !! spot_id (snd e)
                   = Some (occupied_in frame (snd e))) entries.
Proof.
  induction entries as [|e entries IH] using rev_ind; intros Hnd; [constructor|].
  unfold ids in Hnd. rewrite map_app in Hnd. simpl in Hnd.
  apply nodup_snoc in Hnd as [Hnd Hn].
  apply Forall_app. split.
  - specialize (IH Hnd).
    rewrite List.Forall_forall in IH |- *. intros e' Hin.
    rewrite states_of_snoc, lookup_insert_ne; [apply IH, Hin|].
    intros E. apply Hn. rewrite E. apply in_map_iff. exists e'. auto.
  - constructor; [|constructor]. rewrite states_of_snoc. apply lookup_insert_eq.
Qed.

Lemma ids_enumerate (spots : list spot) :
  ids (Py.enumerate spots) = map spot_id spots.
Proof.
  unfold ids, Py.enumerate. generalize 0%nat.
  induction spots as [|s spots IH]; intros n; simpl; [reflexivity|].
  rewrite IH. reflexivity.
Qed.

Lemma enumerate_In (spots : list spot) s :
  In s spots -> exists i, In (i, s) (Py.enumerate spots).
Proof.
  intros Hin. rewrite <- (enumerate_snd spots) in Hin.
  apply in_map_iff in Hin as ([i s'] & E & Hin). simpl in E. subst s'. eauto.
Qed.

(** The result of a frame the pipeline looks at. *)
Lemma process_looked_at clock now response frame p :
  FRAME_SKIP (config p) <> 0 ->
  (frame_count p + 1) mod FRAME_SKIP (config p) = 0 ->
  parking_spots p <> [] ->
  let entries := Py.enumerate (parking_spots p) in
  let current := states_of frame entries ∅ in
  let ch := changes clock frame (spot_states p) entries in
  process clock now response frame p
  = (Returned (Some
       {| timestamp := now;
          total_spots := Z.of_nat (length (parking_spots p));
          occupied_spots := count_true current;
          available_spots := Z.of_nat (length (parking_spots p)) - count_true current;
          result_spot_states := current;
          occupancy_changes := ch;
          frame := frame;
          backend := if Py.is_empty_list ch then None else Some response |}),
     set_spot_states (kept_after frame entries (spot_states p)) (count_frame p)).
Proof.
  intros Hskip Hmod Hne entries current ch.
  unfold process_frame. cbv zeta.
  change (FRAME_SKIP (config (count_frame p))) with (FRAME_SKIP (config p)).
  change (frame_count (count_frame p)) with (frame_count p + 1).
  change (parking_spots (count_frame p)) with (parking_spots p).
  change (spot_states (count_frame p)) with (spot_states p).
  rewrite (proj2 (Z.eqb_neq _ _) Hskip), Hmod. cbn [Z.eqb negb].
  destruct (parking_spots p) as [|s0 spots] eqn:Es; [congruence|].
  cbn [Py.is_empty_list]. rewrite fold_check_spot. rewrite app_nil_l.
  unfold entries, current, ch, set_spot_states, count_frame.
  cbn [parking_spots config spot_states frame_count]. rewrite Es. reflexivity.
Qed.

(** The frame is one the pipeline looks at. *)
Definition looks_at (p : IndoorPipeline) : Prop :=
  FRAME_SKIP (config p) <> 0
  /\ (frame_count p + 1) mod FRAME_SKIP (config p) = 0
  /\ parking_spots p <> []
  /\ NoDup (map spot_id (parking_spots p)).

(** X24.  The counts of a result.  For spots with distinct ids, on a frame
    the pipeline looks at, the result counts the spots, the occupied
    spots are those [is_spot_occupied] finds occupied in the frame, and
    the available ones are the rest: the counts are not negative and add
    up to the number of spots. *)
Theorem indoor_counts_add_up clock now response frame p :
  looks_at p ->
  exists r p',
    process_frame detect clock now response frame p = (Returned (Some r), p')
    /\ total_spots r = Z.of_nat (length (parking_spots p))
    /\ occupied_spots r
       = ones (map (fun s => occupied_in frame s) (parking_spots p))
    /\ occupied_spots r + available_spots r = total_spots r
    /\ 0 <= occupied_spots r <= total_spots r
    /\ Forall (fun s => result_spot_states r !! spot_id s
                        = Some (occupied_in frame s)) (parking_spots p).
Proof.
  intros (Hskip & Hmod & Hne & Hnd).
  rewrite (process_looked_at clock now response frame p Hskip Hmod Hne).
  eexists _, _. split; [reflexivity|].
  cbn [total_spots occupied_spots available_spots result_spot_states].
  assert (Hids : List.NoDup (ids (Py.enumerate (parking_spots p))))
    by (rewrite ids_enumerate; apply NoDup_ListNoDup, Hnd).
  assert (Ec : count_true (states_of frame (Py.enumerate (parking_spots p)) ∅)
               = ones (map (fun s => occupied_in frame s) (parking_spots p))).
  { rewrite count_true_states by exact Hids. f_equal.
    rewrite <- (enumerate_snd (parking_spots p)) at 2. rewrite map_map. reflexivity. }
  rewrite Ec.
  pose proof (ones_bounds (map (fun s => occupied_in frame s) (parking_spots p))) as Hb.
  rewrite length_map in Hb.
  split; [reflexivity|]. split; [reflexivity|]. split; [lia|]. split; [lia|].
  pose proof (states_of_spots frame _ Hids) as Hs.
  rewrite List.Forall_forall in Hs |- *. intros s Hin.
  destruct (enumerate_In _ _ Hin) as [i Hi]. exact (Hs (i, s) Hi).
Qed.

(** X25.  The changes of a result.  For spots with distinct ids, on a frame
    the pipeline looks at, the result lists a change for a spot exactly
    when its state in the frame differs from the state the pipeline kept
    of it, in the order of the spots; the backend is called exactly when
    there is a change; and afterwards the pipeline keeps of every spot
    the state it has in the frame. *)
Theorem indoor_reports_exactly_the_flips clock now response frame p :
  looks_at p ->
  exists r p',
    process_frame detect clock now response frame p = (Returned (Some r), p')
    /\ occupancy_changes r
       = flat_map (change_of clock frame (spot_states p))
                  (Py.enumerate (parking_spots p))
    /\ backend r
       = (if Py.is_empty_list (occupancy_changes r) then None
          else Some response)
    /\ Forall (fun s => kept (spot_states p') s = occupied_in frame s)
              (parking_spots p)
    /\ parking_spots p' = parking_spots p.
Proof.
  intros (Hskip & Hmod & Hne & Hnd).
  rewrite (process_looked_at clock now response frame p Hskip Hmod Hne).
  eexists _, _. split; [reflexivity|].
  cbn [occupancy_changes backend set_spot_states spot_states parking_spots count_frame].
  assert (Hids : List.NoDup (ids (Py.enumerate (parking_spots p))))
    by (rewrite ids_enumerate; apply NoDup_ListNoDup, Hnd).
  split; [apply spot_changes_nodup, Hids|]. split; [reflexivity|]. split; [|reflexivity].
  pose proof (kept_after_spots frame _ (spot_states p) Hids) as Hs.
  rewrite List.Forall_forall in Hs |- *. intros s Hin.
  destruct (enumerate_In _ _ Hin) as [i Hi]. exact (Hs (i, s) Hi).
Qed.

(** X26.  A status update that fails is never sent again.  The pipeline
    records the new states before it calls the backend.  So when the
    spots look in a later frame as they looked in the frame of a call
    that failed, the pipeline finds no change, calls nothing, and the
    backend is left with the old states.  [q] is the pipeline at the
    later frame: it has the spots and the kept states the pipeline had
    after the failed call, which the frames in between, skipped, leave
    alone. *)
Theorem failed_status_update_is_never_resent
        clock now error frame p clock' now' response' frame' q :
  looks_at p ->
  let p1 := snd (process_frame detect clock now (failed error) frame p) in
  parking_spots q = parking_spots p1 ->
  spot_states q = spot_states p1 ->
  FRAME_SKIP (config q) <> 0 ->
  (frame_count q + 1) mod FRAME_SKIP (config q) = 0 ->
  Forall (fun s => occupied_in frame' s = occupied_in frame s) (parking_spots p) ->
  exists r q',
    process_frame detect clock' now' response' frame' q = (Returned (Some r), q')
    /\ occupancy_changes r = []
    /\ backend r = None
    /\ spot_states q' = spot_states q.
Proof.
  intros (Hskip & Hmod & Hne & Hnd) p1 Hqs Hqk Hskip' Hmod' Hsame.
  unfold p1 in *. clear p1.
  rewrite (process_looked_at clock now (failed error) frame p Hskip Hmod Hne)
    in Hqs, Hqk.
  cbn [snd set_spot_states parking_spots spot_states count_frame] in Hqs, Hqk.
  assert (Hne' : parking_spots q <> []) by (rewrite Hqs; exact Hne).
  rewrite (process_looked_at clock' now' response' frame' q Hskip' Hmod' Hne').
  eexists _, _. split; [reflexivity|].
  cbn [occupancy_changes backend set_spot_states spot_states count_frame].
  assert (Hids : List.NoDup (ids (Py.enumerate (parking_spots p))))
    by (rewrite ids_enumerate; apply NoDup_ListNoDup, Hnd).
  pose proof (kept_after_spots frame _ (spot_states p) Hids) as Hs.
  rewrite <- Hqk in Hs. rewrite Hqs.
  assert (Hall : Forall (fun e => occupied_in frame' (snd e) = kept (spot_states q) (snd e))
                        (Py.enumerate (parking_spots p))).
  { rewrite List.Forall_forall in Hs, Hsame |- *. intros [i s] Hin.
    rewrite (Hs _ Hin). apply Hsame. cbn [snd].
    unfold Py.enumerate in Hin. apply in_combine_r in Hin. exact Hin. }
  assert (Ech : changes clock' frame' (spot_states q) (Py.enumerate (parking_spots p)) = []
                /\ kept_after frame' (Py.enumerate (parking_spots p)) (spot_states q)
                   = spot_states q).
  { clear Hs Hids. revert Hall. generalize (Py.enumerate (parking_spots p)).
    intros entries Hall. induction entries as [|e entries IH]; [split; reflexivity|].
    apply List.Forall_cons_iff in Hall as [He Hall]. specialize (IH Hall).
    cbn [changes]. rewrite kept_after_cons.
    unfold change_of, keep_step. rewrite He, eqb_reflx. cbn [negb app].
    exact IH. }
  destruct Ech as [-> ->]. repeat split.
Qed.
End Pipeline.

(** Two spots side by side under one camera; the model sees a car that
    fills the crop of a spot whose first pixel is marked. *)
Definition two_spots : list spot :=
  [ {| spot_id := "A1"; spot_bbox := (0, 0, 4, 4) |};
    {| spot_id := "A2"; spot_bbox := (4, 0, 8, 4) |} ].

Definition marked_detect (roi : SlotDetector.image) : list vehicle :=
  match roi with
  | ((1 :: _) :: _) :: _ =>
      [ {| vehicle_bbox := (0, 0, 4, 4); vehicle_confidence := 9 # 10;
           class_id := 2; class_name := "car" |} ]
  | _ => []
  end.

Definition lot_frame (first second : Z) : SlotDetector.image :=
  repeat (repeat [first] 4 ++ repeat [second] 4) 4.

Definition lot (count : Z) (states : gmap string bool) : IndoorPipeline :=
  {| config := {| OCR_CONFIDENCE_THRESHOLD := 7 # 10; FRAME_SKIP := 5 |};
     parking_spots := two_spots; spot_states := states; frame_count := count |}.

Lemma looks_at_lot states : looks_at (lot 4 states).
Proof.
  split; [discriminate|]. split; [reflexivity|]. split; [discriminate|].
  apply (bool_decide_unpack _). vm_compute. exact I.
Qed.

Lemma indoor_counts_add_up_witness :
  exists r p',
    process_frame marked_detect (fun _ => 0) 0 (responded "ok") (lot_frame 1 0) (lot 4 ∅)
    = (Returned (Some r), p')
    /\ total_spots r = Z.of_nat (length (parking_spots (lot 4 ∅)))
    /\ occupied_spots r
       = ones (map (fun s => is_spot_occupied marked_detect (lot_frame 1 0) (spot_bbox s))
                   (parking_spots (lot 4 ∅)))
    /\ occupied_spots r + available_spots r
       = total_spots r
    /\ 0 <= occupied_spots r <= total_spots r
    /\ Forall (fun s => result_spot_states r !! spot_id s
                        = Some (is_spot_occupied marked_detect (lot_frame 1 0)
                                                 (spot_bbox s)))
              (parking_spots (lot 4 ∅)).
Proof.
  exact (indoor_counts_add_up marked_detect (fun _ => 0) 0 (responded "ok")
           (lot_frame 1 0) (lot 4 ∅) (looks_at_lot ∅)).
Defined.

Lemma indoor_reports_exactly_the_flips_witness :
  exists r p',
    process_frame marked_detect (fun _ => 0) 0 (responded "ok") (lot_frame 1 0) (lot 4 ∅)
    = (Returned (Some r), p')
    /\ occupancy_changes r
       = flat_map (change_of marked_detect (fun _ => 0) (lot_frame 1 0)
                             (spot_states (lot 4 ∅)))
                  (Py.enumerate (parking_spots (lot 4 ∅)))
    /\ backend r
       = (if Py.is_empty_list (occupancy_changes r) then None
          else Some (responded "ok"))
    /\ Forall (fun s => kept (spot_states p') s
                        = is_spot_occupied marked_detect (lot_frame 1 0) (spot_bbox s))
              (parking_spots (lot 4 ∅))
    /\ parking_spots p' = parking_spots (lot 4 ∅).
Proof.
  exact (indoor_reports_exactly_the_flips marked_detect (fun _ => 0) 0 (responded "ok")
           (lot_frame 1 0) (lot 4 ∅) (looks_at_lot ∅)).
Defined.

Lemma failed_status_update_is_never_resent_witness :
  exists r q',
    process_frame marked_detect (fun _ => 0) 60 (responded "ok") (lot_frame 1 0)
                  (lot 9 {[ "A1"%string := true ]})
    = (Returned (Some r), q')
    /\ occupancy_changes r = []
    /\ backend r = None
    /\ spot_states q' = spot_states (lot 9 {[ "A1"%string := true ]}).
Proof.
  apply (failed_status_update_is_never_resent marked_detect
           (fun _ => 0) 0 "timeout" (lot_frame 1 0) (lot 4 ∅)
           (fun _ => 0) 60 (responded "ok") (lot_frame 1 0)
           (lot 9 {[ "A1"%string := true ]}) (looks_at_lot ∅)).
  - reflexivity.
  - vm_compute. reflexivity.
  - discriminate.
  - reflexivity.
  - repeat constructor.
Defined.

(** With one id given to two spots the counts no longer add up to what
    the frame shows: both spots are occupied, one is reported. *)
Example shared_id_miscounts :
  let twins := [ {| spot_id := "A1"; spot_bbox := (0, 0, 4, 4) |};
                 {| spot_id := "A1"; spot_bbox := (4, 0, 8, 4) |} ] in
  let p := {| config := {| OCR_CONFIDENCE_THRESHOLD := 7 # 10; FRAME_SKIP := 1 |};
              parking_spots := twins; spot_states := ∅; frame_count := 0 |} in
  match fst (process_frame marked_detect (fun _ => 0) 0 (responded "ok")
                           (lot_frame 1 1) p) with
  | Returned (Some r) =>
      total_spots r = 2 /\ occupied_spots r = 1
      /\ available_spots r = 1
  | _ => False
  end.
Proof. vm_compute. repeat split. Qed.
End IndoorPipelineFacts.
